(** * Content-extraction engine of the scraper: model and properties

    A shallow embedding of the extraction heuristics of
    [scraper/news_scraper.py] and [scraper/scrapers-file/detail.py], with
    the text normalizer of [scraper/scrapper.py] and the feed reader of
    [scraper/scrapers-file/news_scraper.py].

    Python [str] values are sequences of Unicode code points ([list N]).
    Character classes that Python takes from the Unicode database are
    modelled as follows: [isspace] is the complete white-space table of
    CPython; case mapping and the upper/lower/digit classes are modelled on
    the ASCII range, every other code point being caseless and not a
    digit.  The parsed page is a rose tree of elements and text nodes. *)

From Stdlib Require Import String Ascii List NArith Bool Arith Lia DecimalString.
Import ListNotations.

Set Implicit Arguments.
Set Warnings "-register-all".

(* ===================================================================== *)
(** * Part I: definitions *)
(* ===================================================================== *)

(** ** Python strings *)
Module Py.

Definition str := list N.

(** An ASCII literal as a code-point sequence. *)
Definition lit (s : string) : str := map N_of_ascii (list_ascii_of_string s).
Definition lits (l : list string) : list str := map lit l.

Fixpoint eqb (a b : str) : bool :=
  match a, b with
  | [], [] => true
  | x :: a', y :: b' => (x =? y)%N && eqb a' b'
  | _, _ => false
  end.

(** [x in l] for a list of strings. *)
Definition mem (x : str) (l : list str) : bool := existsb (eqb x) l.

(** [str.isspace] of one character: CPython's [_PyUnicode_IsWhitespace]. *)
Definition isspace (c : N) : bool :=
  ((9 <=? c) && (c <=? 13) || (28 <=? c) && (c <=? 32) || (c =? 133)
   || (c =? 160) || (c =? 5760) || (8192 <=? c) && (c <=? 8202)
   || (c =? 8232) || (c =? 8233) || (c =? 8239) || (c =? 8287)
   || (c =? 12288))%N.

Definition isdigit (c : N) : bool := ((48 <=? c) && (c <=? 57))%N.
Definition isupper_chr (c : N) : bool := ((65 <=? c) && (c <=? 90))%N.
Definition islower_chr (c : N) : bool := ((97 <=? c) && (c <=? 122))%N.
Definition iscased (c : N) : bool := isupper_chr c || islower_chr c.

Definition lower_chr (c : N) : N := if isupper_chr c then (c + 32)%N else c.
Definition upper_chr (c : N) : N := if islower_chr c then (c - 32)%N else c.

(** [s.lower()] *)
Definition lower (s : str) : str := map lower_chr s.

(** [s.isupper()]: at least one cased character, none of them lowercase. *)
Definition isupper (s : str) : bool :=
  existsb isupper_chr s && negb (existsb islower_chr s).

(** [s.title()]: a cased character is upper-cased when the character before
    it is not cased, and lower-cased otherwise. *)
Fixpoint title_from (prev_cased : bool) (s : str) : str :=
  match s with
  | [] => []
  | c :: t =>
      if iscased c
      then (if prev_cased then lower_chr c else upper_chr c) :: title_from true t
      else c :: title_from false t
  end.
Definition title (s : str) : str := title_from false s.

(** [s.startswith(p)] *)
Fixpoint startswith (p s : str) : bool :=
  match p, s with
  | [], _ => true
  | _ :: _, [] => false
  | a :: p', b :: s' => (a =? b)%N && startswith p' s'
  end.

(** [sub in s] *)
Fixpoint contains (sub s : str) : bool :=
  startswith sub s || match s with [] => false | _ :: t => contains sub t end.

(** [any(k in s for k in ks)] *)
Definition contains_any (ks : list str) (s : str) : bool :=
  existsb (fun k => contains k s) ks.

(** [s.lstrip()], [s.rstrip()], [s.strip()], by a character predicate; the
    argument-less forms strip white space. *)
Fixpoint lstrip_by (p : N -> bool) (s : str) : str :=
  match s with
  | [] => []
  | c :: t => if p c then lstrip_by p t else s
  end.

Fixpoint rstrip_by (p : N -> bool) (s : str) : str :=
  match s with
  | [] => []
  | c :: t =>
      match rstrip_by p t with
      | [] => if p c then [] else [c]
      | r => c :: r
      end
  end.

Definition strip_by (p : N -> bool) (s : str) : str := rstrip_by p (lstrip_by p s).
Definition strip (s : str) : str := strip_by isspace s.
Definition strip_chr (ch : N) (s : str) : str := strip_by (N.eqb ch) s.

(** [s.split()]: the maximal runs of non-white-space characters. *)
Definition head_nonspace (s : str) : bool :=
  match s with
  | [] => false
  | d :: _ => negb (isspace d)
  end.

Definition push (c : N) (ws : list str) : list str :=
  match ws with
  | [] => [[c]]
  | w :: r => (c :: w) :: r
  end.

Fixpoint split (s : str) : list str :=
  match s with
  | [] => []
  | c :: t =>
      if isspace c then split t
      else if head_nonspace t then push c (split t)
      else [c] :: split t
  end.

(** [s.split(sep)] for a one-character separator: never empty. *)
Fixpoint split_chr (sep : N) (s : str) : list str :=
  match s with
  | [] => [[]]
  | c :: t => if (c =? sep)%N then [] :: split_chr sep t else push c (split_chr sep t)
  end.

(** [sep.join(ws)] *)
Fixpoint join (sep : str) (ws : list str) : str :=
  match ws with
  | [] => []
  | w :: r =>
      match r with
      | [] => w
      | _ :: _ => w ++ sep ++ join sep r
      end
  end.

(** [s.replace(old, new)]: leftmost non-overlapping occurrences.  [skip]
    counts the characters of a matched occurrence still to be passed. *)
Fixpoint replace_from (old new : str) (skip : nat) (s : str) : str :=
  match s with
  | [] => []
  | c :: t =>
      match skip with
      | S k => replace_from old new k t
      | O =>
          if startswith old s
          then new ++ replace_from old new (length old - 1) t
          else c :: replace_from old new 0 t
      end
  end.

Definition replace (old new s : str) : str :=
  match old with
  | [] => new ++ flat_map (fun c => c :: new) s
  | _ :: _ => replace_from old new 0 s
  end.

(** [re.sub(r'\s+', ' ', s)]: every maximal white-space run becomes one
    space; the last character of a run emits it. *)
Definition head_space (s : str) : bool :=
  match s with
  | [] => false
  | d :: _ => isspace d
  end.

Fixpoint collapse_space (s : str) : str :=
  match s with
  | [] => []
  | c :: t =>
      if isspace c
      then (if head_space t then collapse_space t else 32%N :: collapse_space t)
      else c :: collapse_space t
  end.

(** Truthiness of a string. *)
Definition truthy (s : str) : bool := match s with [] => false | _ => true end.

(** [max(l, key=len)] on a non-empty list: the first of the longest. *)
Fixpoint max_by_len (best : str) (l : list str) : str :=
  match l with
  | [] => best
  | x :: r => max_by_len (if length best <? length x then x else best) r
  end.

(** [a or b] on optional results. *)
Definition or_else {A : Type} (a b : option A) : option A :=
  match a with
  | Some _ => a
  | None => b
  end.

(** [int(s)] of a string of ASCII digits. *)
Definition int_of_digits (s : str) : N :=
  fold_left (fun acc c => (10 * acc + (c - 48))%N) s 0%N.

End Py.

(** ** The parsed page *)
Module Dom.
Import Py.
Local Open Scope string_scope.
Local Open Scope list_scope.
Local Open Scope nat_scope.

(** A page element or a text node, as the parser hands it over. *)
Inductive node : Type :=
| Text (s : str)
| Elem (tag : str) (attrs : list (str * str)) (children : list node).

Definition name (n : node) : str :=
  match n with
  | Text _ => []
  | Elem t _ _ => t
  end.

Fixpoint assoc (k : str) (l : list (str * str)) : option str :=
  match l with
  | [] => None
  | (k', v) :: r => if eqb k k' then Some v else assoc k r
  end.

Definition attr (a : str) (n : node) : option str :=
  match n with
  | Text _ => None
  | Elem _ attrs _ => assoc a attrs
  end.

(** [tag.get(a, "")] *)
Definition get (a : str) (n : node) : str :=
  match attr a n with
  | Some v => v
  | None => []
  end.

Definition has_attr (a : str) (n : node) : bool :=
  match attr a n with
  | Some _ => true
  | None => false
  end.

Definition attr_is (a v : str) (n : node) : bool :=
  match attr a n with
  | Some v' => eqb v v'
  | None => false
  end.

(** [tag.get_text()]: the text nodes below the tag, in document order. *)
Fixpoint get_text (n : node) : str :=
  match n with
  | Text s => s
  | Elem _ _ cs => flat_map get_text cs
  end.

(** The elements below a node in document order, each with its ancestors,
    the nearest first. *)
Fixpoint entries (ancestors : list node) (n : node) : list (list node * node) :=
  match n with
  | Text _ => []
  | Elem _ _ cs =>
      flat_map (fun c => match c with
                         | Text _ => []
                         | Elem _ _ _ => (n :: ancestors, c) :: entries (n :: ancestors) c
                         end) cs
  end.

Definition descendants (n : node) : list node := map snd (entries [] n).

Definition named (names : list str) (n : node) : bool := mem (name n) names.

(** [tag.find_all(names)] and [tag.find(names)] *)
Definition find_all (names : list str) (n : node) : list node :=
  filter (named names) (descendants n).

Definition find_all_where (p : node -> bool) (n : node) : list node :=
  filter p (descendants n).

Definition find_where (p : node -> bool) (n : node) : option node :=
  List.find p (descendants n).

Definition find (names : list str) (n : node) : option node :=
  find_where (named names) n.

(** An element together with its ancestors and with the elements that
    follow its start tag in the document: what [h.parent], a descendant
    selector and [h.find_next] see. *)
Record located : Type := Located {
  ancestors : list node;
  self : node;
  following : list node
}.

Fixpoint locate (es : list (list node * node)) : list located :=
  match es with
  | [] => []
  | (anc, e) :: r => Located anc e (map snd r) :: locate r
  end.

Definition located_in (n : node) : list located := locate (entries [] n).

(** [h.parent]; every located element has one. *)
Definition parent (l : located) : node := hd (self l) (ancestors l).

Definition find_all_located (names : list str) (n : node) : list located :=
  filter (fun l => named names (self l)) (located_in n).

(** [h.find_next(names)] *)
Definition find_next (names : list str) (l : located) : option node :=
  List.find (named names) (following l).

(** The CSS selectors the engine uses: [t], [.c], [t.c], [[class*='c']],
    and a descendant combinator between two of them. *)
Inductive simple_selector : Type :=
| ByTag (t : str)
| ByClass (c : str)
| ByTagClass (t c : str)
| ByClassSubstring (c : str).

Inductive selector : Type :=
| Simple (s : simple_selector)
| Within (outer inner : simple_selector).

Definition class_tokens (n : node) : list str := split (get (lit "class") n).

Definition matches_simple (s : simple_selector) (n : node) : bool :=
  match s with
  | ByTag t => eqb (name n) t
  | ByClass c => mem c (class_tokens n)
  | ByTagClass t c => eqb (name n) t && mem c (class_tokens n)
  | ByClassSubstring c =>
      has_attr (lit "class") n && contains c (join [32%N] (class_tokens n))
  end.

Definition matches (s : selector) (l : located) : bool :=
  match s with
  | Simple s => matches_simple s (self l)
  | Within outer inner =>
      matches_simple inner (self l) && existsb (matches_simple outer) (ancestors l)
  end.

(** [tag.select(selector)] *)
Definition select_located (s : selector) (n : node) : list located :=
  filter (matches s) (located_in n).

Definition select (s : selector) (n : node) : list node :=
  map self (select_located s n).

End Dom.

(** ** URLs: the parts of [urllib.parse.urlparse] the engine reads

    The engine's functions take [urljoin] and these parts as parameters.
    The definitions here follow [urlsplit] for URLs of the schemes that
    carry parameters ([http], [https], none), and serve the sample pages. *)
Module Url.
Import Py.

(** Characters allowed in a scheme: letters, digits, [+], [-], [.]. *)
Definition scheme_chr (c : N) : bool :=
  iscased c || isdigit c || (c =? 43)%N || (c =? 45)%N || (c =? 46)%N.

(** The text before the first [ch], and the text after it if there is one. *)
Fixpoint cut (ch : N) (s : str) : str * option str :=
  match s with
  | [] => ([], None)
  | c :: t =>
      if (c =? ch)%N then ([], Some t)
      else let (a, b) := cut ch t in (c :: a, b)
  end.

(** Removes a leading [scheme:]. *)
Definition drop_scheme (url : str) : str :=
  match cut 58 url with
  | (c :: sch, Some rest) =>
      if iscased c && forallb scheme_chr (c :: sch) then rest else url
  | _ => url
  end.

Fixpoint until_delim (s : str) : str * str :=
  match s with
  | [] => ([], [])
  | c :: t =>
      if (c =? 47)%N || (c =? 63)%N || (c =? 35)%N then ([], s)
      else let (a, b) := until_delim t in (c :: a, b)
  end.

(** The authority and what follows it. *)
Definition split_netloc (url : str) : str * str :=
  match drop_scheme url with
  | 47%N :: 47%N :: rest => until_delim rest
  | rest => ([], rest)
  end.

(** [urlparse(url).netloc] *)
Definition netloc (url : str) : str := fst (split_netloc url).

(** [urlparse(url).path] (query, fragment and parameters cut off). *)
Definition path (url : str) : str :=
  let p := fst (cut 63 (fst (cut 35 (snd (split_netloc url))))) in
  let segs := split_chr 47 p in
  let lst := last segs [] in
  firstn (length p - length lst) p ++ fst (cut 59 lst).

End Url.

(** ** [scraper/news_scraper.py] *)
Module NewsScraper.
Import Py Dom.
Local Open Scope string_scope.
Local Open Scope list_scope.
Local Open Scope nat_scope.

Definition NOISE_KEYWORDS : list str := lits
  [ "subscribe"; "newsletter"; "download"; "app"; "cookie"; "privacy policy";
    "terms of service"; "copyright"; "all rights reserved"; "most watched";
    "trending now"; "latest news"; "also in news"; "more to explore";
    "read more"; "click here"; "advertise"; "contact us"; "about us";
    "follow us"; "social media"; "login"; "sign up"; "register";
    "wait for it"; "congratulations"; "you are now subscribed";
    "stock recommendations"; "buy/sell signals"; "market calendar";
    "find your first"; "board meeting"; "quarterly results" ].

Definition NAVIGATION_TITLES : list str := lits
  [ "stock recommendations"; "buy/sell signals"; "market calendar";
    "bse announcement"; "find your first"; "latest news"; "trending";
    "most watched"; "also in news"; "more to explore"; "newsnews";
    "currency converter"; "calendar spread"; "digital real estate";
    "india inc's scorecard"; "cryptocurrencybitcoin"; "currenciesforex";
    "commoditybullion"; "ipostartups" ].

Definition GENERIC_SUMMARIES : list str := lits
  [ "trending in markets"; "quick links"; "discover bonds that meet";
    "board meeting"; "quarterly results"; "download the mint app";
    "read premium stories"; "got a confidential news tip"; "subscribe";
    "download the app"; "read premium"; "sign up"; "log in" ].

(** The literal lists inside [is_valid_article]. *)
Definition trivial_titles : list str := lits
  [ "news"; "newsnews"; "latest"; "more"; "read"; "watch" ].

Definition section_header_titles : list str := lits
  [ "india news"; "economy news"; "politics news"; "sports news";
    "science news"; "defence news"; "international news"; "company news";
    "market calendar"; "stock recommendations" ].

Definition company_punctuation : list str := lits [ ":"; "-"; "?"; "!" ].
Definition headline_punctuation : list str := lits [ ":"; "-"; "?"; "!"; "," ].
Definition filler_words : list str := lits [ "trending"; "links"; "discover"; "find" ].

Definition section_indicators : list str := lits
  [ "bitcoin, blockchain"; "forex & futures"; "startups, grey market";
    "bullion, base metals"; "all else"; "scorecard" ].

(** The "company name without context" test of [is_valid_article]:
    [[
      if len(title.split()) <= 2 and not any(char.isdigit() for char in title):
          if title_lower.isupper() or (title_lower[0].isupper() and not any(...)):
    ]]
    [None] where the Python raises: [title_lower[0]] on an empty string. *)
Definition bare_company_name (title title_lower : str) : option bool :=
  if (length (split title) <=? 2) && negb (existsb isdigit title) then
    if isupper title_lower then Some true else
    match title_lower with
    | [] => None
    | c :: _ =>
        Some (isupper [c] && negb (contains_any company_punctuation title))
    end
  else Some false.

Notation "'reject_if' c ';;' k" := (if c then Some false else k)
  (at level 10, c at level 100, k at level 200, only parsing).

(** [is_valid_article(title, summary, link)], lines 58-116; [None] is a
    raised exception. *)
Definition is_valid_article (title summary link : str) : option bool :=
  reject_if negb (truthy title) || (length title <? 15) ;;
  let title_lower := strip (lower title) in
  let summary_lower := lower summary in
  reject_if mem title_lower NAVIGATION_TITLES ;;
  reject_if existsb (fun keyword => contains keyword title_lower
                                    || contains keyword summary_lower)
                    NOISE_KEYWORDS ;;
  reject_if mem title_lower trivial_titles ;;
  reject_if mem title_lower section_header_titles ;;
  match bare_company_name title title_lower with
  | None => None
  | Some true => Some false
  | Some false =>
      reject_if negb (truthy link)
                && (negb (truthy summary) || (length summary <? 20)) ;;
      reject_if truthy summary
                && contains_any GENERIC_SUMMARIES summary_lower ;;
      reject_if truthy summary && (length summary <? 30)
                && contains_any filler_words summary_lower ;;
      reject_if truthy title
                && (isupper title || (length (split title) <=? 2))
                && negb (contains_any headline_punctuation title) ;;
      reject_if contains_any section_indicators title_lower ;;
      Some true
  end.

(** [re.search(r'20[2-3][0-9]', s)]: the leftmost match, if any. *)
Definition year_here (s : str) : bool :=
  match s with
  | a :: b :: c :: d :: _ =>
      (a =? 50)%N && (b =? 48)%N && ((c =? 50)%N || (c =? 51)%N)
      && ((48 <=? d)%N && (d <=? 57)%N)
  | _ => false
  end.

Fixpoint search_year (s : str) : option str :=
  match s with
  | [] => None
  | _ :: t => if year_here s then Some (firstn 4 s) else search_year t
  end.

(** [validate_date(date_str)], lines 163-181 *)
Definition validate_date (date_str : str) : bool :=
  if negb (truthy date_str) then false else
  if contains (lit "00-00") date_str || contains (lit "00/00") date_str
  then false else
  match search_year date_str with
  | None => false
  | Some year_match =>
      let year := int_of_digits year_match in
      if (year <? 2020)%N || (2030 <? year)%N then false else true
  end.

(** [clean_text(text)], lines 212-218: the replaced sequences are the
    mis-encoded rupee sign (U+00E2 U+201A U+00B9, replaced by U+20B9), the
    no-break space and the right single quotation mark. *)
Definition clean_text (text : str) : str :=
  if negb (truthy text) then [] else
  let text := join [32%N] (split text) in
  let text := replace [226; 8218; 185]%N [8377%N] text in
  let text := replace [160%N] [32%N] text in
  let text := replace [8217%N] [39%N] text in
  strip text.

(** The article record; the wall-clock stamp [scraped_at] is left out. *)
Record extracted_article : Type := Article {
  title : str;
  link : str;
  summary : str;
  date : str;
  category : str;
  source : str
}.

Section Extraction.

(** Collaborators from outside the engine: [urllib.parse.urljoin] and the
    path component of [urllib.parse.urlparse]; and the date extractor,
    whose result only fills the [date] field. *)
Variable urljoin : str -> str -> str.
Variable url_path : str -> str.
Variable extract_date : node -> option node -> str.

(** The category the page metadata gives: the [content] of the first
    [meta] element with [property="article:section"], or else with
    [name="category"]. *)
Definition meta_category (soup : node) : str :=
  let meta_cat :=
    or_else
      (find_where (fun e => named [lit "meta"] e
                            && attr_is (lit "property") (lit "article:section") e) soup)
      (find_where (fun e => named [lit "meta"] e
                            && attr_is (lit "name") (lit "category") e) soup) in
  match meta_cat with
  | Some m => get (lit "content") m
  | None => []
  end.

(** [extract_category(soup, article_elem, url)], lines 194-210 *)
Definition extract_category (soup : node) (article_elem : option node)
    (url : str) : str :=
  let category := meta_category soup in
  if negb (truthy category) && truthy url then
    let path_parts := split_chr 47 (strip_chr 47 (url_path url)) in
    if 1 <? length path_parts
    then Py.title (replace (lit "-") (lit " ") (hd [] path_parts))
    else category
  else category.

(** The link fix-up every strategy applies to a raw [href]. *)
Definition resolve_link (url href : str) : str :=
  if startswith (lit "http") href then href
  else if startswith (lit "//") href then lit "https:" ++ href
  else if startswith (lit "/") href then urljoin url href
  else href.

(** [link_elem.get("href")] when present and non-empty, resolved. *)
Definition link_of (url : str) (link_elem : option node) : str :=
  match link_elem with
  | Some a => if truthy (get (lit "href") a) then resolve_link url (get (lit "href") a) else []
  | None => []
  end.

(** The test applied to a summary candidate. *)
Definition good_summary (text : str) : bool :=
  truthy text && (40 <? length text) && (length text <? 500)
  && negb (contains_any GENERIC_SUMMARIES (lower text)).

Definition summary_selectors : list selector :=
  map (fun c => Simple (ByClass c))
      (lits [ "summary"; "excerpt"; "description"; "lead"; "intro" ])
  ++ map (fun c => Simple (ByClassSubstring c))
       (lits [ "summary"; "excerpt"; "description"; "lead"; "intro" ]).

(** The qualifying texts found by the class selectors, at most two
    elements for each selector. *)
Definition selector_candidates (article : node) : list str :=
  flat_map (fun selector =>
              filter good_summary
                (map (fun elem => clean_text (get_text elem))
                     (firstn 2 (select selector article))))
           summary_selectors.

(** The first qualifying text among the first three paragraphs. *)
Definition paragraph_candidate (article : node) : option str :=
  List.find good_summary
    (map (fun p => clean_text (get_text p))
         (firstn 3 (find_all [lit "p"] article))).

(** The summary chosen for an [article] element, not yet truncated. *)
Definition select_summary (article : node) : str :=
  let summary_candidates :=
    match selector_candidates article with
    | [] =>
        match paragraph_candidate article with
        | Some text => [text]
        | None => []
        end
    | _ :: _ => selector_candidates article
    end in
  match summary_candidates with
  | [] => []
  | c :: r => max_by_len c r
  end.

(** Record assembly, shared by the strategies: the validity test sees the
    whole summary, the record keeps its first 400 characters.  [None]
    stands for an exception, [Some None] for a rejected candidate. *)
Definition assemble (soup : node) (url : str) (elem : option node)
    (title link summary : str) : option (option extracted_article) :=
  let date_str := extract_date soup elem in
  let category :=
    extract_category soup elem (if truthy link then link else url) in
  match is_valid_article title summary link with
  | None => None
  | Some false => Some None
  | Some true =>
      Some (Some (Article title link
                          (if truthy summary then firstn 400 summary else [])
                          date_str category url))
  end.

(** The loop every strategy runs over its candidates:
    [[
      title = ...                      # or: continue
      if <skip> or title.lower() in seen_titles: continue
      seen_titles.add(title.lower())
      ...
      if is_valid_article(title, summary, link): articles.append({...})
    ]]
    [title_of] gives the title of a candidate that reaches the
    [seen_titles] test, [build] the rest of the body.  The result is the
    state [(seen_titles, articles)] the loop ends in, and whether it ended
    normally ([true]) or by an exception ([false]). *)
Section Scan.
Variable cand : Type.
Variable title_of : cand -> option str.
Variable build : cand -> str -> option (option extracted_article).

Fixpoint scan (cs : list cand) (seen_titles : list str)
    (articles : list extracted_article)
    : (list str * list extracted_article) * bool :=
  match cs with
  | [] => ((seen_titles, articles), true)
  | c :: rest =>
      match title_of c with
      | None => scan rest seen_titles articles
      | Some title =>
          if mem (lower title) seen_titles then scan rest seen_titles articles
          else
            let seen_titles := lower title :: seen_titles in
            match build c title with
            | None => ((seen_titles, articles), false)
            | Some None => scan rest seen_titles articles
            | Some (Some a) => scan rest seen_titles (articles ++ [a])
            end
      end
  end.

(** [try: ... return articles / except Exception: return []] *)
Definition run (cs : list cand) : list extracted_article :=
  let (st, finished) := scan cs [] [] in
  if finished then snd st else [].
End Scan.

(** *** [scrape_static_article], lines 223-311: the page's [article]
    elements *)
Definition static_title (article : node) : option str :=
  match find [lit "h1"; lit "h2"; lit "h3"] article with
  | None => None
  | Some title_tag =>
      let title := clean_text (get_text title_tag) in
      if negb (truthy title) then None else Some title
  end.

Definition static_link (url : str) (article : node) : str :=
  match find [lit "h1"; lit "h2"; lit "h3"] article with
  | None => []
  | Some title_tag =>
      link_of url
        (or_else (find [lit "a"] title_tag)
                 (find_where (fun e => named [lit "a"] e && has_attr (lit "href") e)
                             article))
  end.

Definition static_build (soup : node) (url : str) (article : node)
    (title : str) : option (option extracted_article) :=
  assemble soup url (Some article) title (static_link url article)
           (select_summary article).

Definition scrape_static_article (soup : node) (url : str) : list extracted_article :=
  run static_title (static_build soup url) (find_all [lit "article"] soup).

(** *** [scrape_headlines], lines 316-378: all [h1], then all [h2], [h3]
    and [h4] *)
Definition HEADLINE_TAGS : list str := lits [ "h1"; "h2"; "h3"; "h4" ].

Definition headline_candidates (soup : node) : list located :=
  flat_map (fun tag => find_all_located [tag] soup) HEADLINE_TAGS.

Definition headline_title (h : located) : option str :=
  let title := clean_text (get_text (self h)) in
  if negb (truthy title) || (length title <? 15) then None else Some title.

Definition headline_build (soup : node) (url : str) (h : located)
    (title : str) : option (option extracted_article) :=
  let link :=
    match find_where (fun e => named [lit "a"] e && has_attr (lit "href") e)
                     (self h) with
    | Some link_elem => resolve_link url (get (lit "href") link_elem)
    | None => []
    end in
  let summary :=
    match find_next [lit "p"] h with
    | Some p => clean_text (get_text p)
    | None => []
    end in
  assemble soup url (Some (parent h)) title link summary.

Definition scrape_headlines (soup : node) (url : str) : list extracted_article :=
  run headline_title (headline_build soup url) (headline_candidates soup).

(** *** [scrape_js], lines 473-538: the rendered page's [article]
    elements *)
Definition js_title (article : node) : option str :=
  match find [lit "h1"; lit "h2"; lit "h3"] article with
  | None => None
  | Some title_tag =>
      let title := clean_text (get_text title_tag) in
      if negb (truthy title) || (length title <? 15) then None else Some title
  end.

Definition js_build (soup : node) (url : str) (article : node)
    (title : str) : option (option extracted_article) :=
  let summary :=
    match find [lit "p"] article with
    | Some p => clean_text (get_text p)
    | None => []
    end in
  assemble soup url (Some article) title (static_link url article) summary.

Definition scrape_js (soup : node) (url : str) : list extracted_article :=
  run js_title (js_build soup url) (find_all [lit "article"] soup).

(** *** [crawl_pages], lines 383-468: the listing pages [url],
    [url/page-2], ... *)
Definition page_selectors : list selector :=
  [ Simple (ByTag (lit "article"));
    Simple (ByTagClass (lit "li") (lit "article"));
    Simple (ByTagClass (lit "div") (lit "article"));
    Simple (ByTagClass (lit "div") (lit "story"));
    Within (ByTag (lit "h2")) (ByTag (lit "a"));
    Within (ByTag (lit "h3")) (ByTag (lit "a"));
    Within (ByClass (lit "headline")) (ByTag (lit "a"));
    Within (ByClass (lit "title")) (ByTag (lit "a"));
    Within (ByClassSubstring (lit "news")) (ByTag (lit "a")) ].

Definition page_candidates (soup : node) : list located :=
  flat_map (fun sel => select_located sel soup) page_selectors.

Definition page_title (elem : located) : option str :=
  let title_elem :=
    if named [lit "h2"; lit "h3"] (self elem) then self elem
    else match find [lit "h2"; lit "h3"; lit "a"] (self elem) with
         | Some t => t
         | None => self elem
         end in
  let title := clean_text (get_text title_elem) in
  if negb (truthy title) || (length title <? 15) then None else Some title.

Definition page_build (soup : node) (page_url : str) (elem : located)
    (title : str) : option (option extracted_article) :=
  let link_elem :=
    if named [lit "a"] (self elem) then Some (self elem)
    else find_where (fun e => named [lit "a"] e && has_attr (lit "href") e)
                    (self elem) in
  let summary :=
    match or_else (find_next [lit "p"] elem) (find [lit "p"] (self elem)) with
    | Some summary_elem => clean_text (get_text summary_elem)
    | None => []
    end in
  assemble soup page_url (Some (self elem)) title (link_of page_url link_elem)
           summary.

(** [f"{url}/page-{p}" if p > 1 else url] *)
Definition page_url (url : str) (p : nat) : str :=
  if 1 <? p
  then url ++ lit "/page-" ++ lit (NilEmpty.string_of_uint (Nat.to_uint p))
  else url.

(** The loop over the pages; [fetched] holds, page after page, the parsed
    response, or [None] where the request failed or the status was not
    200.  An exception inside a page abandons that page only, and keeps
    what the page had added. *)
Fixpoint crawl_loop (url : str) (p : nat) (fetched : list (option node))
    (seen_titles : list str) (all_news : list extracted_article)
    : list extracted_article :=
  match fetched with
  | [] => all_news
  | None :: rest => crawl_loop url (S p) rest seen_titles all_news
  | Some soup :: rest =>
      let st := fst (scan page_title (page_build soup (page_url url p))
                          (page_candidates soup) seen_titles all_news) in
      crawl_loop url (S p) rest (fst st) (snd st)
  end.

Definition crawl_pages (fetched : list (option node)) (url : str)
    : list extracted_article :=
  crawl_loop url 1 fetched [] [].

End Extraction.

(** *** The merge step of [run_super_scraper], lines 558-624 *)

(** What the strategies found on one site. *)
Record site_result : Type := SiteResult {
  from_static : list extracted_article;
  from_headlines : list extracted_article;
  from_pages : list extracted_article;
  from_js : list extracted_article
}.

Definition site_articles (selenium_available : bool) (r : site_result)
    : list extracted_article :=
  from_static r ++ from_headlines r ++ from_pages r
  ++ (if selenium_available then from_js r else []).

(** [article.get("title", "").lower().strip()] *)
Definition title_key (a : extracted_article) : str := strip (lower (title a)).

(** The deduplicating loop over one site's articles; the state is
    [(seen_articles, final_news)]. *)
Fixpoint merge (arts : list extracted_article) (st : list str * list extracted_article)
    : list str * list extracted_article :=
  match arts with
  | [] => st
  | a :: rest =>
      let (seen_articles, final_news) := st in
      if truthy (title_key a) && negb (mem (title_key a) seen_articles)
      then merge rest (title_key a :: seen_articles, final_news ++ [a])
      else merge rest st
  end.

Definition run_super_scraper (selenium_available : bool)
    (sites : list site_result) : list extracted_article :=
  snd (fold_left (fun st r => merge (site_articles selenium_available r) st)
                 sites ([], [])).

End NewsScraper.

(** ** [scraper/scrapers-file/detail.py] *)
Module Detail.
Import Py Dom.
Local Open Scope string_scope.
Local Open Scope list_scope.
Local Open Scope nat_scope.

(** [clean_text(text)], lines 10-16: [re.sub(r'\s+', ' ', text.strip())] *)
Definition clean_text (text : str) : str :=
  if negb (truthy text) then [] else collapse_space (strip text).

(** *** Tables *)

(** A [dict] keeps its keys in insertion order; assigning to a key that is
    present replaces the value in place. *)
Definition dict : Type := list (str * str).

Fixpoint dict_set (k v : str) (d : dict) : dict :=
  match d with
  | [] => [(k, v)]
  | (k', v') :: r => if eqb k k' then (k', v) :: r else (k', v') :: dict_set k v r
  end.

Definition dict_get (k : str) (d : dict) : option str := assoc k d.

(** [dict(pairs)] *)
Definition dict_of (pairs : list (str * str)) : dict :=
  fold_left (fun d kv => dict_set (fst kv) (snd kv) d) pairs [].

(** A materialised row: a header-to-cell mapping, or the cell texts. *)
Inductive row : Type :=
| RowDict (d : dict)
| RowList (cells : list str).

Record table_record : Type := TableRecord {
  headers : list str;
  rows : list row;
  caption : str
}.

Definition cell_texts (cells : list node) : list str :=
  map (fun cell => clean_text (get_text cell)) cells.

(** The headers of a table: from the first row of its [thead], or from the
    table's first row when it has a [th] cell or more than two cells. *)
Definition table_headers (table : node) : list str :=
  match find [lit "thead"] table with
  | Some thead =>
      match find [lit "tr"] thead with
      | Some header_row => cell_texts (find_all [lit "th"; lit "td"] header_row)
      | None => []
      end
  | None =>
      match find [lit "tr"] table with
      | Some first_row =>
          let cells := find_all [lit "th"; lit "td"] first_row in
          if existsb (fun cell => eqb (name cell) (lit "th")) cells
             || (2 <? length cells)
          then cell_texts cells
          else []
      | None => []
      end
  end.

(** The body of the loop over [rows_source[start_idx:]]: a row without
    cells is passed over ([continue]). *)
Definition table_row (headers : list str) (r : node) : list row :=
  let cells := find_all [lit "td"; lit "th"] r in
  match cells with
  | [] => []
  | _ :: _ =>
      let row_data := cell_texts cells in
      if match headers with [] => false | _ :: _ => true end
         && (length row_data =? length headers)
      then [RowDict (dict_of (combine headers row_data))]
      else [RowList row_data]
  end.

(** [rows_source[start_idx:]]: the rows of the [tbody] if there is one,
    else of the table, without the first one when it gave the headers. *)
Definition body_rows (table : node) (headers : list str) : list node :=
  let rows_source :=
    match find [lit "tbody"] table with
    | Some tbody => find_all [lit "tr"] tbody
    | None => find_all [lit "tr"] table
    end in
  let start_idx :=
    match find [lit "thead"] table, headers with
    | None, _ :: _ => 1
    | _, _ => 0
    end in
  skipn start_idx rows_source.

Definition table_data (table : node) : table_record :=
  let caption :=
    match find [lit "caption"] table with
    | Some c => clean_text (get_text c)
    | None => []
    end in
  let headers := table_headers table in
  TableRecord headers
              (flat_map (table_row headers) (body_rows table headers))
              caption.

Definition has_data (t : table_record) : bool :=
  match rows t, headers t with
  | [], [] => false
  | _, _ => true
  end.

(** [extract_structured_tables(soup)], lines 55-117 *)
Definition extract_structured_tables (soup : node) : list table_record :=
  filter has_data (map table_data (find_all [lit "table"] soup)).

(** *** Sections *)

Record section : Type := Section_ {
  heading : str;
  level : N;
  content : list str
}.

Definition heading_tags : list str := lits [ "h1"; "h2"; "h3"; "h4"; "h5"; "h6" ].
Definition block_tags : list str := lits [ "p"; "div" ].
Definition boilerplate : list str :=
  lits [ "cookie"; "privacy"; "terms"; "copyright"; "menu"; "navigation" ].

(** [int(element.name[1])] for a heading tag. *)
Definition heading_level (tag : str) : N :=
  match tag with
  | _ :: d :: _ => (d - 48)%N
  | _ => 0%N
  end.

Definition has_content (current_section : option section) : bool :=
  match current_section with
  | Some s => match content s with [] => false | _ :: _ => true end
  | None => false
  end.

(** The text of a block that is added to the open section. *)
Definition meaningful (text : str) : bool :=
  truthy text && (20 <? length text)
  && negb (contains_any boilerplate (lower text)).

(** One iteration of the loop; the state is [(sections, current_section)]. *)
Definition section_step (st : list section * option section) (element : node)
    : list section * option section :=
  let (sections, current_section) := st in
  if named heading_tags element then
    let sections :=
      match current_section with
      | Some s => if has_content current_section then sections ++ [s] else sections
      | None => sections
      end in
    (sections,
     Some (Section_ (clean_text (get_text element))
                    (heading_level (name element)) []))
  else
    match current_section with
    | Some s =>
        if named block_tags element then
          let text := clean_text (get_text element) in
          if meaningful text
          then (sections, Some (Section_ (heading s) (level s) (content s ++ [text])))
          else st
        else st
    | None => st
    end.

Definition finish_sections (st : list section * option section) : list section :=
  let (sections, current_section) := st in
  match current_section with
  | Some s => if has_content current_section then sections ++ [s] else sections
  | None => sections
  end.

Definition build_sections (elements : list node) : list section :=
  finish_sections (fold_left section_step elements ([], None)).

(** [extract_content_sections(soup)], lines 162-192 *)
Definition extract_content_sections (soup : node) : list section :=
  build_sections (find_all (heading_tags ++ block_tags) soup).

(** *** Links *)

Record link_record : Type := LinkRecord {
  text : str;
  url : str;
  type : str
}.

Definition skip_patterns : list str :=
  lits [ "#"; "javascript:"; "mailto:"; "tel:";
         "/login"; "/register"; "/signup"; "/logout";
         "facebook.com"; "twitter.com"; "linkedin.com";
         "instagram.com"; "youtube.com" ].

(** [['#', '...', '»', '«', '←', '→']] *)
Definition symbol_texts : list str :=
  [ lit "#"; lit "..."; [187%N]; [171%N]; [8592%N]; [8594%N] ].

Section Links.

(** [urllib.parse.urljoin], and the [netloc] of [urllib.parse.urlparse]. *)
Variable urljoin : str -> str -> str.
Variable netloc : str -> str.

(** The anchors the loop does not pass over before resolving them. *)
Definition link_kept (a : node) : bool :=
  let href := get (lit "href") a in
  let text := clean_text (get_text a) in
  if negb (truthy href) || existsb (fun pattern => contains pattern (lower href))
                                   skip_patterns
  then false
  else if (length text <? 2) || mem text symbol_texts then false
  else true.

Definition link_type (base_url full_url : str) : str :=
  if negb (eqb (netloc full_url) (netloc base_url))
  then lit "external" else lit "internal".

(** The loop over the anchors; the state is [(seen_urls, meaningful_links)]. *)
Fixpoint link_loop (base_url : str) (anchors : list node)
    (seen_urls : list str) (meaningful_links : list link_record)
    : list link_record :=
  match anchors with
  | [] => meaningful_links
  | a :: rest =>
      if link_kept a then
        let full_url := urljoin base_url (get (lit "href") a) in
        if mem full_url seen_urls
        then link_loop base_url rest seen_urls meaningful_links
        else link_loop base_url rest (full_url :: seen_urls)
               (meaningful_links
                ++ [LinkRecord (clean_text (get_text a)) full_url
                               (link_type base_url full_url)])
      else link_loop base_url rest seen_urls meaningful_links
  end.

(** [extract_meaningful_links(soup, base_url)], lines 120-159 *)
Definition extract_meaningful_links (soup : node) (base_url : str)
    : list link_record :=
  link_loop base_url
    (find_all_where (fun e => named [lit "a"] e && has_attr (lit "href") e) soup)
    [] [].

End Links.

End Detail.

(** ** Vocabulary of the statements *)
Section Vocabulary.
Import Py Dom.

(** A string without white space, and a word: a non-empty one. *)
Definition nospace (s : str) : Prop := forallb (fun c => negb (isspace c)) s = true.
Definition word (w : str) : Prop := w <> [] /\ nospace w.

(** Replacing one character by another is a character map. *)
Definition subst_chr (a b c : N) : N := if (a =? c)%N then b else c.

(** What [NewsScraper.clean_text] does to one word. *)
Definition fix_word (w : str) : str :=
  replace [8217%N] [39%N] (replace [226; 8218; 185]%N [8377%N] w).

(** A four-character token matching [20[2-3][0-9]]. *)
Definition year_token (y : str) : Prop :=
  exists c d : N, y = [50; 48; c; d]%N /\ (c = 50 \/ c = 51)%N /\ (48 <= d <= 57)%N.

(** A section with something in it. *)
Definition filled (s : Detail.section) : Prop := Detail.content s <> [].

(** An element that leaves the state of the section loop as it is: not a
    heading, and not a block whose text qualifies. *)
Definition inert (e : node) : Prop :=
  named Detail.heading_tags e = false
  /\ (named Detail.block_tags e = false
      \/ Detail.meaningful (Detail.clean_text (get_text e)) = false).

Definition starts_with_heading (es : list node) : Prop :=
  match es with
  | [] => True
  | e :: _ => named Detail.heading_tags e = true
  end.

(** The keys of [dict(pairs)]: the first occurrences, in order. *)
Definition first_occurrences (ks : list str) : list str :=
  fold_left (fun acc k => if mem k acc then acc else acc ++ [k]) ks [].

(** The row the specification describes for given cell texts: a mapping
    whenever the counts agree, the cell texts otherwise. *)
Definition row_as_specified (headers row_data : list str) : Detail.row :=
  if length row_data =? length headers
  then Detail.RowDict (Detail.dict_of (combine headers row_data))
  else Detail.RowList row_data.

(** The anchors the link loop runs over, and the record it builds. *)
Definition anchors (soup : node) : list node :=
  find_all_where (fun e => named [lit "a"] e && has_attr (lit "href") e) soup.

Definition link_of_anchor (urljoin : str -> str -> str) (netloc : str -> str)
    (base_url : str) (a : node) : Detail.link_record :=
  Detail.LinkRecord
    (Detail.clean_text (get_text a))
    (urljoin base_url (get (lit "href") a))
    (Detail.link_type netloc base_url (urljoin base_url (get (lit "href") a))).

(** The key of a strategy's [seen_titles] set. *)
Definition key (a : NewsScraper.extracted_article) : str :=
  lower (NewsScraper.title a).

(** A record was built from the first candidate, in the order of the
    loop, whose title has its lower-cased form. *)
Definition first_with_key (cand : Type) (title_of : cand -> option str)
    (build : cand -> str -> option (option NewsScraper.extracted_article))
    (cs : list cand) (a : NewsScraper.extracted_article) : Prop :=
  exists pre c post,
    cs = pre ++ c :: post
    /\ title_of c = Some (NewsScraper.title a)
    /\ build c (NewsScraper.title a) = Some (Some a)
    /\ forall c' t', In c' pre -> title_of c' = Some t' -> lower t' <> key a.

(** A record that passed the validity classifier, with some summary. *)
Definition accepted (a : NewsScraper.extracted_article) : Prop :=
  exists summary,
    NewsScraper.is_valid_article (NewsScraper.title a) summary (NewsScraper.link a)
    = Some true.

(** What every strategy guarantees of a record it builds. *)
Definition well_built (a : NewsScraper.extracted_article) : Prop :=
  length (NewsScraper.summary a) <= 400 /\ accepted a.

Definition cleaned_title (t : str) : Prop :=
  t <> [] /\ exists x, t = NewsScraper.clean_text x.

(** The records of the merge step with a given key. *)
Definition same_key (k : str) (a : NewsScraper.extracted_article) : bool :=
  eqb (NewsScraper.title_key a) k.

(** The key the specification gives the merge step: the title in lower
    case, without white space at its ends; and the records that have a
    given one. *)
Definition normalized_title (a : NewsScraper.extracted_article) : str :=
  strip (lower (NewsScraper.title a)).

Definition titled (k : str) (a : NewsScraper.extracted_article) : bool :=
  eqb (normalized_title a) k.

(** The host of a network location, as [urlparse(...).hostname] reads it
    off the [netloc]: of what follows the last [@], the part inside
    brackets, or else the part before the first colon; in lower case up
    to a [%]; the empty string where there is none. *)
Definition after_last (ch : N) (s : str) : str := rev (fst (Url.cut ch (rev s))).

Definition host (netloc : str) : str :=
  let hostinfo := after_last 64 netloc in
  let hostname :=
    match Url.cut 91 hostinfo with
    | (_, Some bracketed) => fst (Url.cut 93 bracketed)
    | (_, None) => fst (Url.cut 58 hostinfo)
    end in
  match Url.cut 37 hostname with
  | (name, Some zone) => lower name ++ 37%N :: zone
  | (name, None) => lower name
  end.

End Vocabulary.

(** ** Sample pages *)
Module Samples.
Import Py Dom.
Local Open Scope string_scope.

Definition el (tag : string) (children : list node) : node :=
  Elem (lit tag) [] children.
Definition txt (s : string) : node := Text (lit s).
Definition anchor (href text : string) : node :=
  Elem (lit "a") [(lit "href", lit href)] [txt text].
Definition page (children : list node) : node :=
  Elem (lit "[document]") [] children.

(** [urljoin] on a destination that is absolute already. *)
Definition urljoin_absolute (base href : str) : str := href.

(** A date extractor for pages without any date. *)
Definition no_date (soup : node) (elem : option node) : str := [].

Definition headline : string := "Sensex falls 300 points: banks drag".

(** The same headline twice: first as [h2], then as [h1]. *)
Definition two_headings : node :=
  page [ el "h2" [anchor "https://x.test/first" headline];
         el "h1" [anchor "https://x.test/second" headline] ].

Definition story : node :=
  el "article"
     [ el "h2" [anchor "https://x.test/markets/sensex" headline];
       Elem (lit "p") [(lit "class", lit "lead summary")]
            [txt "The benchmark index fell on Tuesday as banks dragged the market lower."] ].

Definition story_page : node := page [story].

Definition header_row : node := el "tr" [el "th" [txt "A"]; el "th" [txt "B"]].
Definition data_row : node := el "tr" [el "td" [txt "1"]; el "td" [txt "2"]].
Definition empty_row : node := el "tr" [].

(** Header and body in [thead] and [tbody]; in plain rows; and a body
    row without cells. *)
Definition grouped_table : node :=
  el "table" [el "thead" [header_row]; el "tbody" [data_row]].
Definition plain_table : node := el "table" [header_row; data_row].
Definition hollow_table : node :=
  el "table" [el "thead" [header_row]; el "tbody" [empty_row]].

Definition links_page : node :=
  page [ anchor "https://example.com/about" "About the company";
         anchor "javascript:void(0)" "Open the menu";
         anchor "https://other.org/x" "Another site" ].


(** The records two strategies build for the same headline, and what one
    site yields. *)
Definition found_by_static : NewsScraper.extracted_article :=
  NewsScraper.Article (lit headline) (lit "https://x.test/first") [] [] [] (lit "https://x.test/").
Definition found_by_headlines : NewsScraper.extracted_article :=
  NewsScraper.Article (lit headline) (lit "https://x.test/second") [] [] [] (lit "https://x.test/").
Definition one_site : list NewsScraper.site_result :=
  [ NewsScraper.SiteResult [found_by_static] [found_by_headlines] [] [] ].

(** The record of [story], and the record of the first link of
    [links_page]. *)
Definition story_record : NewsScraper.extracted_article :=
  NewsScraper.Article (lit headline) (lit "https://x.test/markets/sensex")
    (lit "The benchmark index fell on Tuesday as banks dragged the market lower.")
    [] (lit "Markets") (lit "https://x.test/").

Definition about_link : Detail.link_record :=
  Detail.LinkRecord (lit "About the company") (lit "https://example.com/about")
             (lit "internal").

(** The header row as the first row of the table, and the body row in a
    [tbody]. *)
Definition first_row_table : node := el "table" [header_row; el "tbody" [data_row]].

(** A header row in a [thead], and no [tbody]. *)
Definition headed_table : node := el "table" [el "thead" [header_row]; data_row].

(** Two links to the host of the base URL [https://example.com/]: one
    names the port, one writes the host in capitals. *)
Definition same_host_page : node :=
  page [ anchor "https://example.com:443/about" "About the company";
         anchor "https://EXAMPLE.com/team" "The team" ].

Definition port_link : Detail.link_record :=
  Detail.LinkRecord (lit "About the company") (lit "https://example.com:443/about")
             (lit "external").

(** The headline in capitals with a space after it, and a site with both
    records. *)
Definition found_in_capitals : NewsScraper.extracted_article :=
  NewsScraper.Article (lit "SENSEX FALLS 300 POINTS: BANKS DRAG ")
    (lit "https://x.test/second") [] [] [] (lit "https://x.test/").
Definition mixed_case_site : list NewsScraper.site_result :=
  [ NewsScraper.SiteResult [found_by_static] [found_in_capitals] [] [] ].

End Samples.

(** ** [scraper/scrapper.py] *)
Module Screener.
Import Py.

(** [clean_text(text)], lines 10-15: the fixes first, the white space
    after them. *)
Definition clean_text (text : str) : str :=
  if negb (truthy text) then [] else
  let text := replace [160%N] [32%N] (replace [226; 8218; 185]%N [8377%N] text) in
  join [32%N] (split text).

End Screener.

(** ** Vocabulary of the further statements *)
Section MoreVocabulary.
Import Py Dom.

(** A record as every strategy leaves it: a cleaned title of at least
    fifteen characters, and a link or a summary of at least twenty. *)
Definition sound_record (a : NewsScraper.extracted_article) : Prop :=
  15 <= length (NewsScraper.title a)
  /\ NewsScraper.clean_text (NewsScraper.title a) = NewsScraper.title a
  /\ (NewsScraper.link a <> [] \/ 20 <= length (NewsScraper.summary a)).

(** The invariant of the merge loop: the seen keys are the keys of the
    merged records, which are distinct and not empty. *)
Definition merge_inv (st : list str * list NewsScraper.extracted_article) : Prop :=
  (forall k, In k (fst st) <-> In k (map NewsScraper.title_key (snd st)))
  /\ NoDup (map NewsScraper.title_key (snd st))
  /\ Forall (fun a => NewsScraper.title_key a <> []) (snd st).

(** The loop state on the elements of a traversal: every section, the open
    one included, comes from a heading of the traversal and holds
    qualifying texts only. *)
Definition section_from (elements : list node) (s : Detail.section) : Prop :=
  (exists e, In e elements /\ named Detail.heading_tags e = true
             /\ Detail.heading s = Detail.clean_text (get_text e)
             /\ Detail.level s = Detail.heading_level (name e))
  /\ Forall (fun text => Detail.meaningful text = true) (Detail.content s).

Definition sections_inv (elements : list node)
    (st : list Detail.section * option Detail.section) : Prop :=
  Forall (section_from elements) (fst st)
  /\ match snd st with
     | Some s => section_from elements s
     | None => True
     end.

Definition option_list (A : Type) (o : option A) : list A :=
  match o with
  | Some x => [x]
  | None => []
  end.

(** The first word of a string that starts with one, and what follows. *)
Fixpoint take_word (s : str) : str :=
  match s with
  | [] => []
  | c :: t => if isspace c then [] else c :: take_word t
  end.

Fixpoint drop_word (s : str) : str :=
  match s with
  | [] => []
  | c :: t => if isspace c then s else drop_word t
  end.

(** The fix of [scrapper.py] on one word. *)
Definition fix_rupee (w : str) : str := replace [226; 8218; 185]%N [8377%N] w.

End MoreVocabulary.

(** ** More of the parsed page: siblings and strings *)
Module Siblings.
Import Py Dom.

(** [isinstance(n, Tag)] *)
Definition is_tag (n : node) : bool :=
  match n with
  | Text _ => false
  | Elem _ _ _ => true
  end.

(** An element together with the nodes that follow it under its parent,
    and the nodes that follow its parent: what [tag.find_next_sibling] and
    [tag.parent.find_next_sibling] see. *)
Record placed : Type := Placed {
  element : node;
  next_siblings : list node;
  parent_next_siblings : list node
}.

(** The elements below [n] in document order; [after_parent] holds the
    nodes that follow [n] under its own parent. *)
Fixpoint place (after_parent : list node) (n : node) : list placed :=
  match n with
  | Text _ => []
  | Elem _ _ cs =>
      (fix go (l : list node) : list placed :=
         match l with
         | [] => []
         | c :: r =>
             match c with
             | Text _ => go r
             | Elem _ _ _ => Placed c r after_parent :: place r c ++ go r
             end
         end) cs
  end.

(** The elements below the document object, which has no sibling. *)
Definition placed_in (soup : node) : list placed := place [] soup.

(** [tag.find_next_sibling(name)] and [tag.find_next_sibling()] *)
Definition find_next_sibling (names : list str) (p : placed) : option node :=
  List.find (named names) (next_siblings p).

Definition find_next_sibling_tag (p : placed) : option node :=
  List.find is_tag (next_siblings p).

(** [tag.parent.find_next_sibling()] *)
Definition parent_find_next_sibling (p : placed) : option node :=
  List.find is_tag (parent_next_siblings p).

(** The text nodes below a node, in document order. *)
Fixpoint strings (n : node) : list str :=
  match n with
  | Text s => [s]
  | Elem _ _ cs => flat_map strings cs
  end.

(** [tag.get_text(sep, strip=True)]: the stripped text nodes that are not
    empty, joined by [sep]. *)
Definition get_text_strip (sep : str) (n : node) : str :=
  join sep (filter truthy (map strip (strings n))).

(** [tag.string]: the text of a tag whose only child is a text node, or
    whose only child is a tag that has one. *)
Fixpoint tag_string (n : node) : option str :=
  match n with
  | Text s => Some s
  | Elem _ _ [c] => tag_string c
  | Elem _ _ _ => None
  end.

End Siblings.

(** ** [scraper/news_scraper.py]: the dates *)
Module NewsDates.
Import Py Dom NewsScraper Siblings.
Local Open Scope string_scope.
Local Open Scope list_scope.
Local Open Scope nat_scope.

(** The four patterns of [date_patterns], in the order of the list:
    [\d{1,2}\s+(Jan|...|Dec)[a-z]*\s+\d{4}], [\d{1,2}/\d{1,2}/\d{4}],
    [\d{4}-\d{2}-\d{2}], and the first one followed by
    [,\s+\d{1,2}:\d{2}]. *)
Inductive date_pattern : Type :=
| DayMonthYear
| DaySlashMonthSlashYear
| YearMonthDay
| DayMonthYearTime.

Definition date_patterns : list date_pattern :=
  [ DayMonthYear; DaySlashMonthSlashYear; YearMonthDay; DayMonthYearTime ].

Definition date_attributes : list str :=
  lits [ "data-date"; "data-published"; "data-time"; "pubdate" ].

Section Dates.

(** Collaborators from the [re] module: the class [\d] of a [str]
    pattern, and [re.search(pattern, text, re.IGNORECASE)] for the four
    date patterns, giving [match.group(0)]. *)
Variable decimal : N -> bool.
Variable search : date_pattern -> str -> option str.

(** [re.sub(p + '$', '', s)] for a pattern [p] whose matches have
    [width] characters: [$] matches at the end of the string and before a
    line feed that ends it, and the leftmost match is the one replaced. *)
Definition sub_at_end (width : nat) (p : str -> bool) (s : str) : str :=
  let k := length s in
  if (width + 1 <=? k) && eqb (skipn (k - 1) s) [10%N]
     && p (firstn width (skipn (k - (width + 1)) s))
  then firstn (k - (width + 1)) s ++ [10%N]
  else if (width <=? k) && p (skipn (k - width) s)
  then firstn (k - width) s
  else s.

(** [[+\-]\d{2}:\d{2}] on a string of six characters *)
Definition utc_offset (m : str) : bool :=
  match m with
  | [a; b; c; d; e; f] =>
      ((a =? 43) || (a =? 45))%N && decimal b && decimal c && (d =? 58)%N
      && decimal e && decimal f
  | _ => false
  end.

(** [clean_date(date_str)], lines 183-192 *)
Definition clean_date (date_str : str) : str :=
  if negb (truthy date_str) then [] else
  let date_str := sub_at_end 6 utc_offset date_str in
  let date_str := sub_at_end 1 (fun m => eqb m [90%N]) date_str in
  strip date_str.

Notation "'return_if_valid' d ';;' k" :=
  (if truthy d && validate_date d then clean_date d else k)
  (at level 10, d at level 9, k at level 200, only parsing).

(** [for attr in [...]: date_str = article_elem.get(attr, ""); ...] *)
Fixpoint attribute_dates (article_elem : node) (attrs : list str) (k : str) : str :=
  match attrs with
  | [] => k
  | attr :: rest =>
      return_if_valid (get attr article_elem) ;;
      attribute_dates article_elem rest k
  end.

(** [for pattern in date_patterns: match = re.search(...); ...] *)
Fixpoint text_dates (text : str) (patterns : list date_pattern) (k : str) : str :=
  match patterns with
  | [] => k
  | pattern :: rest =>
      match search pattern text with
      | Some date_str =>
          if validate_date date_str then clean_date date_str
          else text_dates text rest k
      | None => text_dates text rest k
      end
  end.

(** The part of [extract_date] that reads the page metadata. *)
Definition meta_date (soup : node) : str :=
  let meta_date :=
    or_else
      (find_where (fun e => named [lit "meta"] e
                            && attr_is (lit "property") (lit "article:published_time") e)
                  soup)
      (or_else
         (find_where (fun e => named [lit "meta"] e
                               && attr_is (lit "name") (lit "publish-date") e) soup)
         (or_else
            (find_where (fun e => named [lit "meta"] e
                                  && attr_is (lit "name") (lit "date") e) soup)
            (find_where (fun e => named [lit "meta"] e
                                  && attr_is (lit "name") (lit "publishdate") e) soup))) in
  match meta_date with
  | Some m => return_if_valid (get (lit "content") m) ;; []
  | None => []
  end.

(** [extract_date(soup, article_elem)], lines 118-161 *)
Definition extract_date (soup : node) (article_elem : option node) : str :=
  match article_elem with
  | Some article_elem =>
      let in_attributes :=
        attribute_dates article_elem date_attributes
          (text_dates (get_text article_elem) date_patterns (meta_date soup)) in
      match find [lit "time"] article_elem with
      | Some time_tag =>
          let date_str :=
            if truthy (get (lit "datetime") time_tag)
            then get (lit "datetime") time_tag
            else get_text_strip [] time_tag in
          return_if_valid date_str ;; in_attributes
      | None => in_attributes
      end
  | None => meta_date soup
  end.

End Dates.
End NewsDates.

(** ** [scraper/scrapers-file/detail.py]: the page record *)
Module DetailPage.
Import Py Dom Detail Siblings.
Local Open Scope string_scope.
Local Open Scope list_scope.
Local Open Scope nat_scope.

(** *** Key-value pairs *)

Definition label_tags : list str := lits [ "dt"; "label"; "strong"; "b" ].

(** Truthiness of a value that may be [None]. *)
Definition truthy_value (value : option str) : bool :=
  match value with
  | Some v => truthy v
  | None => false
  end.

(** The value associated with a label element: the text of the next [dd]
    sibling; failing that, of the next sibling element when it is not a
    label itself; failing that, of the element after the parent. *)
Definition associated_value (dt : placed) : option str :=
  let value : option str := None in
  let value :=
    match find_next_sibling [lit "dd"] dt with
    | Some dd => Some (clean_text (get_text dd))
    | None => value
    end in
  let value :=
    if negb (truthy_value value) then
      match find_next_sibling_tag dt with
      | Some next_elem =>
          if negb (mem (name next_elem) label_tags)
          then Some (clean_text (get_text next_elem))
          else value
      | None => value
      end
    else value in
  let value :=
    if negb (truthy_value value) then
      match parent_find_next_sibling dt with
      | Some parent_next => Some (clean_text (get_text parent_next))
      | None => value
      end
    else value in
  value.

(** The body of the loop over the label elements. *)
Definition key_value_step (key_values : dict) (dt : placed) : dict :=
  let key := clean_text (get_text (element dt)) in
  if negb (truthy key) || (100 <? length key) then key_values else
  match associated_value dt with
  | Some value =>
      if truthy value && (length value <? 500)
      then dict_set key value key_values
      else key_values
  | None => key_values
  end.

Definition label_elements (soup : node) : list placed :=
  filter (fun p => named label_tags (element p)) (placed_in soup).

(** [extract_key_value_pairs(soup)], lines 19-52 *)
Definition extract_key_value_pairs (soup : node) : dict :=
  fold_left key_value_step (label_elements soup) [].

(** *** The page record *)

(** The headings of one level: the cleaned texts that are not empty. *)
Definition headings_of (soup : node) (tag : str) : list str :=
  filter truthy (map (fun h => clean_text (get_text h)) (find_all [tag] soup)).

(** The [headings] entry: one key for each level that has headings, in the
    order [h1] to [h6]. *)
Definition page_headings (soup : node) : list (str * list str) :=
  flat_map (fun tag =>
              match headings_of soup tag with
              | [] => []
              | _ :: _ => [(tag, headings_of soup tag)]
              end)
           heading_tags.

(** The record [scrape_single_page] returns; the wall-clock stamp
    [scraped_at] is left out. *)
Record page_data : Type := PageData {
  page_url : str;
  title : str;
  meta_description : str;
  headings : list (str * list str);
  key_value_pairs : dict;
  tables : list table_record;
  content_sections : list section;
  links : list link_record
}.

(** A page record, or the record [{"error": ...}] of a failed request or
    of an exception that a tab's [try] caught. *)
Inductive page_result : Type :=
| PageError
| Page (d : page_data).

(** A [dict] with values of any type. *)
Fixpoint set_item (V : Type) (k : str) (v : V) (d : list (str * V))
    : list (str * V) :=
  match d with
  | [] => [(k, v)]
  | (k', v') :: r => if eqb k k' then (k', v) :: r else (k', v') :: set_item k v r
  end.

(** [str.__lt__]: the order of the code points, the shorter of two
    strings first when it is a prefix of the other. *)
Fixpoint compare (a b : str) : comparison :=
  match a, b with
  | [], [] => Eq
  | [], _ :: _ => Lt
  | _ :: _, [] => Gt
  | x :: a', y :: b' =>
      match (x ?= y)%N with
      | Eq => compare a' b'
      | c => c
      end
  end.

(** [x < y] on pairs of strings *)
Definition item_ltb (x y : str * str) : bool :=
  match compare (fst x) (fst y) with
  | Lt => true
  | Gt => false
  | Eq => match compare (snd x) (snd y) with Lt => true | _ => false end
  end.

(** [sorted(items)] *)
Fixpoint insert (x : str * str) (l : list (str * str)) : list (str * str) :=
  match l with
  | [] => [x]
  | y :: r => if item_ltb y x then y :: insert x r else x :: y :: r
  end.

Definition sorted (items : list (str * str)) : list (str * str) :=
  fold_right insert [] items.

Section Page.

(** Collaborators from outside: [urllib.parse.urljoin], the [netloc] and
    the [path] of [urllib.parse.urlparse], and the request for a page
    with its parsing, [None] where it raises. *)
Variable urljoin : str -> str -> str.
Variable netloc : str -> str.
Variable url_path : str -> str.
Variable fetch : str -> option node.

(** The record built from a parsed page. *)
Definition page_of (soup : node) (url : str) : page_data :=
  let title :=
    match find [lit "title"] soup with
    | Some t =>
        match tag_string t with
        | Some s => clean_text s
        | None => []
        end
    | None => []
    end in
  let meta_description :=
    match find_where (fun e => named [lit "meta"] e
                               && attr_is (lit "name") (lit "description") e) soup with
    | Some meta_desc =>
        if truthy (get (lit "content") meta_desc)
        then clean_text (get (lit "content") meta_desc)
        else []
    | None => []
    end in
  PageData url title meta_description
           (page_headings soup)
           (extract_key_value_pairs soup)
           (extract_structured_tables soup)
           (extract_content_sections soup)
           (extract_meaningful_links urljoin netloc soup url).

(** [scrape_single_page(url)], lines 195-246 *)
Definition scrape_single_page (url : str) : page_result :=
  match fetch url with
  | None => PageError
  | Some soup => Page (page_of soup url)
  end.

End Page.

(** *** All tabs *)

(** [path.split("/")[2]] on the path of the base URL, and what the
    [except] branch computes when there is no such segment. *)
Definition slug_of_path (path : str) : str :=
  match nth_error (split_chr 47 path) 2 with
  | Some company_slug => company_slug
  | None => strip_chr 95 (replace (lit "/") (lit "_") path)
  end.

Definition company_slug (url_path : str -> str) (base_url : str) : str :=
  slug_of_path (url_path base_url).

(** [soup.select(".nav.nav-tabs a")] *)
Definition is_nav_tabs (n : node) : bool :=
  mem (lit "nav") (class_tokens n) && mem (lit "nav-tabs") (class_tokens n).

Definition nav_tabs (soup : node) : list node :=
  map self
      (filter (fun l => eqb (name (self l)) (lit "a")
                        && existsb is_nav_tabs (ancestors l))
              (located_in soup)).

(** The body of the loop that drops the repeated URLs; the state is
    [(seen_urls, unique_tabs)]. *)
Definition unique_step (st : list str * dict) (item : str * str)
    : list str * dict :=
  let (seen_urls, unique_tabs) := st in
  let (name, url) := item in
  if mem url seen_urls then st
  else (url :: seen_urls, dict_set name url unique_tabs).

Record all_data : Type := AllData {
  base_url_of : str;
  company : str;
  tabs : list (str * page_result)
}.

(** What a call of [scrape_all_tabs] comes to: the record
    [{"error": ...}] of a failed first request, an exception that leaves
    the function, or the record of the tabs. *)
Inductive all_result : Type :=
| AllError
| AllRaises
| All (d : all_data).

Section Tabs.

(** [urllib.parse.urljoin] and the [path] of [urllib.parse.urlparse],
    [None] where they raise [ValueError] on a malformed URL; and the call
    of [scrape_single_page] in the last loop, [None] where it raises: its
    link classifier resolves every destination outside any [try]. *)
Variable urljoin : str -> str -> option str.
Variable url_path : str -> option str.
Variable scrape_page : str -> option page_result.

(** The body of the loop over the tab anchors, lines 282-287; the state is
    [tab_links], [None] once [urljoin] has raised. *)
Definition tab_step (base_url : str) (tab_links : option dict) (a : node)
    : option dict :=
  match tab_links with
  | None => None
  | Some tab_links =>
      let tab_name := clean_text (get_text a) in
      if negb (truthy tab_name) then Some tab_links
      else
        match urljoin base_url (get (lit "href") a) with
        | Some tab_url => Some (dict_set tab_name tab_url tab_links)
        | None => None
        end
  end.

(** The tabs to scrape, by name, lines 280-299. *)
Definition tab_links (soup : node) (base_url : str) : option dict :=
  match fold_left (tab_step base_url) (nav_tabs soup) (Some []) with
  | None => None
  | Some tab_links =>
      let tab_links := dict_set (lit "IPO Detail") base_url tab_links in
      let unique_tabs := snd (fold_left unique_step tab_links ([], [])) in
      Some (dict_of (sorted unique_tabs))
  end.

(** What the [try] of the last loop stores for a tab, lines 309-321: the
    record of [scrape_single_page], or the error record of the [except]
    branch. *)
Definition tab_data (tab_url : str) : page_result :=
  match scrape_page tab_url with
  | Some tab_data => tab_data
  | None => PageError
  end.

(** [scrape_all_tabs(base_url)], lines 251-323; [base_page] is the answer
    to the first request.  The bare [except] of the slug catches what
    [urlparse] raises and calls it again. *)
Definition scrape_all_tabs (base_page : option node) (base_url : str)
    : all_result :=
  match base_page with
  | None => AllError
  | Some soup =>
      match url_path base_url with
      | None => AllRaises
      | Some path =>
          match tab_links soup base_url with
          | None => AllRaises
          | Some tab_links =>
              All (AllData base_url (slug_of_path path)
                     (fold_left (fun tabs item =>
                                   set_item (fst item) (tab_data (snd item)) tabs)
                                tab_links []))
          end
      end
  end.

End Tabs.
End DetailPage.

(** ** [scraper/scrapers-file/news_scraper.py]: the feeds *)
Module Rss.
Import Py Dom Detail Siblings.
Local Open Scope string_scope.
Local Open Scope list_scope.
Local Open Scope nat_scope.

(** [l[:m]] *)
Definition slice_to (A : Type) (l : list A) (m : BinNums.Z) : list A :=
  if BinInt.Z.leb BinNums.Z0 m then firstn (BinInt.Z.to_nat m) l
  else firstn (length l - BinInt.Z.to_nat (BinInt.Z.opp m)) l.

Section Feed.

(** The request for a document with its parsing, [None] where it raises. *)
Variable fetch : str -> option node.

(** [scrape_article(link, source, country)], lines 111-148; the article is
    a [dict], and the wall-clock stamp [scraped_at] is left out. *)
Definition scrape_article (link source country : str) : option dict :=
  match fetch link with
  | None => None
  | Some soup =>
      let title :=
        match find [lit "title"] soup with
        | Some title_tag => get_text_strip [] title_tag
        | None => lit "No title"
        end in
      let paragraphs := map (get_text_strip [32%N]) (find_all [lit "p"] soup) in
      let content := join [10; 10]%N paragraphs in
      Some [ (lit "title", title); (lit "link", link); (lit "content", content);
             (lit "source", source); (lit "source_country", country) ]
  end.

(** [elem.text.strip() if elem else default] *)
Definition text_or (default : str) (elem : option node) : str :=
  match elem with
  | Some e => strip (get_text e)
  | None => default
  end.

(** The body of the loop over the items: the articles it appends. *)
Definition item_articles (source_name country : str) (item : node) : list dict :=
  match find [lit "link"] item with
  | None => []
  | Some link_elem =>
      let link := strip (get_text link_elem) in
      if negb (truthy link) then [] else
      let title := text_or (lit "No title") (find [lit "title"] item) in
      let description := text_or [] (find [lit "description"] item) in
      let published_date := text_or [] (find [lit "pubDate"] item) in
      match scrape_article link source_name country with
      | Some article_data =>
          [ dict_set (lit "published_date") published_date
              (dict_set (lit "description") description article_data) ]
      | None =>
          [ [ (lit "title", title); (lit "link", link);
              (lit "description", description);
              (lit "published_date", published_date);
              (lit "content", []); (lit "source", source_name);
              (lit "source_country", country) ] ]
      end
  end.

(** [scrape_rss_feed(source_name, rss_url, country, max_articles)],
    lines 151-239 *)
Definition scrape_rss_feed (source_name rss_url country : str)
    (max_articles : BinNums.Z) : list dict :=
  match fetch rss_url with
  | None => []
  | Some soup =>
      let items := find_all [lit "item"] soup in
      match items with
      | [] => []
      | _ :: _ =>
          flat_map (item_articles source_name country)
                   (slice_to items max_articles)
      end
  end.

(** [SOURCES]: name, feed and country. *)
Definition SOURCES : list (str * (str * str)) :=
  map (fun s => (lit (fst s), (lit (fst (snd s)), lit (snd (snd s)))))
  [ ("Times of India",
     ("https://timesofindia.indiatimes.com/rssfeedstopstories.cms", "India"));
    ("NDTV", ("https://feeds.feedburner.com/ndtvnews-top-stories", "India"));
    ("The Hindu",
     ("https://www.thehindu.com/news/national/feeder/default.rss", "India"));
    ("Mint Politics", ("https://www.livemint.com/rss/politics", "India"));
    ("Mint News", ("https://www.livemint.com/rss/news", "India"));
    ("CNBC Politics",
     ("https://www.cnbctv18.com/commonfeeds/v1/cne/rss/politics.xml", "India"));
    ("CNBC Economics",
     ("https://www.cnbctv18.com/commonfeeds/v1/cne/rss/economy.xml", "India"));
    ("CNBC World",
     ("https://www.cnbctv18.com/commonfeeds/v1/cne/rss/world.xml", "India"));
    ("CNBC Market",
     ("https://www.cnbctv18.com/commonfeeds/v1/cne/rss/market.xml", "India"));
    ("DNA India", ("https://www.dnaindia.com/feeds/india.xml", "India"));
    ("The Star Online", ("https://www.thestar.com.my/rss/News/Nation", "Malaysia"));
    ("The Sun (Malaysia)", ("https://thesun.my/rss/local", "Malaysia"));
    ("Free Malaysia Today",
     ("https://www.freemalaysiatoday.com/category/nation/feed/", "Malaysia"));
    ("The Sydney Morning Herald", ("https://www.smh.com.au/rss/feed.xml", "Australia"));
    ("Independent Australia",
     ("http://feeds.feedburner.com/IndependentAustralia", "Australia"));
    ("The Age", ("https://www.theage.com.au/rss/feed.xml", "Australia"));
    ("The Straits Times",
     ("https://www.straitstimes.com/news/singapore/rss.xml", "Singapore"));
    ("Channel NewsAsia",
     ("https://www.channelnewsasia.com/rssfeeds/8395986", "Singapore"));
    ("Business Times", ("https://www.businesstimes.com.sg/rss/singapore", "Singapore"));
    ("CBC News", ("https://www.cbc.ca/webfeed/rss/rss-world", "Canada"));
    ("Toronto Star",
     ("https://www.thestar.com/search/?f=rss&t=article&c=news/canada*&l=50&s=start_time&sd=desc",
      "Canada"));
    ("Global News (Canada)", ("https://globalnews.ca/feed/", "Canada")) ].

(** [scrape_all_news()], lines 242-270 *)
Definition scrape_all_news : list dict :=
  flat_map (fun source =>
              scrape_rss_feed (fst source) (fst (snd source)) (snd (snd source))
                              (BinNums.Zpos 10%positive))
           SOURCES.

End Feed.
End Rss.

(** ** Vocabulary of the statements on the further code *)
Section PageVocabulary.
Import Py Dom.

(** A pair as [extract_key_value_pairs] stores it: the key is the cleaned
    text of a label element, of 1 to 100 characters; the value is a
    cleaned text of 1 to 499 characters. *)
Definition stored_pair (soup : node) (kv : str * str) : Prop :=
  (exists e, In e (find_all DetailPage.label_tags soup)
             /\ fst kv = Detail.clean_text (get_text e))
  /\ 1 <= length (fst kv) <= 100
  /\ 1 <= length (snd kv) < 500
  /\ Detail.clean_text (snd kv) = snd kv.

(** The link of a feed item: the stripped text of its [link] element,
    when there is one and the text is not empty. *)
Definition item_link (item : node) : option str :=
  match find [lit "link"] item with
  | Some link_elem =>
      if truthy (strip (get_text link_elem))
      then Some (strip (get_text link_elem))
      else None
  | None => None
  end.

(** Neighbours in a list are related. *)
Fixpoint chain (A : Type) (R : A -> A -> Prop) (l : list A) : Prop :=
  match l with
  | a :: (b :: _) as r => R a b /\ chain R r
  | _ => True
  end.

(** Strings in strictly ascending order. *)
Definition ascending (names : list str) : Prop :=
  chain (fun a b => DetailPage.compare a b = Lt) names.

(** A tab as [scrape_all_tabs] lists it: the base page under the name
    [IPO Detail], or a tab anchor with a name and the URL its destination
    resolves to. *)
Definition tab_of (urljoin : str -> str -> option str) (soup : node)
    (base_url : str) (item : str * str) : Prop :=
  item = (lit "IPO Detail", base_url)
  \/ exists a,
       In a (DetailPage.nav_tabs soup)
       /\ fst item = Detail.clean_text (get_text a)
       /\ fst item <> []
       /\ urljoin base_url (get (lit "href") a) = Some (snd item).

(** A tab anchor with a name whose destination cannot be resolved. *)
Definition unresolved_tab (urljoin : str -> str -> option str) (soup : node)
    (base_url : str) (a : node) : Prop :=
  In a (DetailPage.nav_tabs soup)
  /\ Detail.clean_text (get_text a) <> []
  /\ urljoin base_url (get (lit "href") a) = None.

End PageVocabulary.

(** ** More sample pages *)
Module MoreSamples.
Import Py Dom Samples.
Local Open Scope string_scope.

Definition paragraph : string := "A paragraph of qualifying text.".

(** One heading with a paragraph under it. *)
Definition section_page : node :=
  page [ el "h2" [txt "Issue details"]; el "p" [txt paragraph] ].

Definition issue_section : Detail.section :=
  Detail.Section_ (lit "Issue details") 2 [lit paragraph].

(** A second record, and a site on which two strategies found one record
    each. *)
Definition rupee_record : NewsScraper.extracted_article :=
  NewsScraper.Article (lit "Rupee gains 12 paise: dollar weakens")
    (lit "https://x.test/markets/rupee") [] [] (lit "Markets") (lit "https://x.test/").

Definition two_records : list NewsScraper.site_result :=
  [ NewsScraper.SiteResult [story_record] [rupee_record] [] [] ].

(** A feed with one item that has a link and one that has none; only the
    feed can be fetched. *)
Definition feed : node :=
  page [ el "item" [ el "link" [txt " https://n.test/a "]; el "title" [txt "First"];
                     el "description" [txt "About the first"] ];
         el "item" [ el "title" [txt "Second"] ] ].

Definition fetch_feed (url : str) : option node :=
  if eqb url (lit "https://n.test/rss") then Some feed else None.

Definition first_article : Detail.dict :=
  [ (lit "title", lit "First"); (lit "link", lit "https://n.test/a");
    (lit "description", lit "About the first"); (lit "published_date", []);
    (lit "content", []); (lit "source", lit "N"); (lit "source_country", lit "India") ].

(** A base page with three tab anchors: the second has no name, the
    third leads to the base page itself. *)
Definition tabs_page : node :=
  page [ Elem (lit "ul") [(lit "class", lit "nav nav-tabs")]
           [ el "li" [anchor "https://x.test/ipo/acme/reviews" "Reviews"];
             el "li" [anchor "https://x.test/ipo/acme/none" " "];
             el "li" [anchor "https://x.test/ipo/acme/" "Allotment"] ] ].

(** The same with a tab whose destination is not a URL. *)
Definition broken_tabs_page : node :=
  page [ Elem (lit "ul") [(lit "class", lit "nav nav-tabs")]
           [ el "li" [anchor "https://x.test/ipo/acme/reviews" "Reviews"];
             el "li" [anchor "//[a" "Allotment"] ] ].

(** [urljoin] on a destination that is absolute already, or that opens a
    bracket after [//] and never closes it. *)
Definition urljoin_checked (base href : str) : option str :=
  if startswith (lit "//[") href then None else Some (urljoin_absolute base href).

Definition path_of (url : str) : option str := Some (Url.path url).

(** No page can be fetched. *)
Definition no_page (url : str) : option node := None.

Definition scrape_unfetched (url : str) : option DetailPage.page_result :=
  Some (DetailPage.scrape_single_page urljoin_absolute Url.netloc no_page url).

End MoreSamples.

(* ===================================================================== *)
(** * Part II: lemmas *)
(* ===================================================================== *)

(** ** Facts about Python strings *)
Section StringFacts.
Import Py.

Lemma str_eqb_eq (a b : str) : eqb a b = true <-> a = b.
Proof.
  revert b; induction a as [|x a IH]; intros [|y b]; simpl; split; intros H;
    try reflexivity; try discriminate.
  - apply andb_true_iff in H as [H1 H2]. apply N.eqb_eq in H1.
    apply IH in H2. now subst.
  - injection H as -> ->. rewrite N.eqb_refl. now apply IH.
Qed.

Lemma str_eqb_refl (a : str) : eqb a a = true.
Proof. now apply str_eqb_eq. Qed.

Lemma str_eqb_neq (a b : str) : eqb a b = false <-> a <> b.
Proof.
  split; intros H.
  - intros E. apply str_eqb_eq in E. congruence.
  - destruct (eqb a b) eqn:E; [apply str_eqb_eq in E; contradiction | reflexivity].
Qed.

Lemma mem_In (x : str) (l : list str) : mem x l = true <-> In x l.
Proof.
  unfold mem. rewrite existsb_exists. split.
  - intros [y [Hy E]]. apply str_eqb_eq in E. now subst.
  - intros H. exists x. split; [assumption | apply str_eqb_refl].
Qed.

Lemma mem_not_In (x : str) (l : list str) : mem x l = false <-> ~ In x l.
Proof.
  rewrite <- mem_In. destruct (mem x l); split; intros; congruence.
Qed.


Lemma nospace_cons c s : nospace (c :: s) <-> isspace c = false /\ nospace s.
Proof.
  unfold nospace; simpl. rewrite andb_true_iff, negb_true_iff. tauto.
Qed.

Lemma split_words (s : str) : Forall word (split s).
Proof.
  induction s as [|c t IH]; simpl; [constructor|].
  destruct (isspace c) eqn:Hc; [assumption|].
  assert (Hw : forall w, nospace w -> word (c :: w)).
  { intros w Hw. split; [discriminate | now apply nospace_cons]. }
  destruct (head_nonspace t).
  - destruct (split t) as [|w r]; simpl.
    + constructor; [now apply Hw | constructor].
    + inversion IH as [|? ? [_ H1] H2]; subst.
      constructor; [now apply Hw | assumption].
  - constructor; [now apply Hw | assumption].
Qed.

Lemma split_app_word (w tl : str) :
  word w -> head_nonspace tl = false -> split (w ++ tl) = w :: split tl.
Proof.
  intros [Hne Hw] Htl. induction w as [|c w IH]; [contradiction|].
  apply nospace_cons in Hw as [Hc Hw]. simpl. rewrite Hc.
  destruct w as [|d w].
  - simpl. now rewrite Htl.
  - assert (Hd : head_nonspace ((d :: w) ++ tl) = true).
    { apply nospace_cons in Hw as [Hd _]. simpl. now rewrite Hd. }
    rewrite Hd, IH; [reflexivity | discriminate | assumption].
Qed.

Lemma split_join (ws : list str) :
  Forall word ws -> split (join [32%N] ws) = ws.
Proof.
  induction 1 as [|w r Hw Hr IH]; [reflexivity|].
  simpl. destruct r as [|w' r].
  - rewrite <- (app_nil_r w) at 1. now rewrite split_app_word.
  - rewrite split_app_word; [|assumption|reflexivity].
    f_equal. change (split (32%N :: join [32%N] (w' :: r)))
      with (split (join [32%N] (w' :: r))). exact IH.
Qed.

Lemma join_cons_ne (sep w : str) (r : list str) : w <> [] -> join sep (w :: r) <> [].
Proof.
  intros Hw. simpl. destruct r; [assumption|].
  destruct w; [contradiction | discriminate].
Qed.

Lemma rstrip_nospace (s : str) : nospace s -> rstrip_by isspace s = s.
Proof.
  induction s as [|c t IH]; [reflexivity|].
  intros H. apply nospace_cons in H as [Hc Ht]. simpl.
  rewrite (IH Ht), Hc. now destruct t.
Qed.

Lemma rstrip_app (p : N -> bool) (a b : str) :
  rstrip_by p b <> [] -> rstrip_by p (a ++ b) = a ++ rstrip_by p b.
Proof.
  intros Hb. induction a as [|c a IH]; [reflexivity|].
  simpl. rewrite IH. destruct (a ++ rstrip_by p b) eqn:E; [|reflexivity].
  apply app_eq_nil in E as [_ E]. contradiction.
Qed.

Lemma rstrip_join (ws : list str) :
  Forall word ws -> rstrip_by isspace (join [32%N] ws) = join [32%N] ws.
Proof.
  induction 1 as [|w r [Hne Hw] Hr IH]; [reflexivity|].
  destruct r as [|w' r]; [now apply rstrip_nospace|].
  change (join [32%N] (w :: w' :: r)) with (w ++ 32%N :: join [32%N] (w' :: r)).
  assert (Hj : join [32%N] (w' :: r) <> []).
  { apply join_cons_ne. inversion Hr as [|? ? [H _] _]. exact H. }
  change (32%N :: join [32%N] (w' :: r)) with ([32%N] ++ join [32%N] (w' :: r)).
  rewrite app_assoc, rstrip_app; rewrite IH; [reflexivity | exact Hj].
Qed.

Lemma lstrip_join (ws : list str) :
  Forall word ws -> lstrip_by isspace (join [32%N] ws) = join [32%N] ws.
Proof.
  intros H. destruct H as [|w r [Hne Hw] Hr]; [reflexivity|].
  destruct w as [|c w]; [contradiction|].
  apply nospace_cons in Hw as [Hc _].
  simpl. destruct r; simpl; now rewrite Hc.
Qed.

Lemma strip_join (ws : list str) :
  Forall word ws -> strip (join [32%N] ws) = join [32%N] ws.
Proof.
  intros H. unfold strip, strip_by. now rewrite lstrip_join, rstrip_join.
Qed.

End StringFacts.

Section ReplaceFacts.
Import Py.

Lemma startswith_length (p s : str) : startswith p s = true -> length p <= length s.
Proof.
  revert s; induction p as [|a p IH]; intros [|b s]; simpl; intros H;
    try lia; try discriminate.
  apply andb_true_iff in H as [_ H]. apply IH in H. lia.
Qed.

(** A character outside [p] stops a match of [p]. *)
Lemma startswith_app_stop (c : N) (p u v : str) :
  ~ In c p -> startswith p (u ++ c :: v) = startswith p u.
Proof.
  revert u; induction p as [|a p IH]; intros u Hc; [now destruct u|].
  destruct u as [|b u]; simpl.
  - destruct (N.eqb_spec a c) as [->|]; [|reflexivity].
    exfalso. apply Hc. now left.
  - rewrite IH; [reflexivity|]. intros H. apply Hc. now right.
Qed.

Lemma startswith_app_l (p u v : str) :
  startswith p u = true -> startswith p (u ++ v) = true.
Proof.
  revert u; induction p as [|a p IH]; intros [|b u]; simpl; intros H;
    try reflexivity; try discriminate.
  apply andb_true_iff in H as [H1 H2]. rewrite H1. now apply IH.
Qed.

Section Replace.
Variables old new : str.

(** The text between two words is never part of a match. *)
Lemma replace_from_app_space (k : nat) (w rest : str) :
  old <> [] -> ~ In 32%N old -> k <= length w ->
  replace_from old new k (w ++ 32%N :: rest)
  = replace_from old new k w ++ 32%N :: replace_from old new 0 rest.
Proof.
  intros Hne H32. revert k. induction w as [|c w IH]; intros k Hk.
  - assert (k = 0) as -> by (simpl in Hk; lia).
    cbn [app replace_from].
    pose proof (startswith_app_stop 32 old [] rest H32) as E.
    cbn [app] in E. rewrite E.
    destruct old; [contradiction | reflexivity].
  - destruct k as [|k].
    + cbn [app replace_from].
      change (c :: w ++ 32%N :: rest) with ((c :: w) ++ 32%N :: rest).
      rewrite startswith_app_stop by assumption.
      destruct (startswith old (c :: w)) eqn:E.
      * apply startswith_length in E. simpl in E.
        rewrite IH by lia. now rewrite app_assoc.
      * now rewrite IH by lia.
    + simpl. apply IH. simpl in Hk. lia.
Qed.

Lemma replace_from_forallb (P : N -> bool) (k : nat) (s : str) :
  forallb P new = true -> forallb P s = true ->
  forallb P (replace_from old new k s) = true.
Proof.
  intros Hn. revert k. induction s as [|c s IH]; intros k Hs; [reflexivity|].
  simpl in Hs. apply andb_true_iff in Hs as [Hc Hs].
  destruct k as [|k]; simpl; [|now apply IH].
  destruct (startswith old (c :: s)).
  - rewrite forallb_app, Hn. now apply IH.
  - simpl. rewrite Hc. now apply IH.
Qed.

Lemma replace_from_nonempty (s : str) :
  new <> [] -> s <> [] -> replace_from old new 0 s <> [].
Proof.
  intros Hn Hs. destruct s as [|c s]; [contradiction|]. simpl.
  destruct (startswith old (c :: s)); [|discriminate].
  destruct new; [contradiction | discriminate].
Qed.

(** Without an occurrence nothing is replaced. *)
Lemma replace_from_absent (s : str) :
  contains old s = false -> replace_from old new 0 s = s.
Proof.
  induction s as [|c s IH]; [reflexivity|].
  simpl. intros H. apply orb_false_iff in H as [H1 H2].
  simpl in H1. rewrite H1. now rewrite IH.
Qed.

End Replace.

(** Replacing by one character that does not occur in [old] leaves no
    occurrence of [old]. *)
Section ReplaceByChar.
Variable old : str.
Variable c : N.
Hypothesis old_ne : old <> [].
Hypothesis c_fresh : ~ In c old.

Lemma startswith_fresh (v : str) : startswith old (c :: v) = false.
Proof.
  destruct old as [|a o]; [contradiction|]. simpl.
  destruct (N.eqb_spec a c) as [->|]; [|reflexivity].
  exfalso. apply c_fresh. now left.
Qed.

Lemma startswith_replaced (u s : str) :
  startswith old (u ++ replace_from old [c] 0 s) = true ->
  startswith old (u ++ s) = true.
Proof.
  revert u. induction s as [|b s IH]; intros u; [trivial|].
  cbn [replace_from]. destruct (startswith old (b :: s)).
  - cbn [app]. rewrite startswith_app_stop by assumption.
    apply startswith_app_l.
  - intros H.
    change (u ++ b :: replace_from old [c] 0 s)
      with (u ++ [b] ++ replace_from old [c] 0 s) in H.
    rewrite app_assoc in H. apply IH in H.
    now rewrite <- app_assoc in H.
Qed.

Lemma replace_from_clears (k : nat) (s : str) :
  contains old (replace_from old [c] k s) = false.
Proof.
  revert k. induction s as [|b s IH]; intros k.
  - simpl. destruct old; [contradiction | reflexivity].
  - destruct k as [|k]; [|apply IH].
    cbn [replace_from]. destruct (startswith old (b :: s)) eqn:E.
    + cbn [app contains]. now rewrite startswith_fresh, IH.
    + cbn [contains]. rewrite IH, orb_false_r.
      destruct (startswith old (b :: replace_from old [c] 0 s)) eqn:E'; [|reflexivity].
      apply (startswith_replaced [b]) in E'. simpl in E', E. congruence.
Qed.

End ReplaceByChar.


Lemma replace_chr (a b : N) (s : str) :
  replace [a] [b] s = map (subst_chr a b) s.
Proof.
  unfold replace. induction s as [|c s IH]; [reflexivity|].
  cbn [replace_from startswith length Nat.sub map]. unfold subst_chr at 1.
  destruct (a =? c)%N; simpl; now rewrite IH.
Qed.

Lemma map_subst_absent (a b : N) (s : str) :
  ~ In a s -> map (subst_chr a b) s = s.
Proof.
  induction s as [|c s IH]; [reflexivity|]. intros H. simpl.
  unfold subst_chr at 1. destruct (N.eqb_spec a c) as [->|].
  - exfalso. apply H. now left.
  - rewrite IH; [reflexivity|]. intros H'. apply H. now right.
Qed.

Lemma startswith_map_subst (a b : N) (p s : str) :
  ~ In b p -> startswith p (map (subst_chr a b) s) = true -> startswith p s = true.
Proof.
  revert s. induction p as [|x p IH]; intros s Hb; [reflexivity|].
  destruct s as [|y s]; simpl; [trivial|].
  intros H. apply andb_true_iff in H as [H1 H2]. apply N.eqb_eq in H1.
  rewrite IH; [|intros H; apply Hb; now right | assumption].
  rewrite andb_true_r. apply N.eqb_eq. unfold subst_chr in H1.
  destruct (a =? y)%N; [|assumption].
  exfalso. apply Hb. left. now symmetry.
Qed.

Lemma contains_map_subst (a b : N) (p s : str) :
  ~ In b p -> contains p s = false -> contains p (map (subst_chr a b) s) = false.
Proof.
  intros Hb. induction s as [|y s IH]; intros H.
  - exact H.
  - cbn [map contains] in *. apply orb_false_iff in H as [H1 H2].
    rewrite (IH H2), orb_false_r.
    destruct (startswith p (subst_chr a b y :: map (subst_chr a b) s)) eqn:E;
      [|reflexivity].
    apply (startswith_map_subst a b p (y :: s) Hb) in E. congruence.
Qed.

Lemma replace_join (old new : str) (ws : list str) :
  old <> [] -> ~ In 32%N old ->
  replace old new (join [32%N] ws) = join [32%N] (map (replace old new) ws).
Proof.
  intros Hne H32. unfold replace. destruct old as [|a o] eqn:Eo; [contradiction|].
  rewrite <- Eo in *. clear Eo a o.
  induction ws as [|w r IH]; [reflexivity|].
  destruct r as [|w' r]; [reflexivity|].
  change (join [32%N] (w :: w' :: r)) with (w ++ 32%N :: join [32%N] (w' :: r)).
  rewrite replace_from_app_space by (assumption || lia).
  rewrite IH. reflexivity.
Qed.

End ReplaceFacts.

Section StripFacts.
Import Py.

Lemma rstrip_idem (p : N -> bool) (s : str) :
  rstrip_by p (rstrip_by p s) = rstrip_by p s.
Proof.
  induction s as [|c t IH]; [reflexivity|].
  simpl. destruct (rstrip_by p t) as [|d r] eqn:E.
  - destruct (p c) eqn:Hc; [reflexivity|]. simpl. now rewrite Hc.
  - cbn [rstrip_by]. cbn [rstrip_by] in IH. now rewrite IH.
Qed.

Lemma rstrip_head_nonspace (s : str) :
  head_nonspace (rstrip_by isspace s) = head_nonspace s.
Proof.
  destruct s as [|c t]; [reflexivity|]. simpl.
  destruct (rstrip_by isspace t); [|reflexivity].
  destruct (isspace c) eqn:Hc; simpl; now rewrite ?Hc.
Qed.

Lemma rstrip_head_space (s : str) :
  head_space s = false -> head_space (rstrip_by isspace s) = false.
Proof.
  destruct s as [|c t]; [reflexivity|]. simpl. intros Hc.
  destruct (rstrip_by isspace t); [|exact Hc].
  rewrite Hc. exact Hc.
Qed.

Lemma rstrip_nil_split (s : str) :
  rstrip_by isspace s = [] -> split s = [] /\ head_nonspace s = false.
Proof.
  induction s as [|c t IH]; [now split|].
  simpl. destruct (rstrip_by isspace t); [|discriminate].
  destruct (isspace c); [|discriminate].
  intros _. split; [now apply IH | reflexivity].
Qed.

Lemma split_rstrip (s : str) : split (rstrip_by isspace s) = split s.
Proof.
  induction s as [|c t IH]; [reflexivity|].
  cbn [rstrip_by]. destruct (rstrip_by isspace t) as [|d r] eqn:E.
  - destruct (rstrip_nil_split t E) as [Hs Hh].
    simpl. destruct (isspace c) eqn:Hc; simpl; rewrite ?Hc, ?Hh, ?Hs; reflexivity.
  - pose proof (rstrip_head_nonspace t) as Hh. rewrite E in Hh.
    change (split (c :: d :: r))
      with (if isspace c then split (d :: r)
            else if head_nonspace (d :: r) then push c (split (d :: r))
            else [c] :: split (d :: r)).
    rewrite Hh, IH. reflexivity.
Qed.

Lemma split_lstrip (s : str) : split (lstrip_by isspace s) = split s.
Proof.
  induction s as [|c t IH]; [reflexivity|].
  simpl. destruct (isspace c) eqn:Hc; [exact IH|]. simpl. now rewrite Hc.
Qed.

Lemma split_strip (s : str) : split (strip s) = split s.
Proof. unfold strip, strip_by. now rewrite split_rstrip, split_lstrip. Qed.

Lemma lstrip_head (s : str) : head_space (lstrip_by isspace s) = false.
Proof.
  induction s as [|c t IH]; [reflexivity|].
  simpl. destruct (isspace c) eqn:Hc; [exact IH|]. simpl. exact Hc.
Qed.

Lemma strip_head (s : str) : head_space (strip s) = false.
Proof.
  unfold strip, strip_by. apply rstrip_head_space, lstrip_head.
Qed.

Lemma rstrip_tail (c : N) (t : str) :
  rstrip_by isspace (c :: t) = c :: t -> rstrip_by isspace t = t.
Proof.
  simpl. destruct (rstrip_by isspace t) as [|d r] eqn:E.
  - destruct (isspace c); [discriminate|]. now intros [= <-].
  - now intros [= <-].
Qed.

Lemma split_nil_rstrip (s : str) : split s = [] -> rstrip_by isspace s = [].
Proof.
  induction s as [|c t IH]; [reflexivity|].
  simpl. destruct (isspace c).
  - intros H. now rewrite (IH H).
  - destruct (head_nonspace t); [|discriminate].
    destruct (split t); discriminate.
Qed.

Lemma split_nonempty (s : str) :
  rstrip_by isspace s = s -> s <> [] -> split s <> [].
Proof.
  intros H Hne E. apply split_nil_rstrip in E. congruence.
Qed.

(** On a right-stripped string, collapsing white space is splitting and
    joining, up to one leading space. *)
Lemma collapse_rstripped (s : str) :
  rstrip_by isspace s = s ->
  collapse_space s
  = (if head_space s then [32%N] else []) ++ join [32%N] (split s).
Proof.
  induction s as [|c t IH]; [reflexivity|].
  intros H. pose proof (rstrip_tail H) as Ht.
  specialize (IH Ht). cbn [collapse_space split head_space].
  destruct (isspace c) eqn:Hc.
  - destruct t as [|d t].
    + simpl in H. rewrite Hc in H. discriminate.
    + rewrite IH. cbn [head_space]. destruct (isspace d); reflexivity.
  - rewrite IH. cbn [app]. destruct t as [|d t]; [reflexivity|].
    assert (Hs : split (d :: t) <> []) by (apply split_nonempty; [exact Ht | discriminate]).
    cbn [head_space head_nonspace]. destruct (isspace d) eqn:Hd; cbn [negb].
    + destruct (split (d :: t)) as [|w r]; [contradiction | reflexivity].
    + destruct (split (d :: t)) as [|w r]; [contradiction|].
      cbn [push app]. simpl. now destruct r.
Qed.

Lemma collapse_strip (s : str) :
  collapse_space (strip s) = join [32%N] (split s).
Proof.
  rewrite collapse_rstripped.
  - now rewrite strip_head, split_strip.
  - apply rstrip_idem.
Qed.

End StripFacts.

Section Normalizer.
Import Py.


Lemma nospace_not_In (c : N) (w : str) : isspace c = true -> nospace w -> ~ In c w.
Proof.
  intros Hc Hw Hin. unfold nospace in Hw. rewrite forallb_forall in Hw.
  apply Hw in Hin. rewrite Hc in Hin. discriminate.
Qed.

Lemma replace_word (old new w : str) :
  old <> [] -> word new -> word w -> word (replace old new w).
Proof.
  intros Ho [Hn1 Hn2] [Hw1 Hw2]. unfold replace.
  destruct old as [|a o] eqn:E; [contradiction|]. rewrite <- E. split.
  - now apply replace_from_nonempty.
  - now apply replace_from_forallb.
Qed.

Lemma fix_word_word (w : str) : word w -> word (fix_word w).
Proof.
  intros H. unfold fix_word.
  apply replace_word; [discriminate | now split | ].
  apply replace_word; [discriminate | now split | assumption].
Qed.

Lemma replace_nbsp_word (w : str) : word w -> replace [160%N] [32%N] w = w.
Proof.
  intros [_ H]. rewrite replace_chr. apply map_subst_absent.
  now apply nospace_not_In.
Qed.

Lemma fix_word_idem (w : str) : fix_word (fix_word w) = fix_word w.
Proof.
  unfold fix_word.
  set (u := replace [226; 8218; 185]%N [8377%N] w).
  assert (Hu : contains [226; 8218; 185]%N (replace [8217%N] [39%N] u) = false).
  { rewrite replace_chr. apply contains_map_subst.
    - simpl. intros [H|[H|[H|[]]]]; discriminate.
    - apply replace_from_clears; [discriminate|].
      simpl. intros [H|[H|[H|[]]]]; discriminate. }
  unfold replace at 2. rewrite replace_from_absent by exact Hu.
  unfold replace at 1. apply replace_from_absent.
  change (replace [8217%N] [39%N] u) with (replace_from [8217%N] [39%N] 0 u).
  apply replace_from_clears; [discriminate|].
  simpl. intros [H|[]]; discriminate.
Qed.

(** [NewsScraper.clean_text] word by word. *)
Lemma news_clean_text_words (s : str) :
  NewsScraper.clean_text s = join [32%N] (map fix_word (split s)).
Proof.
  unfold NewsScraper.clean_text. destruct s as [|c s]; [reflexivity|].
  cbn [truthy negb]. pose proof (split_words (c :: s)) as Hw.
  set (ws := split (c :: s)) in *.
  rewrite replace_join by (discriminate || (simpl; intros [H|[H|[H|[]]]]; discriminate)).
  rewrite replace_join by (discriminate || (simpl; intros [H|[]]; discriminate)).
  rewrite replace_join by (discriminate || (simpl; intros [H|[]]; discriminate)).
  assert (Hw1 : Forall word (map (replace [226; 8218; 185]%N [8377%N]) ws)).
  { apply Forall_map. eapply Forall_impl; [|exact Hw].
    intros w H. apply replace_word; [discriminate | now split | assumption]. }
  rewrite (map_ext_Forall _ (fun w => w)
             (Forall_impl _ replace_nbsp_word Hw1)), map_id.
  rewrite map_map. fold fix_word.
  change (fun x => replace [8217%N] [39%N] (replace [226; 8218; 185]%N [8377%N] x))
    with fix_word.
  apply strip_join. apply Forall_map. eapply Forall_impl; [|exact Hw].
  intros w. apply fix_word_word.
Qed.

Lemma news_clean_text_idem (s : str) :
  NewsScraper.clean_text (NewsScraper.clean_text s) = NewsScraper.clean_text s.
Proof.
  rewrite !news_clean_text_words.
  assert (Hw : Forall word (map fix_word (split s))).
  { apply Forall_map. eapply Forall_impl; [|apply split_words].
    intros w. apply fix_word_word. }
  rewrite (split_join Hw), map_map. f_equal.
  apply map_ext. intros w. apply fix_word_idem.
Qed.

(** [Detail.clean_text] is splitting and joining. *)
Lemma detail_clean_text_words (s : str) :
  Detail.clean_text s = join [32%N] (split s).
Proof.
  unfold Detail.clean_text. destruct s as [|c s]; [reflexivity|].
  cbn [truthy negb]. apply collapse_strip.
Qed.

Lemma detail_clean_text_idem (s : str) :
  Detail.clean_text (Detail.clean_text s) = Detail.clean_text s.
Proof.
  rewrite !detail_clean_text_words. now rewrite (split_join (split_words s)).
Qed.

End Normalizer.

Section Classifier.
Import Py NewsScraper.

Lemma lower_chr_not_upper (c : N) : isupper_chr (lower_chr c) = false.
Proof.
  unfold lower_chr. destruct (isupper_chr c) eqn:E; [|exact E].
  unfold isupper_chr in *. apply andb_true_iff in E as [H1 H2].
  apply N.leb_le in H1, H2. apply andb_false_iff. right. apply N.leb_gt. lia.
Qed.

Lemma rstrip_incl (p : N -> bool) (s : str) : incl (rstrip_by p s) s.
Proof.
  induction s as [|c t IH]; [apply incl_refl|].
  simpl. destruct (rstrip_by p t) as [|d r].
  - destruct (p c); [apply incl_nil_l|]. intros x [->|[]]. now left.
  - now apply incl_cons; [left | apply incl_tl].
Qed.

Lemma lstrip_incl (p : N -> bool) (s : str) : incl (lstrip_by p s) s.
Proof.
  induction s as [|c t IH]; [apply incl_refl|].
  simpl. destruct (p c); [now apply incl_tl | apply incl_refl].
Qed.

Lemma strip_incl (s : str) : incl (strip s) s.
Proof.
  unfold strip, strip_by. eapply incl_tran; [apply rstrip_incl | apply lstrip_incl].
Qed.

Lemma existsb_incl (A : Type) (f : A -> bool) (l l' : list A) :
  incl l l' -> existsb f l' = false -> existsb f l = false.
Proof.
  intros Hi H. destruct (existsb f l) eqn:E; [|reflexivity].
  apply existsb_exists in E as [x [Hx Hf]].
  assert (existsb f l' = true) by (apply existsb_exists; exists x; auto).
  congruence.
Qed.

Lemma lower_no_upper (s : str) : existsb isupper_chr (lower s) = false.
Proof.
  induction s as [|c s IH]; [reflexivity|].
  simpl. now rewrite lower_chr_not_upper, IH.
Qed.

(** A lower-cased title is never upper case, and does not start with an
    upper-case letter. *)
Lemma title_lower_not_upper (t : str) : isupper (strip (lower t)) = false.
Proof.
  unfold isupper.
  rewrite (existsb_incl isupper_chr (@strip_incl (lower t)) (lower_no_upper t)).
  reflexivity.
Qed.

Lemma title_lower_head_not_upper (t : str) (c : N) (r : str) :
  strip (lower t) = c :: r -> isupper [c] = false.
Proof.
  intros E. unfold isupper. simpl. rewrite orb_false_r.
  assert (H : existsb isupper_chr (strip (lower t)) = false)
    by exact (existsb_incl isupper_chr (@strip_incl (lower t)) (lower_no_upper t)).
  rewrite E in H. simpl in H. apply orb_false_iff in H as [H _]. now rewrite H.
Qed.

(** The test for a bare company name never fires on the title that
    [is_valid_article] passes to it. *)
Lemma bare_company_name_never (t : str) :
  bare_company_name t (strip (lower t)) <> Some true.
Proof.
  unfold bare_company_name.
  destruct ((length (split t) <=? 2) && negb (existsb isdigit t)); [|discriminate].
  rewrite title_lower_not_upper.
  destruct (strip (lower t)) as [|c r] eqn:E; [discriminate|].
  rewrite (title_lower_head_not_upper t E). discriminate.
Qed.

End Classifier.

Section DateValidation.
Import Py NewsScraper.


Lemma year_here_token (s : str) :
  year_here s = true <-> exists post, s = firstn 4 s ++ post /\ year_token (firstn 4 s).
Proof.
  split.
  - destruct s as [|a [|b [|c [|d post]]]]; try discriminate. simpl.
    intros H. repeat (apply andb_true_iff in H as [H ?]).
    apply N.eqb_eq in H as ->. apply N.eqb_eq in H2 as ->.
    exists post. split; [reflexivity|]. exists c, d. split; [reflexivity|].
    split.
    + apply orb_true_iff in H1. rewrite !N.eqb_eq in H1. exact H1.
    + apply andb_true_iff in H0. rewrite !N.leb_le in H0. exact H0.
  - intros [post [E [c [d [Ey [Hc Hd]]]]]]. rewrite E, Ey. simpl.
    assert (Hc' : ((c =? 50) || (c =? 51))%N = true).
    { apply orb_true_iff. rewrite !N.eqb_eq. exact Hc. }
    rewrite Hc'. simpl. apply andb_true_iff. rewrite !N.leb_le. exact Hd.
Qed.

(** [search_year] returns the leftmost token. *)
Lemma search_year_leftmost (s y : str) :
  search_year s = Some y <->
  exists pre post, s = pre ++ y ++ post /\ year_token y
    /\ forall i, i < length pre -> year_here (skipn i s) = false.
Proof.
  split.
  - revert y. induction s as [|a s IH]; intros y; [discriminate|].
    cbn [search_year]. destruct (year_here (a :: s)) eqn:E.
    + intros [= <-]. apply year_here_token in E as [post [E Hy]].
      exists [], post. split; [exact E|]. split; [exact Hy|].
      simpl. intros i Hi. lia.
    + intros H. apply IH in H as [pre [post [Es [Hy Hl]]]].
      exists (a :: pre), post. split; [now rewrite Es|]. split; [exact Hy|].
      intros [|i] Hi; [exact E|]. simpl. apply Hl. simpl in Hi. lia.
  - intros [pre [post [Es [Hy Hl]]]]. subst s.
    induction pre as [|a pre IH].
    + simpl. destruct Hy as [c [d [-> [Hc Hd]]]]. cbn [app search_year].
      assert (E : year_here ([50; 48; c; d]%N ++ post) = true).
      { apply year_here_token. exists post. split; [reflexivity|].
        exists c, d. auto. }
      cbn [app] in E. now rewrite E.
    + pose proof (Hl 0 ltac:(simpl; lia)) as H0. cbn [skipn app] in H0.
      cbn [app search_year]. rewrite H0.
      apply IH. intros i Hi. apply (Hl (S i)). simpl. lia.
Qed.

Lemma validate_date_iff (s : str) :
  validate_date s = true <->
  contains (lit "00-00") s = false /\ contains (lit "00/00") s = false
  /\ exists y, search_year s = Some y
               /\ (2020 <= int_of_digits y <= 2030)%N.
Proof.
  unfold validate_date. destruct s as [|a s].
  - simpl. split; [discriminate|]. intros [_ [_ [y [H _]]]]. discriminate.
  - cbn [truthy negb].
    destruct (contains (lit "00-00") (a :: s)); cbn [orb].
    + split; [discriminate | intros [H _]; discriminate].
    + destruct (contains (lit "00/00") (a :: s)).
      * split; [discriminate | intros [_ [H _]]; discriminate].
      * destruct (search_year (a :: s)) as [y|].
        -- destruct ((int_of_digits y <? 2020)%N || (2030 <? int_of_digits y)%N) eqn:E.
           ++ split; [discriminate|]. intros [_ [_ [y' [[= <-] Hr]]]].
              apply orb_true_iff in E. rewrite !N.ltb_lt in E. lia.
           ++ split; [|reflexivity]. intros _. repeat split; try reflexivity.
              exists y. split; [reflexivity|].
              apply orb_false_iff in E. rewrite !N.ltb_ge in E. lia.
        -- split; [discriminate|]. intros [_ [_ [y [H _]]]]. discriminate.
Qed.

End DateValidation.

Section Sections.
Import Py Dom Detail.


Lemma has_content_filled (s : section) : has_content (Some s) = true -> filled s.
Proof. unfold filled. simpl. destruct (content s); [discriminate | discriminate]. Qed.

Lemma section_step_filled (st : list section * option section) (e : node) :
  Forall filled (fst st) -> Forall filled (fst (section_step st e)).
Proof.
  destruct st as [secs cur]. cbn [fst]. intros H. unfold section_step.
  destruct (named heading_tags e).
  - destruct cur as [s|]; cbn [fst]; [|exact H].
    destruct (has_content (Some s)) eqn:E; [|exact H].
    apply Forall_app. split; [exact H|].
    constructor; [now apply has_content_filled | constructor].
  - destruct cur as [s|]; [|exact H].
    destruct (named block_tags e); [|exact H].
    destruct (meaningful (clean_text (get_text e))); exact H.
Qed.

Lemma fold_section_step_filled (es : list node) (st : list section * option section) :
  Forall filled (fst st) -> Forall filled (fst (fold_left section_step es st)).
Proof.
  revert st. induction es as [|e es IH]; intros st H; [exact H|].
  simpl. apply IH. now apply section_step_filled.
Qed.

Lemma build_sections_filled (es : list node) : Forall filled (build_sections es).
Proof.
  unfold build_sections.
  pose proof (@fold_section_step_filled es ([], None) (Forall_nil _)) as H.
  destruct (fold_left section_step es ([], None)) as [secs cur].
  cbn [fst finish_sections] in *.
  destruct cur as [s|]; [|exact H].
  destruct (has_content (Some s)) eqn:E; [|exact H].
  apply Forall_app. split; [exact H|].
  constructor; [now apply has_content_filled | constructor].
Qed.


Lemma section_step_inert (st : list section * option section) (e : node) :
  inert e -> section_step st e = st.
Proof.
  intros [Hh Hb]. destruct st as [secs cur]. unfold section_step. rewrite Hh.
  destruct cur as [s|]; [|reflexivity].
  destruct Hb as [Hb|Hb]; rewrite Hb; [reflexivity|].
  now destruct (named block_tags e).
Qed.

Lemma fold_section_step_inert (es : list node) (st : list section * option section) :
  Forall inert es -> fold_left section_step es st = st.
Proof.
  induction 1 as [|e es He Hes IH]; [reflexivity|].
  simpl. now rewrite section_step_inert.
Qed.


(** A heading followed by no qualifying block, up to the next heading or
    the end, leaves no trace in the result. *)
Lemma build_sections_drop (pre blocks rest : list node) (h : node) :
  named heading_tags h = true -> Forall inert blocks -> starts_with_heading rest ->
  build_sections (pre ++ h :: blocks ++ rest) = build_sections (pre ++ rest).
Proof.
  intros Hh Hb Hr. unfold build_sections.
  rewrite !fold_left_app. cbn [fold_left].
  destruct (fold_left section_step pre ([], None)) as [secs cur].
  rewrite fold_left_app, (fold_section_step_inert _ Hb).
  destruct rest as [|h' rest].
  - cbn [fold_left]. unfold section_step. rewrite Hh.
    cbn [finish_sections has_content content].
    destruct cur as [s|]; reflexivity.
  - cbn [starts_with_heading] in Hr. cbn [fold_left]. f_equal. f_equal.
    unfold section_step. rewrite Hh, Hr. cbn [has_content content].
    destruct cur as [s|]; reflexivity.
Qed.

End Sections.

Section Tables.
Import Py Dom Detail.

Lemma str_eqb_sym (a b : str) : eqb a b = eqb b a.
Proof.
  destruct (eqb a b) eqn:E.
  - apply str_eqb_eq in E. subst. symmetry. apply str_eqb_refl.
  - symmetry. apply str_eqb_neq. apply str_eqb_neq in E. congruence.
Qed.

Lemma dict_get_set (k k' v : str) (d : dict) :
  dict_get k (dict_set k' v d) = if eqb k k' then Some v else dict_get k d.
Proof.
  unfold dict_get. induction d as [|[k0 v0] d IH]; simpl.
  - reflexivity.
  - destruct (eqb k' k0) eqn:E1; simpl.
    + apply str_eqb_eq in E1. subst k0. now destruct (eqb k k').
    + rewrite IH. destruct (eqb k k0) eqn:E2; [|reflexivity].
      apply str_eqb_eq in E2. subst k0. rewrite str_eqb_sym in E1. now rewrite E1.
Qed.

Lemma dict_keys_set (k v : str) (d : dict) :
  map fst (dict_set k v d)
  = if mem k (map fst d) then map fst d else map fst d ++ [k].
Proof.
  induction d as [|[k0 v0] d IH]; simpl; [reflexivity|].
  destruct (eqb k k0); simpl; [reflexivity|].
  rewrite IH. now destruct (mem k (map fst d)).
Qed.


Lemma dict_of_fold_keys (pairs : list (str * str)) (d : dict) :
  map fst (fold_left (fun d kv => dict_set (fst kv) (snd kv) d) pairs d)
  = fold_left (fun acc k => if mem k acc then acc else acc ++ [k])
              (map fst pairs) (map fst d).
Proof.
  revert d. induction pairs as [|[k v] pairs IH]; intros d; [reflexivity|].
  simpl. rewrite IH, dict_keys_set. reflexivity.
Qed.

Lemma dict_of_keys (pairs : list (str * str)) :
  map fst (dict_of pairs) = first_occurrences (map fst pairs).
Proof. apply (dict_of_fold_keys pairs []). Qed.

Lemma dict_of_fold_get (k : str) (pairs : list (str * str)) (d : dict) :
  dict_get k (fold_left (fun d kv => dict_set (fst kv) (snd kv) d) pairs d)
  = match dict_get k (rev pairs) with
    | Some v => Some v
    | None => dict_get k d
    end.
Proof.
  revert d. induction pairs as [|[k' v] pairs IH]; intros d; [reflexivity|].
  cbn [fold_left fst snd rev]. rewrite IH, dict_get_set.
  assert (Happ : forall l, dict_get k (l ++ [(k', v)])
                           = match dict_get k l with
                             | Some x => Some x
                             | None => if eqb k k' then Some v else None
                             end).
  { intros l. unfold dict_get. induction l as [|[k0 v0] l IHl]; simpl.
    - reflexivity.
    - now destruct (eqb k k0). }
  rewrite Happ. destruct (dict_get k (rev pairs)); [reflexivity|].
  now destruct (eqb k k').
Qed.

(** The value under a key of [dict(pairs)]: the one of its last pair. *)
Lemma dict_of_get (k : str) (pairs : list (str * str)) :
  dict_get k (dict_of pairs) = dict_get k (rev pairs).
Proof.
  unfold dict_of. rewrite dict_of_fold_get. now destruct (dict_get k (rev pairs)).
Qed.

Lemma first_occurrences_fold_NoDup (ks acc : list str) :
  NoDup acc ->
  NoDup (fold_left (fun acc k => if mem k acc then acc else acc ++ [k]) ks acc).
Proof.
  revert acc. induction ks as [|k ks IH]; intros acc H; [exact H|].
  simpl. apply IH. destruct (mem k acc) eqn:E; [exact H|].
  apply mem_not_In in E. apply NoDup_app; [exact H | repeat constructor; intros [] | ].
  intros x Hx [<-|[]]. contradiction.
Qed.

Lemma dict_of_keys_NoDup (pairs : list (str * str)) : NoDup (map fst (dict_of pairs)).
Proof.
  rewrite dict_of_keys. apply first_occurrences_fold_NoDup. constructor.
Qed.


Lemma table_row_cells (hs : list str) (r : node) :
  find_all [lit "td"; lit "th"] r <> [] ->
  table_row hs r
  = [row_as_specified hs (cell_texts (find_all [lit "td"; lit "th"] r))].
Proof.
  unfold table_row, row_as_specified.
  destruct (find_all [lit "td"; lit "th"] r) as [|c cs]; [contradiction|].
  intros _. destruct hs as [|h hs]; [reflexivity|]. cbn [andb].
  now destruct (length (cell_texts (c :: cs)) =? length (h :: hs)).
Qed.

Lemma table_row_no_cells (hs : list str) (r : node) :
  find_all [lit "td"; lit "th"] r = [] -> table_row hs r = [].
Proof. unfold table_row. now intros ->. Qed.

Lemma extract_structured_tables_In (soup : node) (t : table_record) :
  In t (extract_structured_tables soup) <->
  (exists table, In table (find_all [lit "table"] soup) /\ t = table_data table)
  /\ (headers t <> [] \/ rows t <> []).
Proof.
  unfold extract_structured_tables. rewrite filter_In, in_map_iff.
  assert (H : has_data t = true <-> headers t <> [] \/ rows t <> []).
  { unfold has_data. destruct (rows t), (headers t); split; intros H;
      try reflexivity; try discriminate; try (right; discriminate);
      try (left; discriminate). destruct H; contradiction. }
  rewrite H. split; intros [[table Ht] Hd]; (split; [exists table|exact Hd]);
    intuition congruence.
Qed.

End Tables.

Section LinkFacts.
Import Py Dom Detail.
Variable urljoin : str -> str -> str.
Variable netloc : str -> str.



Lemma link_kept_pattern (a : node) (p : str) :
  link_kept a = true -> In p skip_patterns ->
  contains p (lower (get (lit "href") a)) = false.
Proof.
  unfold link_kept. intros H Hp.
  destruct (negb (truthy (get (lit "href") a))
            || existsb (fun pattern => contains pattern (lower (get (lit "href") a)))
                       skip_patterns) eqn:E; [discriminate|].
  apply orb_false_iff in E as [_ E].
  destruct (contains p (lower (get (lit "href") a))) eqn:C; [|reflexivity].
  assert (existsb (fun pattern => contains pattern (lower (get (lit "href") a)))
                  skip_patterns = true)
    by (apply existsb_exists; exists p; auto).
  congruence.
Qed.

Lemma contains_startswith (p s : str) : contains p s = false -> startswith p s = false.
Proof. destruct s; simpl; intros H; now apply orb_false_iff in H as [H _]. Qed.

Lemma link_loop_In (base_url : str) (l : list node) (seen : list str)
    (acc : list link_record) (r : link_record) :
  In r (link_loop urljoin netloc base_url l seen acc) ->
  In r acc
  \/ exists a, In a l /\ link_kept a = true /\ r = link_of_anchor urljoin netloc base_url a.
Proof.
  revert seen acc. induction l as [|a l IH]; intros seen acc H; [now left|].
  cbn [link_loop] in H. destruct (link_kept a) eqn:K.
  - destruct (mem (urljoin base_url (get (lit "href") a)) seen).
    + apply IH in H as [H|[a' [Ha' H]]]; [now left|].
      right. exists a'. split; [now right | exact H].
    + apply IH in H as [H|[a' [Ha' H]]].
      * apply in_app_or in H as [H|[<-|[]]]; [now left|].
        right. exists a. split; [now left | now split].
      * right. exists a'. split; [now right | exact H].
  - apply IH in H as [H|[a' [Ha' H]]]; [now left|].
    right. exists a'. split; [now right | exact H].
Qed.

(** Every kept anchor is represented, by its own record or by the record
    of an earlier anchor with the same resolved URL. *)
Lemma link_loop_complete (base_url : str) (l : list node) (seen : list str)
    (acc : list link_record) :
  (forall u, In u seen -> In u (map url acc)) ->
  forall u,
    (In u (map url acc)
     \/ exists a, In a l /\ link_kept a = true
                  /\ u = urljoin base_url (get (lit "href") a)) ->
    In u (map url (link_loop urljoin netloc base_url l seen acc)).
Proof.
  revert seen acc. induction l as [|a l IH]; intros seen acc Hs u Hu.
  - destruct Hu as [Hu|[a [[] _]]]. exact Hu.
  - cbn [link_loop].
    assert (Hrest : forall seen' acc',
               (forall v, In v seen' -> In v (map url acc')) ->
               (forall v, In v (map url acc) -> In v (map url acc')) ->
               (link_kept a = true ->
                In (urljoin base_url (get (lit "href") a)) (map url acc')) ->
               In u (map url (link_loop urljoin netloc base_url l seen' acc'))).
    { intros seen' acc' Hs' Hacc Ha. apply IH; [exact Hs'|].
      destruct Hu as [Hu|[a' [[<-|Ha'] [K E]]]].
      - left. now apply Hacc.
      - left. subst u. now apply Ha.
      - right. exists a'. auto. }
    destruct (link_kept a) eqn:K.
    + destruct (mem (urljoin base_url (get (lit "href") a)) seen) eqn:M.
      * apply Hrest; [exact Hs | auto |]. intros _. apply Hs. now apply mem_In.
      * apply Hrest.
        -- intros v [<-|Hv]; rewrite map_app; apply in_or_app;
             [right; now left | left; now apply Hs].
        -- intros v Hv. rewrite map_app. apply in_or_app. now left.
        -- intros _. rewrite map_app. apply in_or_app. right. now left.
    + apply Hrest; [exact Hs | auto | discriminate].
Qed.

Lemma link_type_internal (base_url full_url : str) :
  link_type netloc base_url full_url = lit "internal"
  <-> netloc full_url = netloc base_url.
Proof.
  unfold link_type. destruct (eqb (netloc full_url) (netloc base_url)) eqn:E; simpl.
  - apply str_eqb_eq in E. split; [now intros _ | reflexivity].
  - apply str_eqb_neq in E. split; [discriminate | contradiction].
Qed.

Lemma link_type_external (base_url full_url : str) :
  link_type netloc base_url full_url = lit "external"
  <-> netloc full_url <> netloc base_url.
Proof.
  unfold link_type. destruct (eqb (netloc full_url) (netloc base_url)) eqn:E; simpl.
  - apply str_eqb_eq in E. split; [discriminate | contradiction].
  - apply str_eqb_neq in E. split; [now intros _ | reflexivity].
Qed.

End LinkFacts.

Section CategoryFacts.
Import Py Dom NewsScraper.

Lemma split_chr_nonempty (sep : N) (s : str) : split_chr sep s <> [].
Proof.
  destruct s as [|c t]; simpl; [discriminate|].
  destruct (c =? sep)%N; [discriminate|].
  destruct (split_chr sep t); discriminate.
Qed.

Lemma split_chr_cons (sep c : N) (t : str) :
  (c =? sep)%N = false ->
  exists w r, split_chr sep t = w :: r /\ split_chr sep (c :: t) = (c :: w) :: r.
Proof.
  intros H. simpl. rewrite H.
  destruct (split_chr sep t) as [|w r] eqn:E; [now apply split_chr_nonempty in E|].
  now exists w, r.
Qed.

(** Leading separators only add empty segments. *)
Lemma find_segment_lstrip (sep : N) (s : str) :
  List.find truthy (split_chr sep (lstrip_by (N.eqb sep) s))
  = List.find truthy (split_chr sep s).
Proof.
  induction s as [|c t IH]; [reflexivity|].
  cbn [lstrip_by]. destruct (sep =? c)%N eqn:E; [|reflexivity].
  rewrite IH. cbn [split_chr]. rewrite N.eqb_sym, E. reflexivity.
Qed.

(** Trailing separators do not touch the first segment. *)
Lemma hd_split_chr_rstrip (sep : N) (s : str) :
  hd [] (split_chr sep (rstrip_by (N.eqb sep) s)) = hd [] (split_chr sep s).
Proof.
  induction s as [|c t IH]; [reflexivity|].
  cbn [rstrip_by]. destruct (rstrip_by (N.eqb sep) t) as [|d r] eqn:Er.
  - destruct (sep =? c)%N eqn:E.
    + cbn [split_chr]. rewrite N.eqb_sym, E. reflexivity.
    + rewrite N.eqb_sym in E.
      destruct (@split_chr_cons sep c t E) as [w [r' [Et ->]]].
      cbn [split_chr]. rewrite E. cbn [push hd].
      rewrite Et in IH. cbn [split_chr hd] in IH. now rewrite <- IH.
  - destruct (c =? sep)%N eqn:E.
    + cbn [split_chr]. rewrite E. reflexivity.
    + destruct (@split_chr_cons sep c t E) as [w [r' [Et ->]]].
      destruct (@split_chr_cons sep c (d :: r) E) as [w' [r'' [Et' ->]]].
      rewrite Et, Et' in IH. cbn [hd] in *. now rewrite IH.
Qed.

Lemma first_segment (sep : N) (p : str) :
  1 < length (split_chr sep (strip_chr sep p)) ->
  List.find truthy (split_chr sep p)
  = Some (hd [] (split_chr sep (strip_chr sep p))).
Proof.
  unfold strip_chr, strip_by. intros H.
  rewrite hd_split_chr_rstrip, <- find_segment_lstrip.
  destruct (lstrip_by (N.eqb sep) p) as [|c t] eqn:E; [simpl in H; lia|].
  assert (Hc : (c =? sep)%N = false).
  { rewrite N.eqb_sym. clear H. induction p as [|a p IH]; [discriminate|].
    cbn [lstrip_by] in E. destruct (sep =? a)%N eqn:Ea; [now apply IH|].
    now injection E as <- <-. }
  destruct (@split_chr_cons sep c t Hc) as [w [r [_ ->]]]. reflexivity.
Qed.

Lemma title_from_length (b : bool) (s : str) : length (title_from b s) = length s.
Proof.
  revert b. induction s as [|c s IH]; intros b; [reflexivity|].
  simpl. destruct (iscased c); simpl; now rewrite IH.
Qed.

Lemma category_of_segment_nonempty (seg : str) :
  seg <> [] -> Py.title (replace (lit "-") (lit " ") seg) <> [].
Proof.
  intros H E. apply (f_equal (@length N)) in E.
  unfold Py.title in E. rewrite title_from_length in E.
  change (lit "-") with [45%N] in E. change (lit " ") with [32%N] in E.
  rewrite replace_chr, length_map in E. destruct seg; [contradiction | discriminate].
Qed.

End CategoryFacts.

Section ValidTitles.
Import Py NewsScraper.

Lemma lower_chr_space (c : N) : isspace (lower_chr c) = isspace c.
Proof.
  unfold lower_chr. destruct (isupper_chr c) eqn:E; [|reflexivity].
  unfold isupper_chr in E. apply andb_true_iff in E as [H1 H2].
  apply N.leb_le in H1, H2.
  assert (Hc : In c [65;66;67;68;69;70;71;72;73;74;75;76;77;78;79;80;81;82;83;
                    84;85;86;87;88;89;90]%N) by (simpl; lia).
  simpl in Hc. decompose [or] Hc; subst; try reflexivity. contradiction.
Qed.

Lemma digit_not_space (c : N) : isdigit c = true -> isspace c = false.
Proof.
  unfold isdigit. intros E. apply andb_true_iff in E as [H1 H2].
  apply N.leb_le in H1, H2.
  assert (Hc : In c [48;49;50;51;52;53;54;55;56;57]%N) by (simpl; lia).
  simpl in Hc. decompose [or] Hc; subst; try reflexivity. contradiction.
Qed.

Lemma split_nil_spaces (s : str) : split s = [] -> forallb isspace s = true.
Proof.
  induction s as [|c t IH]; [reflexivity|].
  simpl. destruct (isspace c); [exact IH|].
  destruct (head_nonspace t); [|discriminate].
  destruct (split t); discriminate.
Qed.

Lemma spaces_split_nil (s : str) : forallb isspace s = true -> split s = [].
Proof.
  induction s as [|c t IH]; [reflexivity|].
  simpl. destruct (isspace c); [exact IH | discriminate].
Qed.

Lemma strip_nil_spaces (s : str) : strip s = [] -> forallb isspace s = true.
Proof.
  unfold strip, strip_by. intros H. apply split_nil_spaces.
  rewrite <- split_lstrip. now apply rstrip_nil_split in H as [H _].
Qed.

(** A title of white space only has no lower-cased form left, and
    conversely. *)
Lemma title_lower_nil (t : str) :
  strip (lower t) = [] -> split t = [] /\ existsb isdigit t = false.
Proof.
  intros H. apply strip_nil_spaces in H.
  assert (Ht : forallb isspace t = true).
  { unfold lower in H. rewrite forallb_forall in *. intros c Hc.
    rewrite <- lower_chr_space. apply H. now apply in_map. }
  split; [now apply spaces_split_nil|].
  destruct (existsb isdigit t) eqn:E; [|reflexivity].
  apply existsb_exists in E as [c [Hc Hd]].
  rewrite forallb_forall in Ht. apply Ht in Hc.
  apply digit_not_space in Hd. congruence.
Qed.

(** The classifier raises exactly on the titles that are white space. *)
Lemma is_valid_article_raises (t s l : str) :
  is_valid_article t s l = None -> strip (lower t) = [].
Proof.
  unfold is_valid_article.
  repeat match goal with
         | |- (if ?c then Some false else _) = None -> _ =>
             destruct c; [discriminate|]
         end.
  pose proof (@bare_company_name_never t) as Hn.
  unfold bare_company_name in *.
  destruct ((length (split t) <=? 2) && negb (existsb isdigit t)).
  - destruct (isupper (strip (lower t))); [discriminate|].
    destruct (strip (lower t)) as [|c r]; [reflexivity|].
    destruct (isupper [c] && negb (contains_any company_punctuation t));
      [discriminate|].
    repeat match goal with
           | |- (if ?c then Some false else _) = None -> _ =>
               destruct c; [discriminate|]
           end.
    discriminate.
  - repeat match goal with
           | |- (if ?c then Some false else _) = None -> _ =>
               destruct c; [discriminate|]
           end.
    discriminate.
Qed.

Lemma is_valid_article_accepts (t s l : str) :
  is_valid_article t s l = Some true -> strip (lower t) <> [].
Proof.
  intros H E. destruct (title_lower_nil t E) as [Hs Hd].
  revert H. unfold is_valid_article.
  repeat match goal with
         | |- (if ?c then Some false else _) = Some true -> _ =>
             destruct c; [discriminate|]
         end.
  unfold bare_company_name. rewrite Hs, Hd, E. discriminate.
Qed.

(** A cleaned title that is not empty starts and ends with a character
    that is not white space. *)
Lemma clean_text_title_lower (x : str) :
  NewsScraper.clean_text x <> [] ->
  strip (lower (NewsScraper.clean_text x)) <> [].
Proof.
  rewrite news_clean_text_words.
  assert (Hw : Forall word (map fix_word (split x))).
  { apply Forall_map. eapply Forall_impl; [|apply split_words].
    intros w. apply fix_word_word. }
  intros Hne E. apply strip_nil_spaces in E.
  destruct (map fix_word (split x)) as [|w r]; [contradiction|].
  inversion Hw as [|? ? [Hw1 Hw2] _]; subst.
  destruct w as [|c w]; [contradiction|].
  apply nospace_cons in Hw2 as [Hc _].
  assert (In c (join [32%N] ((c :: w) :: r))) by (simpl; destruct r; now left).
  unfold lower in E. rewrite forallb_forall in E.
  specialize (E (lower_chr c) (in_map _ _ _ H)).
  rewrite lower_chr_space in E. congruence.
Qed.

Lemma is_valid_article_clean (x s l : str) :
  NewsScraper.clean_text x <> [] ->
  is_valid_article (NewsScraper.clean_text x) s l <> None.
Proof.
  intros H E. apply is_valid_article_raises in E.
  now apply clean_text_title_lower in H.
Qed.

End ValidTitles.

(** ** The loop of the strategies *)
Section ScanFacts.
Import Py NewsScraper.
Variable cand : Type.
Variable title_of : cand -> option str.
Variable build : cand -> str -> option (option extracted_article).


(** What the loop appends satisfies what every built record satisfies. *)
Lemma scan_Forall (P : extracted_article -> Prop) :
  (forall c t a, build c t = Some (Some a) -> P a) ->
  forall cs seen arts,
    Forall P arts -> Forall P (snd (fst (scan title_of build cs seen arts))).
Proof.
  intros Hb. induction cs as [|c cs IH]; intros seen arts H; [exact H|].
  cbn [scan]. destruct (title_of c) as [t|]; [|now apply IH].
  destruct (mem (lower t) seen); [now apply IH|].
  destruct (build c t) as [[a|]|] eqn:E; [| now apply IH | exact H].
  apply IH. apply Forall_app. split; [exact H|].
  constructor; [eapply Hb; exact E | constructor].
Qed.

(** The loop ends normally when no candidate makes [build] raise. *)
Lemma scan_finishes :
  (forall c t, title_of c = Some t -> build c t <> None) ->
  forall cs seen arts, snd (scan title_of build cs seen arts) = true.
Proof.
  intros Hb. induction cs as [|c cs IH]; intros seen arts; [reflexivity|].
  cbn [scan]. destruct (title_of c) as [t|] eqn:Et; [|apply IH].
  destruct (mem (lower t) seen); [apply IH|].
  destruct (build c t) as [[a|]|] eqn:E; [apply IH | apply IH |].
  exfalso. exact (Hb c t Et E).
Qed.

Lemma run_scanned :
  (forall c t, title_of c = Some t -> build c t <> None) ->
  forall cs, run title_of build cs = snd (fst (scan title_of build cs [] [])).
Proof.
  intros Hb cs. unfold run. pose proof (scan_finishes Hb cs [] []) as H.
  destruct (scan title_of build cs [] []) as [st b]. simpl in *. now subst b.
Qed.

Hypothesis build_title :
  forall c t a, build c t = Some (Some a) -> title a = t.

(** No two records with the same lower-cased title. *)
Lemma scan_NoDup (cs : list cand) (seen : list str) (arts : list extracted_article) :
  NoDup (map key arts) -> incl (map key arts) seen ->
  NoDup (map key (snd (fst (scan title_of build cs seen arts)))).
Proof.
  revert seen arts. induction cs as [|c cs IH]; intros seen arts Hn Hi; [exact Hn|].
  cbn [scan]. destruct (title_of c) as [t|]; [|now apply IH].
  destruct (mem (lower t) seen) eqn:M; [now apply IH|].
  apply mem_not_In in M.
  destruct (build c t) as [[a|]|] eqn:E.
  - apply build_title in E. apply IH.
    + rewrite map_app. apply NoDup_app; [exact Hn | repeat constructor; intros [] |].
      intros k Hk [<-|[]]. apply M. apply Hi. unfold key in Hk. now rewrite E in Hk.
    + rewrite map_app. apply incl_app; [now apply incl_tl|].
      intros k [<-|[]]. left. unfold key. now rewrite E.
  - apply IH; [exact Hn | now apply incl_tl].
  - exact Hn.
Qed.


Lemma scan_first (cs : list cand) (seen : list str) (arts : list extracted_article)
    (a : extracted_article) :
  In a (snd (fst (scan title_of build cs seen arts))) ->
  In a arts \/ (first_with_key title_of build cs a /\ ~ In (key a) seen).
Proof.
  revert seen arts. induction cs as [|c cs IH]; intros seen arts H; [now left|].
  cbn [scan] in H.
  assert (Hskip : forall seen',
             incl seen seen' ->
             (forall t', title_of c = Some t' -> In (lower t') seen') ->
             first_with_key title_of build cs a /\ ~ In (key a) seen' ->
             first_with_key title_of build (c :: cs) a /\ ~ In (key a) seen).
  { intros seen' Hi Hc [[pre [c0 [post [-> [Ht [Hb Hf]]]]]] Hn]. split.
    - exists (c :: pre), c0, post. repeat split; try assumption.
      intros c' t' [<-|Hc'] Ht'; [|now apply (Hf c')].
      intros Ek. apply Hn. rewrite <- Ek. now apply Hc.
    - intros Hk. apply Hn. now apply Hi. }
  destruct (title_of c) as [t|] eqn:Et.
  - destruct (mem (lower t) seen) eqn:M.
    + apply IH in H as [H|H]; [now left|]. right.
      apply (Hskip seen); [apply incl_refl | | exact H].
      intros t' [= <-]. now apply mem_In.
    + apply mem_not_In in M. destruct (build c t) as [[b|]|] eqn:E.
      * apply IH in H as [H|H].
        -- apply in_app_or in H as [H|[<-|[]]]; [now left|]. right.
           pose proof (build_title E) as Etb. subst t. split.
           ++ exists [], c, cs. repeat split; try assumption. intros c' t' [].
           ++ exact M.
        -- right. apply (Hskip (lower t :: seen)); [now apply incl_tl | | exact H].
           intros t' [= <-]. now left.
      * apply IH in H as [H|H]; [now left|]. right.
        apply (Hskip (lower t :: seen)); [now apply incl_tl | | exact H].
        intros t' [= <-]. now left.
      * now left.
  - apply IH in H as [H|H]; [now left|]. right.
    apply (Hskip seen); [apply incl_refl | discriminate | exact H].
Qed.

End ScanFacts.

Section StrategyFacts.
Import Py Dom NewsScraper.
Variable urljoin : str -> str -> str.
Variable url_path : str -> str.
Variable extract_date : node -> option node -> str.

Lemma max_by_len_spec (l : list str) (b : str) :
  In (max_by_len b l) (b :: l)
  /\ forall x, In x (b :: l) -> length x <= length (max_by_len b l).
Proof.
  revert b. induction l as [|y l IH]; intros b.
  - simpl. split; [now left|]. intros x [<-|[]]. lia.
  - cbn [max_by_len].
    destruct (IH (if length b <? length y then y else b)) as [H1 H2]. split.
    + destruct H1 as [H1|H1]; [|now right; right].
      rewrite <- H1. destruct (length b <? length y); [right; now left | now left].
    + intros x Hx.
      assert (Hm : length b <= length (if length b <? length y then y else b)
                   /\ length y <= length (if length b <? length y then y else b)).
      { destruct (length b <? length y) eqn:E;
          [apply Nat.ltb_lt in E | apply Nat.ltb_ge in E]; lia. }
      pose proof (H2 _ (or_introl eq_refl)) as H0.
      destruct Hx as [<-|[<-|Hx]].
      * eapply Nat.le_trans; [apply Hm | exact H0].
      * eapply Nat.le_trans; [apply Hm | exact H0].
      * apply H2. now right.
Qed.

(** With class-selector candidates, the chosen summary is the longest. *)
Lemma select_summary_longest (article : node) :
  selector_candidates article <> [] ->
  In (select_summary article) (selector_candidates article)
  /\ forall c, In c (selector_candidates article) ->
               good_summary c = true /\ length c <= length (select_summary article).
Proof.
  unfold select_summary. intros H.
  assert (Hg : forall c, In c (selector_candidates article) -> good_summary c = true).
  { unfold selector_candidates. intros c Hc. apply in_flat_map in Hc as [sel [_ Hc]].
    now apply filter_In in Hc as [_ Hc]. }
  destruct (selector_candidates article) as [|c r]; [contradiction|].
  destruct (max_by_len_spec r c) as [H1 H2]. split; [exact H1|].
  intros x Hx. split; [now apply Hg | now apply H2].
Qed.


Lemma assemble_built (soup : node) (url : str) (elem : option node)
    (t l s : str) (a : extracted_article) :
  assemble url_path extract_date soup url elem t l s = Some (Some a) ->
  title a = t /\ link a = l /\ summary a = firstn 400 s /\ source a = url
  /\ is_valid_article t s l = Some true.
Proof.
  unfold assemble. destruct (is_valid_article t s l) as [[|]|]; try discriminate.
  intros [= <-]. cbn. repeat split. now destruct s.
Qed.

Lemma assemble_total (soup : node) (url : str) (elem : option node) (t l s : str) :
  is_valid_article t s l <> None ->
  assemble url_path extract_date soup url elem t l s <> None.
Proof.
  unfold assemble. destruct (is_valid_article t s l) as [[|]|]; congruence.
Qed.


Lemma assemble_well_built (soup : node) (url : str) (elem : option node)
    (t l s : str) (a : extracted_article) :
  assemble url_path extract_date soup url elem t l s = Some (Some a) ->
  well_built a.
Proof.
  intros H. apply assemble_built in H as [Ht [Hl [Hs [_ Hv]]]]. split.
  - rewrite Hs. apply firstn_le_length.
  - exists s. now rewrite Ht, Hl.
Qed.


Lemma static_title_cleaned (c : node) (t : str) :
  static_title c = Some t -> cleaned_title t.
Proof.
  unfold static_title. destruct (find _ c) as [tag|]; [|discriminate].
  destruct (NewsScraper.clean_text (get_text tag)) eqn:E; [discriminate|].
  intros [= <-]. split; [discriminate|]. now exists (get_text tag).
Qed.

Lemma js_title_cleaned (c : node) (t : str) :
  js_title c = Some t -> cleaned_title t.
Proof.
  unfold js_title. destruct (find _ c) as [tag|]; [|discriminate].
  destruct (NewsScraper.clean_text (get_text tag)) eqn:E; [discriminate|].
  cbn [truthy negb orb]. destruct (_ <? 15); [discriminate|].
  intros [= <-]. split; [discriminate|]. now exists (get_text tag).
Qed.

Lemma headline_title_cleaned (h : located) (t : str) :
  headline_title h = Some t -> cleaned_title t.
Proof.
  unfold headline_title.
  destruct (NewsScraper.clean_text (get_text (self h))) eqn:E; [discriminate|].
  cbn [truthy negb orb]. destruct (_ <? 15); [discriminate|].
  intros [= <-]. split; [discriminate|]. now exists (get_text (self h)).
Qed.

Lemma page_title_cleaned (e : located) (t : str) :
  page_title e = Some t -> cleaned_title t.
Proof.
  unfold page_title.
  set (te := if named _ (self e) then _ else _).
  destruct (NewsScraper.clean_text (get_text te)) eqn:E; [discriminate|].
  cbn [truthy negb orb]. destruct (_ <? 15); [discriminate|].
  intros [= <-]. split; [discriminate|]. now exists (get_text te).
Qed.

Lemma cleaned_title_valid (t s l : str) :
  cleaned_title t -> is_valid_article t s l <> None.
Proof.
  intros [Hne [x ->]]. now apply is_valid_article_clean.
Qed.

(** None of the four loops ends by an exception. *)
Lemma static_build_total (soup : node) (url : str) (c : node) (t : str) :
  static_title c = Some t ->
  static_build urljoin url_path extract_date soup url c t <> None.
Proof.
  intros H. apply assemble_total, cleaned_title_valid.
  exact (static_title_cleaned _ H).
Qed.

Lemma js_build_total (soup : node) (url : str) (c : node) (t : str) :
  js_title c = Some t ->
  js_build urljoin url_path extract_date soup url c t <> None.
Proof.
  intros H. apply assemble_total, cleaned_title_valid.
  exact (js_title_cleaned _ H).
Qed.

Lemma headline_build_total (soup : node) (url : str) (h : located) (t : str) :
  headline_title h = Some t ->
  headline_build urljoin url_path extract_date soup url h t <> None.
Proof.
  intros H. apply assemble_total, cleaned_title_valid.
  exact (headline_title_cleaned _ H).
Qed.

Lemma page_build_total (soup : node) (url : str) (e : located) (t : str) :
  page_title e = Some t ->
  page_build urljoin url_path extract_date soup url e t <> None.
Proof.
  intros H. apply assemble_total, cleaned_title_valid.
  exact (page_title_cleaned _ H).
Qed.

(** A page of the crawler is always gone through to its end. *)
Lemma crawl_page_finishes (soup : node) (url : str) (seen : list str)
    (news : list extracted_article) :
  snd (scan page_title (page_build urljoin url_path extract_date soup url)
            (page_candidates soup) seen news) = true.
Proof. apply scan_finishes. intros c t. apply page_build_total. Qed.

Lemma scrape_static_article_scan (soup : node) (url : str) :
  scrape_static_article urljoin url_path extract_date soup url
  = snd (fst (scan static_title (static_build urljoin url_path extract_date soup url)
                   (find_all [lit "article"] soup) [] [])).
Proof. apply run_scanned. intros c t. apply static_build_total. Qed.

Lemma scrape_js_scan (soup : node) (url : str) :
  scrape_js urljoin url_path extract_date soup url
  = snd (fst (scan js_title (js_build urljoin url_path extract_date soup url)
                   (find_all [lit "article"] soup) [] [])).
Proof. apply run_scanned. intros c t. apply js_build_total. Qed.

Lemma scrape_headlines_scan (soup : node) (url : str) :
  scrape_headlines urljoin url_path extract_date soup url
  = snd (fst (scan headline_title
                   (headline_build urljoin url_path extract_date soup url)
                   (headline_candidates soup) [] [])).
Proof. apply run_scanned. intros c t. apply headline_build_total. Qed.

Lemma static_build_title (soup : node) (url : str) (c : node) (t : str)
    (a : extracted_article) :
  static_build urljoin url_path extract_date soup url c t = Some (Some a) ->
  title a = t.
Proof. intros H. now apply assemble_built in H. Qed.

Lemma headline_build_title (soup : node) (url : str) (h : located) (t : str)
    (a : extracted_article) :
  headline_build urljoin url_path extract_date soup url h t = Some (Some a) ->
  title a = t.
Proof. intros H. now apply assemble_built in H. Qed.

Lemma scrape_static_article_well_built (soup : node) (url : str) :
  Forall well_built (scrape_static_article urljoin url_path extract_date soup url).
Proof.
  rewrite scrape_static_article_scan. apply scan_Forall; [|constructor].
  intros c t a. apply assemble_well_built.
Qed.

Lemma scrape_js_well_built (soup : node) (url : str) :
  Forall well_built (scrape_js urljoin url_path extract_date soup url).
Proof.
  rewrite scrape_js_scan. apply scan_Forall; [|constructor].
  intros c t a. apply assemble_well_built.
Qed.

Lemma scrape_headlines_well_built (soup : node) (url : str) :
  Forall well_built (scrape_headlines urljoin url_path extract_date soup url).
Proof.
  rewrite scrape_headlines_scan. apply scan_Forall; [|constructor].
  intros c t a. apply assemble_well_built.
Qed.

Lemma crawl_loop_well_built (url : str) (fetched : list (option node)) :
  forall p seen news,
    Forall well_built news ->
    Forall well_built
      (crawl_loop urljoin url_path extract_date url p fetched seen news).
Proof.
  induction fetched as [|[soup|] rest IH]; intros p seen news H; [exact H| |].
  - cbn [crawl_loop]. apply IH. apply scan_Forall; [|exact H].
    intros c t a. apply assemble_well_built.
  - cbn [crawl_loop]. now apply IH.
Qed.

Lemma crawl_pages_well_built (fetched : list (option node)) (url : str) :
  Forall well_built (crawl_pages urljoin url_path extract_date fetched url).
Proof. apply crawl_loop_well_built. constructor. Qed.

(** A record of the static strategy: its summary is the first 400
    characters of the summary chosen for its [article] element. *)
Lemma scrape_static_article_summary (soup : node) (url : str)
    (a : extracted_article) :
  In a (scrape_static_article urljoin url_path extract_date soup url) ->
  exists article,
    In article (find_all [lit "article"] soup)
    /\ summary a = firstn 400 (select_summary article)
    /\ is_valid_article (title a) (select_summary article) (link a) = Some true.
Proof.
  rewrite scrape_static_article_scan. intros H.
  apply scan_first in H; [|apply static_build_title].
  destruct H as [[]|[[pre [c [post [E [_ [Hb _]]]]]] _]].
  exists c. split; [rewrite E; apply in_elt|].
  apply assemble_built in Hb as [Ht [Hl [Hs [_ Hv]]]].
  split; [exact Hs | now rewrite Hl].
Qed.

End StrategyFacts.

(** ** The merge step *)
Section MergeFacts.
Import Py NewsScraper.


Lemma merge_app (l1 l2 : list extracted_article) (st : list str * list extracted_article) :
  merge (l1 ++ l2) st = merge l2 (merge l1 st).
Proof.
  revert st. induction l1 as [|a l1 IH]; intros [seen final]; [reflexivity|].
  cbn [app merge]. destruct (truthy (title_key a) && negb (mem (title_key a) seen));
    apply IH.
Qed.

Lemma run_super_scraper_merge (sel : bool) (sites : list site_result) :
  run_super_scraper sel sites
  = snd (merge (flat_map (site_articles sel) sites) ([], [])).
Proof.
  unfold run_super_scraper. generalize (@nil str, @nil extracted_article).
  induction sites as [|r sites IH]; intros st; [reflexivity|].
  cbn [fold_left flat_map]. now rewrite IH, merge_app.
Qed.

Lemma filter_same_key_absent (k : str) (l : list extracted_article) :
  ~ In k (map title_key l) -> filter (same_key k) l = [].
Proof.
  induction l as [|a l IH]; [reflexivity|]. intros H. simpl.
  unfold same_key at 1. destruct (eqb (title_key a) k) eqn:E.
  - apply str_eqb_eq in E. exfalso. apply H. now left.
  - apply IH. intros H'. apply H. now right.
Qed.

(** The records of one key in the merged list. *)
Lemma merge_filter (k : str) (arts : list extracted_article) :
  k <> [] ->
  forall seen final,
    (forall x, In x seen <-> In x (map title_key final)) ->
    filter (same_key k) (snd (merge arts (seen, final)))
    = if mem k seen then filter (same_key k) final
      else match List.find (same_key k) arts with
           | Some f => [f]
           | None => []
           end.
Proof.
  intros Hk. induction arts as [|a arts IH]; intros seen final Hinv.
  - cbn [merge snd List.find]. destruct (mem k seen) eqn:M; [reflexivity|].
    apply filter_same_key_absent. apply mem_not_In in M. now rewrite <- Hinv.
  - cbn [merge].
    destruct (truthy (title_key a) && negb (mem (title_key a) seen)) eqn:C.
    + apply andb_true_iff in C as [_ C]. apply negb_true_iff in C.
      assert (Hm : mem k (title_key a :: seen) = eqb (title_key a) k || mem k seen).
      { cbn [mem existsb]. now rewrite (str_eqb_sym k (title_key a)). }
      rewrite IH, Hm.
      * rewrite filter_app. cbn [filter List.find].
        change (same_key k a) with (eqb (title_key a) k).
        destruct (eqb (title_key a) k) eqn:E; cbn [orb].
        -- apply str_eqb_eq in E. subst k. rewrite C.
           rewrite filter_same_key_absent; [reflexivity|].
           rewrite <- Hinv. now apply mem_not_In.
        -- now rewrite app_nil_r.
      * intros x. rewrite map_app, in_app_iff. cbn [In map]. rewrite Hinv. tauto.
    + rewrite IH by exact Hinv. cbn [List.find].
      change (same_key k a) with (eqb (title_key a) k).
      destruct (eqb (title_key a) k) eqn:E; [|reflexivity].
      apply str_eqb_eq in E. subst k.
      destruct (mem (title_key a) seen) eqn:M; [reflexivity|].
      destruct (title_key a); [contradiction | discriminate].
Qed.

End MergeFacts.


(* ===================================================================== *)
(** * Part III: the properties of the specification *)
(* ===================================================================== *)

Section ClaimsNews.
Import Py Dom NewsScraper Samples.
Local Open Scope string_scope.
Local Open Scope list_scope.
Local Open Scope nat_scope.

(** C1 (the code departs from the specification).  A title of two words, without
    a digit, all in upper case; and a title of two words, without a
    digit, that starts with an upper-case letter and has none of [:], [-],
    [?], [!]: the specification wants both rejected whatever the summary and the
    link are, but with a link at hand [is_valid_article] returns true for
    both.  The test written for such titles reads the lower-cased title
    and never fires (lemma [bare_company_name_never]); the later test on
    short titles lets a title with [-] or a comma pass. *)
Theorem is_valid_article_accepts_bare_names :
  let shouted := lit "BREAKING-NEWS TODAYXX" in
  let plain := lit "Hello,world todayabc" in
  let link := lit "https://example.com/a" in
  ((length (split shouted) <=? 2) = true
   /\ existsb isdigit shouted = false
   /\ isupper shouted = true
   /\ is_valid_article shouted [] link = Some true)
  /\ ((length (split plain) <=? 2) = true
      /\ existsb isdigit plain = false
      /\ isupper (firstn 1 plain) = true
      /\ contains_any company_punctuation plain = false
      /\ is_valid_article plain [] link = Some true).
Proof. vm_compute. repeat split. Qed.

(** C4.  [validate_date] returns true exactly for the strings that
    contain neither [00-00] nor [00/00] and whose leftmost match of
    [20[2-3][0-9]], read as a number, lies between 2020 and 2030; the
    match is a token of four characters with no other match starting
    before it.  [validate_date("15 Jan 2031")] is false and
    [validate_date("2024-03-10")] is true. *)
Theorem validate_date_spec :
  (forall s : str,
      validate_date s = true <->
      contains (lit "00-00") s = false /\ contains (lit "00/00") s = false
      /\ exists y, search_year s = Some y
                   /\ (2020 <= int_of_digits y <= 2030)%N)
  /\ (forall s y : str,
         search_year s = Some y <->
         exists pre post,
           s = pre ++ y ++ post /\ year_token y
           /\ forall i, i < length pre -> year_here (skipn i s) = false)
  /\ validate_date (lit "15 Jan 2031") = false
  /\ validate_date (lit "2024-03-10") = true.
Proof.
  split; [exact validate_date_iff|].
  split; [exact search_year_leftmost|].
  split; reflexivity.
Qed.

Lemma validate_date_spec_witness :
  (contains (lit "00-00") (lit "10 Mar 2024") = false
   /\ contains (lit "00/00") (lit "10 Mar 2024") = false
   /\ exists y, search_year (lit "10 Mar 2024") = Some y
                /\ (2020 <= int_of_digits y <= 2030)%N)
  /\ validate_date (lit "10 Mar 2024") = true.
Proof.
  assert (H : contains (lit "00-00") (lit "10 Mar 2024") = false
              /\ contains (lit "00/00") (lit "10 Mar 2024") = false
              /\ exists y, search_year (lit "10 Mar 2024") = Some y
                           /\ (2020 <= int_of_digits y <= 2030)%N).
  { split; [reflexivity|]. split; [reflexivity|].
    exists (lit "2024"). split; [reflexivity|]. vm_compute. split; discriminate. }
  split; [exact H|].
  apply (proj1 validate_date_spec (lit "10 Mar 2024")). exact H.
Defined.

(** C5.  Both text normalizers are idempotent: cleaning a cleaned string
    changes nothing, for [clean_text] of [news_scraper.py] and for
    [clean_text] of [detail.py]. *)
Theorem clean_text_idempotent (s : str) :
  NewsScraper.clean_text (NewsScraper.clean_text s) = NewsScraper.clean_text s
  /\ Detail.clean_text (Detail.clean_text s) = Detail.clean_text s.
Proof. split; [apply news_clean_text_idem | apply detail_clean_text_idem]. Qed.

(** C7.  In the merge step of [run_super_scraper], take two records whose
    titles are equal once lower-cased and stripped, among the records the
    strategies found, on any sites, the first of them accepted by the
    validity classifier as every record of a strategy is.  The merged
    list holds exactly one record with that lower-cased, stripped title,
    and it is the first one with it in the order the records were found:
    records that differ in the case of their titles, or in white space
    around them, count as the same. *)
Theorem merge_keeps_first_seen (selenium_available : bool)
    (sites : list site_result) (a b : extracted_article) :
  In a (flat_map (site_articles selenium_available) sites) ->
  In b (flat_map (site_articles selenium_available) sites) ->
  normalized_title a = normalized_title b ->
  accepted a ->
  exists f,
    List.find (titled (normalized_title a))
              (flat_map (site_articles selenium_available) sites) = Some f
    /\ filter (titled (normalized_title a))
              (run_super_scraper selenium_available sites) = [f]
    /\ filter (titled (normalized_title b))
              (run_super_scraper selenium_available sites) = [f].
Proof.
  intros Ha _ Hab [s Hs].
  assert (Hk : normalized_title a <> []) by exact (is_valid_article_accepts _ _ _ Hs).
  rewrite <- Hab.
  change (titled (normalized_title a)) with (same_key (title_key a)).
  change (normalized_title a) with (title_key a) in Hk.
  destruct (List.find (same_key (title_key a))
                      (flat_map (site_articles selenium_available) sites))
    as [f|] eqn:E.
  - exists f. rewrite run_super_scraper_merge.
    rewrite (merge_filter _ Hk) by (intros x; simpl; tauto).
    cbn [mem existsb]. rewrite E. auto.
  - exfalso. apply (find_none _ _ E) in Ha. unfold same_key in Ha.
    now rewrite str_eqb_refl in Ha.
Qed.

Lemma merge_keeps_first_seen_witness :
  In found_by_static (flat_map (site_articles false) mixed_case_site)
  /\ In found_in_capitals (flat_map (site_articles false) mixed_case_site)
  /\ title found_by_static <> title found_in_capitals
  /\ normalized_title found_by_static = normalized_title found_in_capitals
  /\ accepted found_by_static
  /\ run_super_scraper false mixed_case_site = [found_by_static]
  /\ exists f,
       List.find (titled (normalized_title found_by_static))
                 (flat_map (site_articles false) mixed_case_site) = Some f
       /\ filter (titled (normalized_title found_by_static))
                 (run_super_scraper false mixed_case_site) = [f]
       /\ filter (titled (normalized_title found_in_capitals))
                 (run_super_scraper false mixed_case_site) = [f].
Proof.
  assert (H1 : In found_by_static (flat_map (site_articles false) mixed_case_site))
    by (vm_compute; left; reflexivity).
  assert (H2 : In found_in_capitals (flat_map (site_articles false) mixed_case_site))
    by (vm_compute; right; left; reflexivity).
  assert (H3 : normalized_title found_by_static = normalized_title found_in_capitals)
    by (vm_compute; reflexivity).
  assert (H4 : accepted found_by_static) by (exists []; vm_compute; reflexivity).
  split; [exact H1|]. split; [exact H2|].
  split; [vm_compute; discriminate|]. split; [exact H3|]. split; [exact H4|].
  split; [vm_compute; reflexivity|].
  exact (@merge_keeps_first_seen false mixed_case_site found_by_static
                                 found_in_capitals H1 H2 H3 H4).
Defined.

End ClaimsNews.

Section ClaimsStrategies.
Import Py Dom NewsScraper Samples.
Local Open Scope string_scope.
Local Open Scope list_scope.
Local Open Scope nat_scope.

(** C8, counterexample.  The page has no category metadata and the path of
    its URL has one segment, [markets]: the first non-empty segment is
    there, yet [extract_category] returns the empty string. *)
Lemma extract_category_single_segment :
  let url := lit "https://www.business-standard.com/markets" in
  meta_category (page []) = []
  /\ List.find truthy (split_chr 47 (Url.path url)) = Some (lit "markets")
  /\ extract_category Url.path (page []) None url = [].
Proof. vm_compute. repeat split. Qed.

(** C8, as the code has it.  Metadata that gives a category decides.  Otherwise, for
    a URL that is not empty whose path, without leading and trailing
    slashes, splits into at least two segments, the category is the first
    non-empty segment of the path with hyphens replaced by spaces, in
    title case, and it is not empty.  Otherwise (no metadata category,
    and the URL is empty or its path has fewer than two segments) the
    category is the empty string. *)
Theorem extract_category_spec (url_path : str -> str) (soup : node)
    (article_elem : option node) (url : str) :
  (meta_category soup <> [] ->
   extract_category url_path soup article_elem url = meta_category soup)
  /\ (meta_category soup = [] -> url <> [] ->
      1 < length (split_chr 47 (strip_chr 47 (url_path url))) ->
      exists segment,
        List.find truthy (split_chr 47 (url_path url)) = Some segment
        /\ segment <> []
        /\ extract_category url_path soup article_elem url
           = Py.title (replace (lit "-") (lit " ") segment)
        /\ extract_category url_path soup article_elem url <> [])
  /\ (meta_category soup = [] ->
      url = [] \/ length (split_chr 47 (strip_chr 47 (url_path url))) <= 1 ->
      extract_category url_path soup article_elem url = []).
Proof.
  unfold extract_category. split; [|split].
  - intros H. destruct (meta_category soup); [contradiction | reflexivity].
  - intros -> Hu Hl. destruct url as [|c url]; [contradiction|].
    cbn [truthy negb andb]. apply Nat.ltb_lt in Hl as Hl'. rewrite Hl'.
    pose proof (first_segment _ _ Hl) as Hf.
    exists (hd [] (split_chr 47 (strip_chr 47 (url_path (c :: url))))).
    assert (Hs : hd [] (split_chr 47 (strip_chr 47 (url_path (c :: url)))) <> []).
    { apply find_some in Hf as [_ Hf].
      now destruct (hd [] (split_chr 47 (strip_chr 47 (url_path (c :: url))))). }
    repeat split; try assumption. now apply category_of_segment_nonempty.
  - intros -> H. destruct url as [|c url]; [reflexivity|].
    destruct H as [H|H]; [discriminate|].
    cbn [truthy negb andb]. apply Nat.ltb_ge in H. now rewrite H.
Qed.

Lemma extract_category_spec_witness :
  let url := lit "https://www.livemint.com/market-news/stock-rally" in
  let meta :=
    Elem (lit "meta") [(lit "name", lit "category"); (lit "content", lit "Economy")] [] in
  (meta_category (page [meta]) <> []
   /\ extract_category Url.path (page [meta]) None url = lit "Economy")
  /\ (meta_category (page []) = [] /\ url <> []
      /\ 1 < length (split_chr 47 (strip_chr 47 (Url.path url)))
      /\ extract_category Url.path (page []) None url = lit "Market News")
  /\ (meta_category (page []) = []
      /\ length (split_chr 47 (strip_chr 47 (Url.path (lit "https://www.livemint.com")))) <= 1
      /\ extract_category Url.path (page []) None (lit "https://www.livemint.com") = []).
Proof.
  intros url meta.
  assert (H1 : meta_category (page [meta]) <> []) by (vm_compute; discriminate).
  assert (H2 : meta_category (page []) = []) by reflexivity.
  assert (H3 : url <> []) by (vm_compute; discriminate).
  assert (H4 : 1 < length (split_chr 47 (strip_chr 47 (Url.path url))))
    by (vm_compute; repeat constructor).
  assert (H5 : length (split_chr 47 (strip_chr 47
                 (Url.path (lit "https://www.livemint.com")))) <= 1)
    by (vm_compute; repeat constructor).
  split; [|split].
  - split; [exact H1|].
    rewrite (proj1 (extract_category_spec Url.path (page [meta]) None url) H1).
    reflexivity.
  - split; [exact H2|]. split; [exact H3|]. split; [exact H4|].
    destruct (proj1 (proj2 (extract_category_spec Url.path (page []) None url))
                H2 H3 H4) as [segment [Hf [_ [He _]]]].
    rewrite He. vm_compute in Hf. injection Hf as <-. reflexivity.
  - split; [exact H2|]. split; [exact H5|].
    exact (proj2 (proj2 (extract_category_spec Url.path (page []) None
                           (lit "https://www.livemint.com")))
             H2 (or_intror H5)).
Defined.

(** C9.  A record of any of the four strategies has a summary of at most
    400 characters.  The record keeps the first 400 characters of the
    summary its candidate was given: for the static strategy that is the
    summary chosen for the [article] element, not truncated when chosen
    and when the validity classifier reads it, and the longest of the
    qualifying class-selector candidates when there are any. *)
Theorem summary_truncated_at_assembly (urljoin : str -> str -> str)
    (url_path : str -> str) (extract_date : node -> option node -> str)
    (soup : node) (fetched : list (option node)) (url : str)
    (a : extracted_article) :
  In a (scrape_static_article urljoin url_path extract_date soup url)
  \/ In a (scrape_headlines urljoin url_path extract_date soup url)
  \/ In a (crawl_pages urljoin url_path extract_date fetched url)
  \/ In a (scrape_js urljoin url_path extract_date soup url) ->
  length (summary a) <= 400
  /\ (In a (scrape_static_article urljoin url_path extract_date soup url) ->
      exists article,
        In article (find_all [lit "article"] soup)
        /\ summary a = firstn 400 (select_summary article)
        /\ is_valid_article (title a) (select_summary article) (link a) = Some true
        /\ (selector_candidates article <> [] ->
            In (select_summary article) (selector_candidates article)
            /\ forall c, In c (selector_candidates article) ->
                         good_summary c = true
                         /\ length c <= length (select_summary article))).
Proof.
  intros H. split.
  - assert (Hw : well_built a); [|exact (proj1 Hw)].
    destruct H as [H|[H|[H|H]]]; revert a H; apply Forall_forall.
    + apply scrape_static_article_well_built.
    + apply scrape_headlines_well_built.
    + apply crawl_pages_well_built.
    + apply scrape_js_well_built.
  - intros Hs. apply scrape_static_article_summary in Hs as [article [Hi [Hs Hv]]].
    exists article. split; [exact Hi|]. split; [exact Hs|]. split; [exact Hv|].
    apply select_summary_longest.
Qed.

Lemma summary_truncated_at_assembly_witness :
  In story_record
     (scrape_static_article urljoin_absolute Url.path no_date story_page
                            (lit "https://x.test/"))
  /\ length (summary story_record) <= 400.
Proof.
  assert (H : In story_record
                 (scrape_static_article urljoin_absolute Url.path no_date
                                        story_page (lit "https://x.test/")))
    by (vm_compute; left; reflexivity).
  split; [exact H|].
  exact (proj1 (@summary_truncated_at_assembly urljoin_absolute Url.path no_date
                  story_page [] (lit "https://x.test/") story_record
                  (or_introl H))).
Defined.

(** C10, counterexample.  The page has the same title twice: in an [h2]
    that comes first in the document, and in an [h1] after it.
    [scrape_headlines] goes through all [h1] before any [h2], so the record
    it keeps is the one of the [h1], the second occurrence in document
    order. *)
Lemma scrape_headlines_keeps_later_heading :
  map name (find_all HEADLINE_TAGS two_headings) = [lit "h2"; lit "h1"]
  /\ map (fun h => clean_text (get_text h)) (find_all HEADLINE_TAGS two_headings)
     = [lit headline; lit headline]
  /\ map (fun h => get (lit "href") h) (find_all [lit "a"] two_headings)
     = [lit "https://x.test/first"; lit "https://x.test/second"]
  /\ map link (scrape_headlines urljoin_absolute Url.path no_date two_headings
                                (lit "https://x.test/"))
     = [lit "https://x.test/second"].
Proof. vm_compute. repeat split. Qed.

(** C10, as the code has it.  The list a strategy returns has no two records whose
    cleaned titles are equal after lower-casing, and each record was built
    from the first candidate with that lower-cased title in the order the
    strategy goes through its candidates: for [scrape_static_article] the
    [article] elements in document order; for [scrape_headlines] all [h1]
    in document order, then all [h2], all [h3] and all [h4]. *)
Theorem strategy_titles_unique (urljoin : str -> str -> str)
    (url_path : str -> str) (extract_date : node -> option node -> str)
    (soup : node) (url : str) :
  NoDup (map key (scrape_static_article urljoin url_path extract_date soup url))
  /\ NoDup (map key (scrape_headlines urljoin url_path extract_date soup url))
  /\ (forall a,
         In a (scrape_static_article urljoin url_path extract_date soup url) ->
         first_with_key static_title
           (static_build urljoin url_path extract_date soup url)
           (find_all [lit "article"] soup) a)
  /\ (forall a,
         In a (scrape_headlines urljoin url_path extract_date soup url) ->
         first_with_key headline_title
           (headline_build urljoin url_path extract_date soup url)
           (headline_candidates soup) a)
  /\ headline_candidates soup
     = find_all_located [lit "h1"] soup ++ find_all_located [lit "h2"] soup
       ++ find_all_located [lit "h3"] soup ++ find_all_located [lit "h4"] soup.
Proof.
  rewrite scrape_static_article_scan, scrape_headlines_scan.
  split; [|split; [|split; [|split]]].
  - apply scan_NoDup; [apply static_build_title | constructor | apply incl_nil_l].
  - apply scan_NoDup; [apply headline_build_title | constructor | apply incl_nil_l].
  - intros a H. apply scan_first in H; [|apply static_build_title].
    destruct H as [[]|[H _]]. exact H.
  - intros a H. apply scan_first in H; [|apply headline_build_title].
    destruct H as [[]|[H _]]. exact H.
  - unfold headline_candidates. cbn [HEADLINE_TAGS lits map flat_map].
    now rewrite app_nil_r.
Qed.

Lemma strategy_titles_unique_witness :
  In story_record
     (scrape_static_article urljoin_absolute Url.path no_date story_page
                            (lit "https://x.test/"))
  /\ first_with_key static_title
       (static_build urljoin_absolute Url.path no_date story_page
                     (lit "https://x.test/"))
       (find_all [lit "article"] story_page) story_record.
Proof.
  assert (H : In story_record
                 (scrape_static_article urljoin_absolute Url.path no_date
                                        story_page (lit "https://x.test/")))
    by (vm_compute; left; reflexivity).
  split; [exact H|].
  exact (proj1 (proj2 (proj2 (@strategy_titles_unique urljoin_absolute Url.path
                                 no_date story_page (lit "https://x.test/"))))
           story_record H).
Defined.

End ClaimsStrategies.

Section ClaimsDetail.
Import Py Dom Detail Samples.
Local Open Scope string_scope.
Local Open Scope list_scope.
Local Open Scope nat_scope.

(** C2 (the code departs from the specification).  A table whose first
    row is the header row [A], [B], of [th] cells, and whose one body row
    [1], [2] is in a [tbody]: the body row has as many cells as there
    are headers, so the specification has it come back as the mapping
    of [A] to [1] and [B] to [2]; the code returns the table without any
    row.  The headers come from the first row, the rows are read from the
    [tbody], and the first of those is passed over as if it were the
    header row.  In the opposite case, a [thead] and no [tbody], the rows
    are read from the whole table and none is passed over: the header row
    comes back as a data row before the body row. *)
Theorem table_body_row_lost :
  (headers (table_data first_row_table) = [lit "A"; lit "B"]
   /\ find_all [lit "tr"] first_row_table = [header_row; data_row]
   /\ cell_texts (find_all [lit "td"; lit "th"] data_row) = [lit "1"; lit "2"]
   /\ row_as_specified (headers (table_data first_row_table))
                       (cell_texts (find_all [lit "td"; lit "th"] data_row))
      = RowDict [(lit "A", lit "1"); (lit "B", lit "2")]
   /\ body_rows first_row_table (headers (table_data first_row_table)) = []
   /\ extract_structured_tables (page [first_row_table])
      = [TableRecord [lit "A"; lit "B"] [] []])
  /\ (headers (table_data headed_table) = [lit "A"; lit "B"]
      /\ body_rows headed_table (headers (table_data headed_table))
         = [header_row; data_row]
      /\ extract_structured_tables (page [headed_table])
         = [TableRecord [lit "A"; lit "B"]
                        [ RowDict [(lit "A", lit "A"); (lit "B", lit "B")];
                          RowDict [(lit "A", lit "1"); (lit "B", lit "2")] ]
                        []]).
Proof. vm_compute. repeat split. Qed.

(** C3.  No section of the result has empty content.  A heading that is
    followed, up to the next heading or the end of the traversal, by no
    block whose text qualifies leaves no trace: the result is the one of
    the traversal without that heading and its blocks.  On [h2 X], [h2 Y]
    and a paragraph with a qualifying text the result is one section,
    headed [Y], with that text. *)
Theorem sections_never_empty :
  (forall soup : node,
      Forall (fun s => content s <> []) (extract_content_sections soup))
  /\ (forall (pre blocks rest : list node) (h : node),
         named heading_tags h = true ->
         Forall inert blocks ->
         starts_with_heading rest ->
         build_sections (pre ++ h :: blocks ++ rest) = build_sections (pre ++ rest))
  /\ (forall x y p : str,
         meaningful (clean_text p) = true ->
         extract_content_sections
           (page [Elem (lit "h2") [] [Text x]; Elem (lit "h2") [] [Text y];
                  Elem (lit "p") [] [Text p]])
         = [Section_ (clean_text y) 2 [clean_text p]]).
Proof.
  split; [|split].
  - intros soup. apply build_sections_filled.
  - intros pre blocks rest h. apply build_sections_drop.
  - intros x y p H. unfold extract_content_sections, build_sections, section_step.
    cbn -[clean_text meaningful]. rewrite !app_nil_r, H. reflexivity.
Qed.

Lemma sections_never_empty_witness :
  let paragraph := lit "A paragraph of qualifying text." in
  (named heading_tags (el "h2" [txt "X"]) = true
   /\ Forall inert [el "p" [txt "too short"]]
   /\ starts_with_heading [el "h2" [txt "Y"]; Elem (lit "p") [] [Text paragraph]]
   /\ build_sections ([] ++ el "h2" [txt "X"] :: [el "p" [txt "too short"]]
                      ++ [el "h2" [txt "Y"]; Elem (lit "p") [] [Text paragraph]])
      = [Section_ (lit "Y") 2 [paragraph]])
  /\ (meaningful (clean_text paragraph) = true
      /\ extract_content_sections
           (page [Elem (lit "h2") [] [Text (lit "X")];
                  Elem (lit "h2") [] [Text (lit "Y")];
                  Elem (lit "p") [] [Text paragraph]])
         = [Section_ (lit "Y") 2 [paragraph]]).
Proof.
  intros paragraph.
  assert (H1 : named heading_tags (el "h2" [txt "X"]) = true) by reflexivity.
  assert (H2 : Forall inert [el "p" [txt "too short"]]).
  { constructor; [|constructor]. split; [reflexivity | right; reflexivity]. }
  assert (H3 : starts_with_heading
                 [el "h2" [txt "Y"]; Elem (lit "p") [] [Text paragraph]])
    by reflexivity.
  assert (H4 : meaningful (clean_text paragraph) = true) by reflexivity.
  destruct sections_never_empty as [_ [Hdrop Hex]].
  split.
  - split; [exact H1|]. split; [exact H2|]. split; [exact H3|].
    rewrite (Hdrop [] [el "p" [txt "too short"]]
               [el "h2" [txt "Y"]; Elem (lit "p") [] [Text paragraph]]
               (el "h2" [txt "X"]) H1 H2 H3).
    reflexivity.
  - split; [exact H4|].
    rewrite (Hex (lit "X") (lit "Y") paragraph H4). reflexivity.
Defined.

(** C6, counterexample.  On the base URL [https://example.com/] the
    page has a link to [https://example.com:443/about] and one to
    [https://EXAMPLE.com/team].  The host of both is the host of the base
    URL, [example.com]; both are kept, and both are classified
    ["external"]: what the code compares is the network location, with
    the port and in the letter case of the URL. *)
Lemma same_host_classified_external :
  let base_url := lit "https://example.com/" in
  let links :=
    extract_meaningful_links urljoin_absolute Url.netloc same_host_page base_url in
  host (Url.netloc base_url) = lit "example.com"
  /\ map (fun r => host (Url.netloc (url r))) links
     = [lit "example.com"; lit "example.com"]
  /\ map (fun r => Url.netloc (url r)) links
     = [lit "example.com:443"; lit "EXAMPLE.com"]
  /\ map type links = [lit "external"; lit "external"].
Proof. vm_compute. repeat split. Qed.

(** C6, as the code has it.  A record of the link classifier stems from
    an anchor of the page that the filter kept: its URL is the anchor's
    destination resolved against the base URL; its type is ["internal"]
    exactly when the network location of that URL, which holds user
    information, host and port as they are written, is the one of the
    base URL, and ["external"] exactly when it is not.  So an internal
    link has the host of the base URL, and a link to another host is
    external; a link to the same host may be either.  The anchor's
    destination, lower-cased, does not contain [javascript:], let alone
    start with it: an anchor whose destination does is never kept.  Every
    anchor that is kept has its resolved URL in the result. *)
Theorem links_classified_by_netloc (urljoin : str -> str -> str)
    (netloc : str -> str) (soup : node) (base_url : str) (r : link_record) :
  In r (extract_meaningful_links urljoin netloc soup base_url) ->
  (type r = lit "internal" <-> netloc (url r) = netloc base_url)
  /\ (type r = lit "external" <-> netloc (url r) <> netloc base_url)
  /\ (type r = lit "internal" -> host (netloc (url r)) = host (netloc base_url))
  /\ (host (netloc (url r)) <> host (netloc base_url) -> type r = lit "external")
  /\ (exists a,
         In a (anchors soup)
         /\ link_kept a = true
         /\ r = link_of_anchor urljoin netloc base_url a
         /\ contains (lit "javascript:") (lower (get (lit "href") a)) = false
         /\ startswith (lit "javascript:") (lower (get (lit "href") a)) = false)
  /\ (forall a,
         contains (lit "javascript:") (lower (get (lit "href") a)) = true ->
         link_kept a = false)
  /\ (forall a,
         In a (anchors soup) -> link_kept a = true ->
         In (urljoin base_url (get (lit "href") a))
            (map url (extract_meaningful_links urljoin netloc soup base_url))).
Proof.
  intros H. unfold extract_meaningful_links in H.
  apply link_loop_In in H as [[]|[a [Ha [Hk ->]]]].
  assert (Hjs : In (lit "javascript:") skip_patterns)
    by (vm_compute; right; left; reflexivity).
  split; [apply link_type_internal|]. split; [apply link_type_external|].
  split.
  { intros Hi. apply link_type_internal in Hi. cbn [link_of_anchor url] in *.
    now rewrite Hi. }
  split.
  { intros Hh. apply link_type_external. intros E. apply Hh.
    cbn [link_of_anchor url] in *. now rewrite E. }
  split.
  - exists a. split; [exact Ha|]. split; [exact Hk|]. split; [reflexivity|].
    pose proof (link_kept_pattern a Hk Hjs) as Hc.
    split; [exact Hc | now apply contains_startswith].
  - split.
    + intros a' Hc. destruct (link_kept a') eqn:K; [|reflexivity].
      rewrite (link_kept_pattern a' K Hjs) in Hc. discriminate.
    + intros a' Ha' K. unfold extract_meaningful_links.
      apply link_loop_complete; [intros u [] |].
      right. exists a'. auto.
Qed.

Lemma links_classified_by_netloc_witness :
  In port_link
     (extract_meaningful_links urljoin_absolute Url.netloc same_host_page
                               (lit "https://example.com/"))
  /\ (type port_link = lit "external"
      <-> Url.netloc (url port_link) <> Url.netloc (lit "https://example.com/"))
  /\ In about_link
        (extract_meaningful_links urljoin_absolute Url.netloc links_page
                                  (lit "https://example.com/"))
  /\ host (Url.netloc (url about_link)) = host (Url.netloc (lit "https://example.com/"))
  /\ map url (extract_meaningful_links urljoin_absolute Url.netloc links_page
                                       (lit "https://example.com/"))
     = [lit "https://example.com/about"; lit "https://other.org/x"].
Proof.
  assert (H : In port_link
                 (extract_meaningful_links urljoin_absolute Url.netloc same_host_page
                                           (lit "https://example.com/")))
    by (vm_compute; left; reflexivity).
  assert (H' : In about_link
                  (extract_meaningful_links urljoin_absolute Url.netloc links_page
                                            (lit "https://example.com/")))
    by (vm_compute; left; reflexivity).
  split; [exact H|].
  split; [exact (proj1 (proj2 (@links_classified_by_netloc urljoin_absolute
                                 Url.netloc same_host_page
                                 (lit "https://example.com/") port_link H)))|].
  split; [exact H'|]. split; [|vm_compute; reflexivity].
  apply (proj1 (proj2 (proj2 (@links_classified_by_netloc urljoin_absolute Url.netloc
                                links_page (lit "https://example.com/")
                                about_link H')))).
  vm_compute. reflexivity.
Defined.

End ClaimsDetail.

(* ===================================================================== *)
(** * Part IV: further properties of the code *)
(* ===================================================================== *)

(** ** More on the validity classifier *)
Section ClassifierFacts.
Import Py Dom NewsScraper.

Lemma contains_nil (k : str) : k <> [] -> contains k [] = false.
Proof. destruct k; [contradiction | reflexivity]. Qed.

Lemma keywords_on_blank_title (ks : list str) (sl : str) :
  Forall (fun k => k <> []) ks ->
  existsb (fun keyword => contains keyword [] || contains keyword sl) ks
  = contains_any ks sl.
Proof.
  unfold contains_any. induction 1 as [|k ks Hk _ IH]; [reflexivity|].
  cbn [existsb]. now rewrite IH, (contains_nil Hk).
Qed.

Lemma noise_keywords_nonempty : Forall (fun k => k <> []) NOISE_KEYWORDS.
Proof. repeat constructor; discriminate. Qed.

Lemma spaces_strip_nil (s : str) : forallb isspace s = true -> strip s = [].
Proof.
  intros H. unfold strip, strip_by.
  assert (E : lstrip_by isspace s = []).
  { induction s as [|c t IH]; [reflexivity|]. simpl in *.
    apply andb_true_iff in H as [Hc Ht]. rewrite Hc. now apply IH. }
  now rewrite E.
Qed.

Lemma lower_spaces (s : str) : forallb isspace s = true <-> forallb isspace (lower s) = true.
Proof.
  unfold lower. induction s as [|c t IH]; [simpl; tauto|].
  cbn [map forallb]. rewrite lower_chr_space, !andb_true_iff. tauto.
Qed.

Lemma title_lower_nil_iff (t : str) :
  strip (lower t) = [] <-> forallb isspace t = true.
Proof.
  split.
  - intros H. apply strip_nil_spaces in H. exact (proj2 (lower_spaces t) H).
  - intros H. apply spaces_strip_nil. exact (proj1 (lower_spaces t) H).
Qed.

(** [is_valid_article] raises exactly on a title of fifteen or more
    characters, all white space, with a summary free of noise keywords. *)
Lemma is_valid_article_raises_iff (t s l : str) :
  is_valid_article t s l = None <->
  15 <= length t /\ forallb isspace t = true
  /\ contains_any NOISE_KEYWORDS (lower s) = false.
Proof.
  split.
  - intros H. pose proof (is_valid_article_raises _ _ _ H) as E.
    split; [|split; [now apply title_lower_nil_iff|]].
    + unfold is_valid_article in H.
      destruct (negb (truthy t) || (length t <? 15)) eqn:G; [discriminate|].
      apply orb_false_iff in G as [_ G]. now apply Nat.ltb_ge in G.
    + unfold is_valid_article in H. rewrite E in H.
      destruct (negb (truthy t) || (length t <? 15)); [discriminate|].
      destruct (mem [] NAVIGATION_TITLES); [discriminate|].
      rewrite (keywords_on_blank_title _ noise_keywords_nonempty) in H.
      destruct (contains_any NOISE_KEYWORDS (lower s)); [discriminate | reflexivity].
  - intros [Hl [Hb Hn]].
    pose proof (proj2 (title_lower_nil_iff t) Hb) as E.
    destruct (title_lower_nil t E) as [Hs Hd].
    unfold is_valid_article, bare_company_name. rewrite E, Hs, Hd.
    rewrite (keywords_on_blank_title _ noise_keywords_nonempty), Hn.
    assert (G : negb (truthy t) || (length t <? 15) = false).
    { apply orb_false_iff. split; [|now apply Nat.ltb_ge].
      destruct t; [simpl in Hl; lia | reflexivity]. }
    rewrite G. reflexivity.
Qed.

(** A noise keyword anywhere in the title or the summary rejects the
    candidate, whatever the rest is. *)
Lemma is_valid_article_noise (t s l : str) :
  contains_any NOISE_KEYWORDS (strip (lower t)) = true
  \/ contains_any NOISE_KEYWORDS (lower s) = true ->
  is_valid_article t s l = Some false.
Proof.
  intros H. unfold is_valid_article.
  destruct (negb (truthy t) || (length t <? 15)); [reflexivity|].
  destruct (mem (strip (lower t)) NAVIGATION_TITLES); [reflexivity|].
  assert (E : existsb (fun keyword => contains keyword (strip (lower t))
                                      || contains keyword (lower s))
                      NOISE_KEYWORDS = true).
  { unfold contains_any in H. apply existsb_exists.
    destruct H as [H|H]; apply existsb_exists in H as [k [Hk Hc]];
      exists k; rewrite Hc; split; auto using orb_true_r. }
  now rewrite E.
Qed.

(** What an accepted candidate looks like. *)
Lemma is_valid_article_accepted (t s l : str) :
  is_valid_article t s l = Some true ->
  15 <= length t
  /\ mem (strip (lower t)) NAVIGATION_TITLES = false
  /\ contains_any NOISE_KEYWORDS (strip (lower t)) = false
  /\ contains_any NOISE_KEYWORDS (lower s) = false
  /\ (l <> [] \/ 20 <= length s)
  /\ (s = [] \/ contains_any GENERIC_SUMMARIES (lower s) = false)
  /\ (isupper t = true \/ length (split t) <= 2 ->
      contains_any headline_punctuation t = true)
  /\ contains_any section_indicators (strip (lower t)) = false.
Proof.
  unfold is_valid_article.
  destruct (negb (truthy t) || (length t <? 15)) eqn:G1; [discriminate|].
  destruct (mem (strip (lower t)) NAVIGATION_TITLES) eqn:G2; [discriminate|].
  destruct (existsb _ NOISE_KEYWORDS) eqn:G3; [discriminate|].
  destruct (mem (strip (lower t)) trivial_titles); [discriminate|].
  destruct (mem (strip (lower t)) section_header_titles); [discriminate|].
  destruct (bare_company_name t (strip (lower t))) as [[|]|]; try discriminate.
  destruct (negb (truthy l) && (negb (truthy s) || (length s <? 20))) eqn:G4;
    [discriminate|].
  destruct (truthy s && contains_any GENERIC_SUMMARIES (lower s)) eqn:G5;
    [discriminate|].
  destruct (truthy s && (length s <? 30) && contains_any filler_words (lower s));
    [discriminate|].
  destruct (truthy t && (isupper t || (length (split t) <=? 2))
            && negb (contains_any headline_punctuation t)) eqn:G6; [discriminate|].
  destruct (contains_any section_indicators (strip (lower t))) eqn:G7;
    [discriminate|].
  intros _.
  apply orb_false_iff in G1 as [G1 G1']. apply Nat.ltb_ge in G1'.
  assert (N : forall k, In k NOISE_KEYWORDS ->
                        contains k (strip (lower t)) = false
                        /\ contains k (lower s) = false).
  { intros k Hk. rewrite <- orb_false_iff.
    destruct (contains k (strip (lower t)) || contains k (lower s)) eqn:E;
      [|reflexivity].
    assert (existsb (fun keyword => contains keyword (strip (lower t))
                                    || contains keyword (lower s))
                    NOISE_KEYWORDS = true)
      by (apply existsb_exists; exists k; auto).
    congruence. }
  assert (N' : forall u, (forall k, In k NOISE_KEYWORDS -> contains k u = false) ->
                         contains_any NOISE_KEYWORDS u = false).
  { intros u Hu. unfold contains_any.
    destruct (existsb (fun k => contains k u) NOISE_KEYWORDS) eqn:E; [|reflexivity].
    apply existsb_exists in E as [k [Hk Hc]]. rewrite (Hu k Hk) in Hc. discriminate. }
  split; [exact G1'|]. split; [reflexivity|].
  split; [apply N'; intros k Hk; apply (N k Hk)|].
  split; [apply N'; intros k Hk; apply (N k Hk)|].
  split.
  { destruct l; [|left; discriminate]. right. cbn [truthy negb andb] in G4.
    apply orb_false_iff in G4 as [_ G4]. now apply Nat.ltb_ge in G4. }
  split.
  { destruct s; [now left|]. right. exact G5. }
  split; [|reflexivity].
  intros H. destruct t as [|c t]; [discriminate|]. cbn [truthy andb] in G6.
  assert (E : isupper (c :: t) || (length (split (c :: t)) <=? 2) = true).
  { apply orb_true_iff. destruct H as [H|H]; [now left | right; now apply Nat.leb_le]. }
  rewrite E in G6. cbn [andb] in G6. now apply negb_false_iff in G6.
Qed.

End ClassifierFacts.

(** ** More on the strategies *)
Section StrategyRecords.
Import Py Dom NewsScraper.
Variable urljoin : str -> str -> str.
Variable url_path : str -> str.
Variable extract_date : node -> option node -> str.

(** The chosen summary is empty or qualifies. *)
Lemma select_summary_good (article : node) :
  select_summary article = [] \/ good_summary (select_summary article) = true.
Proof.
  destruct (selector_candidates article) as [|c r] eqn:E.
  - unfold select_summary. rewrite E.
    destruct (paragraph_candidate article) as [text|] eqn:P; [|now left].
    right. unfold paragraph_candidate in P. now apply find_some in P as [_ P].
  - right. assert (H : selector_candidates article <> []) by (rewrite E; discriminate).
    destruct (@select_summary_longest article H) as [Hin Hall]. now apply Hall.
Qed.

Lemma good_summary_length (text : str) :
  good_summary text = true -> 40 < length text < 500.
Proof.
  unfold good_summary. intros H.
  apply andb_true_iff in H as [H _]. apply andb_true_iff in H as [H H2].
  apply andb_true_iff in H as [_ H1].
  apply Nat.ltb_lt in H1, H2. lia.
Qed.

Lemma clean_text_fixed (t : str) : cleaned_title t -> NewsScraper.clean_text t = t.
Proof. intros [_ [x ->]]. apply news_clean_text_idem. Qed.

(** What a record of a strategy is known to satisfy. *)
Lemma assemble_sound (soup : node) (url : str) (elem : option node)
    (t l s : str) (a : extracted_article) :
  cleaned_title t ->
  assemble url_path extract_date soup url elem t l s = Some (Some a) ->
  sound_record a /\ source a = url.
Proof.
  intros Ht H. apply assemble_built in H as [E1 [E2 [E3 [E4 Hv]]]].
  apply is_valid_article_accepted in Hv as [H15 [_ [_ [_ [Hl _]]]]].
  split; [|exact E4]. unfold sound_record. rewrite E1, E2, E3.
  split; [exact H15|]. split; [now apply clean_text_fixed|].
  destruct Hl as [Hl|Hl]; [now left|]. right.
  rewrite length_firstn. lia.
Qed.

Lemma scan_sound (cand : Type) (title_of : cand -> option str)
    (build : cand -> str -> option (option extracted_article))
    (P : extracted_article -> Prop) :
  (forall c t a, title_of c = Some t -> build c t = Some (Some a) -> P a) ->
  forall cs seen arts,
    Forall P arts -> Forall P (snd (fst (scan title_of build cs seen arts))).
Proof.
  intros Hb. induction cs as [|c cs IH]; intros seen arts H; [exact H|].
  cbn [scan]. destruct (title_of c) as [t|] eqn:Et; [|now apply IH].
  destruct (mem (lower t) seen); [now apply IH|].
  destruct (build c t) as [[a|]|] eqn:E; [| now apply IH | exact H].
  apply IH. apply Forall_app. split; [exact H|].
  constructor; [eapply Hb; eassumption | constructor].
Qed.

Lemma scrape_static_article_sound (soup : node) (url : str) :
  Forall (fun a => sound_record a /\ source a = url)
         (scrape_static_article urljoin url_path extract_date soup url).
Proof.
  rewrite scrape_static_article_scan. apply scan_sound; [|constructor].
  intros c t a Ht. apply assemble_sound. exact (static_title_cleaned _ Ht).
Qed.

Lemma scrape_js_sound (soup : node) (url : str) :
  Forall (fun a => sound_record a /\ source a = url)
         (scrape_js urljoin url_path extract_date soup url).
Proof.
  rewrite scrape_js_scan. apply scan_sound; [|constructor].
  intros c t a Ht. apply assemble_sound. exact (js_title_cleaned _ Ht).
Qed.

Lemma scrape_headlines_sound (soup : node) (url : str) :
  Forall (fun a => sound_record a /\ source a = url)
         (scrape_headlines urljoin url_path extract_date soup url).
Proof.
  rewrite scrape_headlines_scan. apply scan_sound; [|constructor].
  intros c t a Ht. apply assemble_sound. exact (headline_title_cleaned _ Ht).
Qed.

Lemma crawl_loop_sound (url : str) (fetched : list (option node)) :
  forall p seen news,
    Forall sound_record news ->
    Forall sound_record
      (crawl_loop urljoin url_path extract_date url p fetched seen news).
Proof.
  induction fetched as [|[soup|] rest IH]; intros p seen news H; [exact H| |].
  - cbn [crawl_loop]. apply IH. apply scan_sound; [|exact H].
    intros c t a Ht Hb. unfold page_build in Hb.
    apply assemble_sound in Hb; [exact (proj1 Hb) | exact (page_title_cleaned _ Ht)].
  - cbn [crawl_loop]. now apply IH.
Qed.

(** The state of a loop keeps every key of its records among the seen
    titles. *)
Lemma scan_seen (cand : Type) (title_of : cand -> option str)
    (build : cand -> str -> option (option extracted_article)) :
  (forall c t a, build c t = Some (Some a) -> title a = t) ->
  forall cs seen arts,
    incl (map key arts) seen ->
    incl (map key (snd (fst (scan title_of build cs seen arts))))
         (fst (fst (scan title_of build cs seen arts))).
Proof.
  intros Hb. induction cs as [|c cs IH]; intros seen arts H; [exact H|].
  cbn [scan]. destruct (title_of c) as [t|]; [|now apply IH].
  destruct (mem (lower t) seen); [now apply IH|].
  destruct (build c t) as [[a|]|] eqn:E.
  - apply IH. rewrite map_app. apply incl_app; [now apply incl_tl|].
    intros k [<-|[]]. left. unfold key. now rewrite (Hb _ _ _ E).
  - apply IH. now apply incl_tl.
  - cbn [fst snd]. now apply incl_tl.
Qed.

Lemma page_build_title (soup : node) (url : str) (e : located) (t : str)
    (a : extracted_article) :
  page_build urljoin url_path extract_date soup url e t = Some (Some a) ->
  title a = t.
Proof. intros H. now apply assemble_built in H. Qed.

Lemma js_build_title (soup : node) (url : str) (c : node) (t : str)
    (a : extracted_article) :
  js_build urljoin url_path extract_date soup url c t = Some (Some a) ->
  title a = t.
Proof. intros H. now apply assemble_built in H. Qed.

(** The page crawler shares one set of seen titles between its pages and
    selectors. *)
Lemma crawl_loop_NoDup (url : str) (fetched : list (option node)) :
  forall p seen news,
    NoDup (map key news) -> incl (map key news) seen ->
    NoDup (map key (crawl_loop urljoin url_path extract_date url p fetched seen news)).
Proof.
  induction fetched as [|[soup|] rest IH]; intros p seen news Hn Hi; [exact Hn| |].
  - cbn [crawl_loop]. apply IH.
    + apply scan_NoDup; [intros c t a; apply page_build_title | exact Hn | exact Hi].
    + apply scan_seen; [intros c t a; apply page_build_title | exact Hi].
  - cbn [crawl_loop]. now apply IH.
Qed.

End StrategyRecords.

(** ** More on the merge step *)
Section MergeMore.
Import Py NewsScraper.

Lemma merge_keeps_inv (arts : list extracted_article)
    (st : list str * list extracted_article) :
  merge_inv st -> merge_inv (merge arts st).
Proof.
  revert st. induction arts as [|a arts IH]; intros [seen final] H; [exact H|].
  cbn [merge].
  destruct (truthy (title_key a) && negb (mem (title_key a) seen)) eqn:C;
    [|now apply IH].
  apply IH. destruct H as [H1 [H2 H3]]. cbn [fst snd] in *.
  apply andb_true_iff in C as [C1 C2]. apply negb_true_iff, mem_not_In in C2.
  unfold merge_inv. cbn [fst snd]. split; [|split].
  - intros k. rewrite map_app, in_app_iff. cbn [In map]. rewrite H1. tauto.
  - rewrite map_app. apply NoDup_app; [exact H2 | repeat constructor; intros [] |].
    intros k Hk [<-|[]]. apply C2. now apply H1.
  - apply Forall_app. split; [exact H3|]. constructor; [|constructor].
    intros E. rewrite E in C1. discriminate.
Qed.

Lemma merge_incl (arts : list extracted_article)
    (st : list str * list extracted_article) :
  incl (snd (merge arts st)) (snd st ++ arts).
Proof.
  revert st. induction arts as [|a arts IH]; intros [seen final].
  - cbn [merge snd]. rewrite app_nil_r. apply incl_refl.
  - cbn [merge].
    destruct (truthy (title_key a) && negb (mem (title_key a) seen)).
    + eapply incl_tran; [apply IH|]. cbn [snd]. rewrite <- app_assoc. apply incl_refl.
    + eapply incl_tran; [apply IH|]. cbn [snd].
      apply incl_app; [apply incl_appl, incl_refl | apply incl_appr, incl_tl, incl_refl].
Qed.

(** Records with distinct, non-empty, unseen keys all pass. *)
Lemma merge_fresh (arts : list extracted_article) :
  NoDup (map title_key arts) ->
  Forall (fun a => title_key a <> []) arts ->
  forall seen final,
    (forall a, In a arts -> ~ In (title_key a) seen) ->
    snd (merge arts (seen, final)) = final ++ arts.
Proof.
  induction arts as [|a arts IH]; intros Hn Hk seen final Hs.
  - cbn [merge snd]. now rewrite app_nil_r.
  - cbn [merge]. inversion Hn as [|? ? Hna Hn']; subst.
    inversion Hk as [|? ? Hka Hk']; subst.
    assert (C : truthy (title_key a) && negb (mem (title_key a) seen) = true).
    { apply andb_true_iff. split.
      - destruct (title_key a); [contradiction | reflexivity].
      - apply negb_true_iff, mem_not_In. apply Hs. now left. }
    rewrite C, IH; [now rewrite <- app_assoc | exact Hn' | exact Hk' |].
    intros b Hb [E|Hin].
    + apply Hna. rewrite E. now apply in_map.
    + apply (Hs b); [now right | exact Hin].
Qed.

End MergeMore.

(** ** More on the links *)
Section LinksMore.
Import Py Dom Detail.
Variable urljoin : str -> str -> str.
Variable netloc : str -> str.

Lemma link_loop_NoDup (base_url : str) (l : list node) :
  forall seen acc,
    NoDup (map url acc) -> incl (map url acc) seen ->
    NoDup (map url (link_loop urljoin netloc base_url l seen acc)).
Proof.
  induction l as [|a l IH]; intros seen acc Hn Hi; [exact Hn|].
  cbn [link_loop]. destruct (link_kept a); [|now apply IH].
  destruct (mem (urljoin base_url (get (lit "href") a)) seen) eqn:M; [now apply IH|].
  apply mem_not_In in M. apply IH.
  - rewrite map_app. apply NoDup_app; [exact Hn | repeat constructor; intros [] |].
    intros u Hu [<-|[]]. apply M. now apply Hi.
  - rewrite map_app. apply incl_app; [now apply incl_tl|].
    intros u [<-|[]]. now left.
Qed.

Lemma link_kept_text (a : node) :
  link_kept a = true ->
  get (lit "href") a <> []
  /\ 2 <= length (clean_text (get_text a))
  /\ mem (clean_text (get_text a)) symbol_texts = false.
Proof.
  unfold link_kept.
  destruct (negb (truthy (get (lit "href") a)) || _) eqn:G1; [discriminate|].
  destruct ((length (clean_text (get_text a)) <? 2) || _) eqn:G2; [discriminate|].
  intros _. apply orb_false_iff in G1 as [G1 _], G2 as [G2 G2'].
  apply Nat.ltb_ge in G2. repeat split; try assumption.
  intros E. rewrite E in G1. discriminate.
Qed.

End LinksMore.

(** ** More on the sections *)
Section SectionsMore.
Import Py Dom Detail.

Lemma heading_level_bounds (e : node) :
  named heading_tags e = true -> (1 <= heading_level (name e) <= 6)%N.
Proof.
  unfold named. intros H. apply mem_In in H.
  cbn in H. decompose [or] H; try contradiction;
    match goal with E : _ = name e |- _ => rewrite <- E end; cbn; lia.
Qed.

Lemma meaningful_length (text : str) :
  meaningful text = true ->
  20 < length text /\ contains_any boilerplate (lower text) = false.
Proof.
  unfold meaningful. intros H. apply andb_true_iff in H as [H H2].
  apply andb_true_iff in H as [_ H1]. apply Nat.ltb_lt in H1.
  now apply negb_true_iff in H2.
Qed.

Lemma section_step_inv (elements : list node) (st : list section * option section)
    (e : node) :
  In e elements -> sections_inv elements st ->
  sections_inv elements (section_step st e).
Proof.
  destruct st as [secs cur]. intros He [H1 H2]. cbn [fst snd] in *.
  unfold section_step. destruct (named heading_tags e) eqn:Hh.
  - split; cbn [fst snd].
    + destruct cur as [s|]; [|exact H1].
      destruct (has_content (Some s)); [|exact H1].
      apply Forall_app. split; [exact H1|]. constructor; [exact H2 | constructor].
    + split; [|constructor]. exists e. auto.
  - destruct cur as [s|]; [|now split].
    destruct (named block_tags e); [|now split].
    destruct (meaningful (clean_text (get_text e))) eqn:M; [|now split].
    split; cbn [fst snd]; [exact H1|].
    destruct H2 as [Hs Hc]. split; [exact Hs|]. cbn [content].
    apply Forall_app. split; [exact Hc|]. constructor; [exact M | constructor].
Qed.

Lemma fold_section_step_inv (elements es : list node)
    (st : list section * option section) :
  incl es elements -> sections_inv elements st ->
  sections_inv elements (fold_left section_step es st).
Proof.
  revert st. induction es as [|e es IH]; intros st Hi H; [exact H|].
  cbn [fold_left]. apply IH.
  - intros x Hx. apply Hi. now right.
  - apply section_step_inv; [apply Hi; now left | exact H].
Qed.

Lemma build_sections_from (elements : list node) :
  Forall (section_from elements) (build_sections elements).
Proof.
  unfold build_sections.
  assert (H : sections_inv elements (fold_left section_step elements ([], None))).
  { apply fold_section_step_inv; [apply incl_refl|]. split; constructor. }
  destruct (fold_left section_step elements ([], None)) as [secs cur].
  destruct H as [H1 H2]. cbn [fst snd finish_sections] in *.
  destruct cur as [s|]; [|exact H1].
  destruct (has_content (Some s)); [|exact H1].
  apply Forall_app. split; [exact H1|]. constructor; [exact H2 | constructor].
Qed.

(** There are at most as many sections as headings. *)
Lemma fold_section_step_count (es : list node) :
  forall st,
    length (fst (fold_left section_step es st))
    + length (option_list (snd (fold_left section_step es st)))
    <= length (fst st) + length (option_list (snd st))
       + length (filter (named heading_tags) es).
Proof.
  induction es as [|e es IH]; intros [secs cur]; [cbn; lia|].
  cbn [fold_left filter]. eapply Nat.le_trans; [apply IH|].
  unfold section_step. destruct (named heading_tags e).
  - destruct cur as [s|]; cbn [fst snd length option_list]; [|lia].
    destruct (has_content (Some s)); [rewrite length_app|]; cbn [length]; lia.
  - destruct cur as [s|]; cbn [fst snd option_list]; [|lia].
    destruct (named block_tags e); [|cbn [fst snd option_list]; lia].
    destruct (meaningful _); cbn [fst snd option_list length]; lia.
Qed.

Lemma build_sections_count (es : list node) :
  length (build_sections es) <= length (filter (named heading_tags) es).
Proof.
  unfold build_sections. pose proof (fold_section_step_count es ([], None)) as H.
  destruct (fold_left section_step es ([], None)) as [secs cur].
  cbn [fst snd finish_sections length option_list] in *.
  destruct cur as [s|]; [|cbn [length option_list] in H; lia].
  cbn [length option_list] in H.
  destruct (has_content (Some s)); [rewrite length_app; cbn [length]|]; lia.
Qed.

End SectionsMore.

(** ** More on the tables *)
Section TablesMore.
Import Py Dom Detail.

Lemma combine_keys (hs cells : list str) :
  length cells = length hs -> map fst (combine hs cells) = hs.
Proof.
  revert cells. induction hs as [|h hs IH]; intros [|c cells] H; try discriminate;
    [reflexivity|].
  cbn. f_equal. apply IH. now injection H.
Qed.

Lemma dict_set_nonempty (k v : str) (d : dict) : dict_set k v d <> [].
Proof. destruct d as [|[k' v'] d]; cbn; [discriminate|]. destruct (eqb k k'); discriminate. Qed.

Lemma dict_fold_nonempty (pairs : list (str * str)) (d : dict) :
  d <> [] -> fold_left (fun d kv => dict_set (fst kv) (snd kv) d) pairs d <> [].
Proof.
  revert d. induction pairs as [|kv pairs IH]; intros d H; [exact H|].
  cbn [fold_left]. apply IH, dict_set_nonempty.
Qed.

Lemma table_row_shape (hs : list str) (r : node) (x : row) :
  In x (table_row hs r) ->
  match x with
  | RowDict d =>
      hs <> [] /\ d <> [] /\ map fst d = first_occurrences hs
      /\ exists cells, length cells = length hs /\ d = dict_of (combine hs cells)
  | RowList cells => cells <> [] /\ length cells <> length hs
  end.
Proof.
  unfold table_row. destruct (find_all [lit "td"; lit "th"] r) as [|c cs]; [intros []|].
  set (row_data := cell_texts (c :: cs)).
  assert (Hr : row_data <> []) by discriminate.
  destruct hs as [|h hs].
  - cbn [andb]. intros [<-|[]]. split; [exact Hr|].
    destruct row_data; [contradiction | cbn; discriminate].
  - cbn [andb]. destruct (length row_data =? length (h :: hs)) eqn:E.
    + apply Nat.eqb_eq in E. intros [<-|[]]. split; [discriminate|].
      assert (Hk : map fst (dict_of (combine (h :: hs) row_data))
                   = first_occurrences (h :: hs))
        by (now rewrite dict_of_keys, combine_keys).
      split; [|split; [exact Hk | now exists row_data]].
      destruct row_data as [|x0 row_data]; [contradiction|].
      unfold dict_of. cbn [combine fold_left]. apply dict_fold_nonempty.
      apply dict_set_nonempty.
    + apply Nat.eqb_neq in E. intros [<-|[]]. now split.
Qed.

End TablesMore.

(** ** The three text normalizers *)
Section Normalizers.
Import Py.

Lemma take_drop_word (s : str) : take_word s ++ drop_word s = s.
Proof.
  induction s as [|c t IH]; [reflexivity|].
  simpl. destruct (isspace c); [reflexivity|]. simpl. now rewrite IH.
Qed.

Lemma take_word_nospace (s : str) : nospace (take_word s).
Proof.
  induction s as [|c t IH]; [reflexivity|].
  simpl. destruct (isspace c) eqn:E; [reflexivity|]. now apply nospace_cons.
Qed.

Lemma drop_word_head (s : str) : head_nonspace (drop_word s) = false.
Proof.
  induction s as [|c t IH]; [reflexivity|].
  simpl. destruct (isspace c) eqn:E; [|exact IH]. simpl. now rewrite E.
Qed.

Lemma drop_word_length (s : str) : length (drop_word s) <= length s.
Proof.
  induction s as [|c t IH]; [reflexivity|].
  simpl. destruct (isspace c); simpl; lia.
Qed.

Section Replace.
Variables old new : str.
Hypothesis old_ne : old <> [].
Hypothesis old_nospace : nospace old.

Lemma space_not_in_old (c : N) : isspace c = true -> ~ In c old.
Proof. intros H. now apply nospace_not_In. Qed.

(** A character outside [old] is never part of a match. *)
Lemma replace_from_app_stop (c : N) (k : nat) (w rest : str) :
  ~ In c old -> k <= length w ->
  replace_from old new k (w ++ c :: rest)
  = replace_from old new k w ++ c :: replace_from old new 0 rest.
Proof.
  intros Hc. revert k. induction w as [|x w IH]; intros k Hk.
  - assert (k = 0) as -> by (simpl in Hk; lia).
    cbn [app replace_from].
    pose proof (startswith_app_stop c old [] rest Hc) as E.
    cbn [app] in E. rewrite E.
    destruct old; [contradiction | reflexivity].
  - destruct k as [|k].
    + cbn [app replace_from].
      change (x :: w ++ c :: rest) with ((x :: w) ++ c :: rest).
      rewrite startswith_app_stop by assumption.
      destruct (startswith old (x :: w)) eqn:E.
      * apply startswith_length in E. simpl in E.
        rewrite IH by lia. now rewrite app_assoc.
      * now rewrite IH by lia.
    + simpl. apply IH. simpl in Hk. lia.
Qed.

Lemma replace_from_space (c : N) (t : str) :
  isspace c = true ->
  replace_from old new 0 (c :: t) = c :: replace_from old new 0 t.
Proof.
  intros H. exact (@replace_from_app_stop c 0 [] t (space_not_in_old c H) (le_n 0)).
Qed.

Lemma replace_from_head (s : str) :
  head_nonspace s = false -> head_nonspace (replace_from old new 0 s) = false.
Proof.
  destruct s as [|c t]; [reflexivity|]. simpl head_nonspace at 1.
  intros H. apply negb_false_iff in H. rewrite (@replace_from_space c t H).
  simpl. now rewrite H.
Qed.

Hypothesis new_word : word new.

(** Replacing inside a text is replacing inside its words. *)
Lemma split_replace_from (n : nat) :
  forall s, length s <= n ->
    split (replace_from old new 0 s) = map (replace_from old new 0) (split s).
Proof.
  induction n as [|n IH]; intros s Hn.
  - destruct s; [reflexivity | simpl in Hn; lia].
  - destruct s as [|c t]; [reflexivity|].
    destruct (isspace c) eqn:Hc.
    + rewrite (@replace_from_space c t Hc). cbn [split]. rewrite Hc.
      apply IH. simpl in Hn. lia.
    + pose proof (take_drop_word (c :: t)) as E.
      assert (Hw : word (take_word (c :: t))).
      { split; [simpl; rewrite Hc; discriminate | apply take_word_nospace]. }
      assert (Hl : length (drop_word (c :: t)) <= n).
      { simpl. rewrite Hc. pose proof (drop_word_length t). simpl in Hn. lia. }
      assert (Hr : replace_from old new 0 (c :: t)
                   = replace_from old new 0 (take_word (c :: t))
                     ++ replace_from old new 0 (drop_word (c :: t))).
      { rewrite <- E at 1. pose proof (drop_word_head (c :: t)) as Hd.
        destruct (drop_word (c :: t)) as [|d r]; [now rewrite !app_nil_r|].
        simpl in Hd. apply negb_false_iff in Hd.
        rewrite (@replace_from_app_stop d 0 _ r (space_not_in_old d Hd) (le_0_n _)).
        now rewrite (@replace_from_space d r Hd). }
      rewrite Hr. rewrite <- E at 3.
      rewrite (@split_app_word _ _ Hw (drop_word_head (c :: t))). cbn [map].
      rewrite <- (IH _ Hl). apply split_app_word.
      * destruct old as [|a o] eqn:Eo; [contradiction|]. rewrite <- Eo in *.
        destruct Hw as [Hw1 Hw2], new_word as [Hn1 Hn2]. split.
        -- now apply replace_from_nonempty.
        -- now apply replace_from_forallb.
      * apply replace_from_head, drop_word_head.
Qed.

End Replace.

Lemma split_replace (old new s : str) :
  old <> [] -> nospace old -> word new ->
  split (replace old new s) = map (replace old new) (split s).
Proof.
  intros Ho Hs Hn. unfold replace. destruct old as [|a o] eqn:E; [contradiction|].
  rewrite <- E in *. now apply (split_replace_from Ho Hs Hn (n := length s)).
Qed.

(** A character map that keeps white space white and the rest not. *)
Lemma split_map (f : N -> N) (s : str) :
  (forall c, isspace (f c) = isspace c) ->
  split (map f s) = map (map f) (split s).
Proof.
  intros Hf. induction s as [|c t IH]; [reflexivity|].
  cbn [map split]. rewrite Hf.
  assert (Hh : head_nonspace (map f t) = head_nonspace t).
  { destruct t; [reflexivity|]. simpl. now rewrite Hf. }
  rewrite Hh, IH. destruct (isspace c); [reflexivity|].
  destruct (head_nonspace t); [|reflexivity].
  now destruct (split t).
Qed.

Lemma subst_nbsp_space (c : N) : isspace (subst_chr 160 32 c) = isspace c.
Proof.
  unfold subst_chr. destruct (N.eqb_spec 160 c) as [<-|]; reflexivity.
Qed.

Lemma subst_nbsp_word (w : str) : word w -> map (subst_chr 160 32) w = w.
Proof.
  intros [_ H]. apply map_subst_absent. now apply nospace_not_In.
Qed.

Lemma fix_rupee_word (w : str) : word w -> word (fix_rupee w).
Proof. intros H. apply replace_word; [discriminate | now split | exact H]. Qed.

Lemma fix_rupee_idem (w : str) : fix_rupee (fix_rupee w) = fix_rupee w.
Proof.
  unfold fix_rupee, replace. apply replace_from_absent.
  apply replace_from_clears; [discriminate|].
  simpl. intros [H|[H|[H|[]]]]; discriminate.
Qed.

(** [Screener.clean_text] word by word. *)
Lemma screener_clean_text_words (s : str) :
  Screener.clean_text s = join [32%N] (map fix_rupee (split s)).
Proof.
  unfold Screener.clean_text. destruct s as [|c s]; [reflexivity|].
  cbn [truthy negb]. f_equal.
  rewrite replace_chr, (split_map _ _ subst_nbsp_space).
  rewrite split_replace by (discriminate || now split).
  rewrite map_map. apply map_ext_Forall.
  eapply Forall_impl; [|apply split_words].
  intros w Hw. apply subst_nbsp_word. now apply fix_rupee_word.
Qed.

Lemma screener_clean_text_idem (s : str) :
  Screener.clean_text (Screener.clean_text s) = Screener.clean_text s.
Proof.
  rewrite !screener_clean_text_words.
  assert (Hw : Forall word (map fix_rupee (split s))).
  { apply Forall_map. eapply Forall_impl; [|apply split_words].
    intros w. apply fix_rupee_word. }
  rewrite (split_join Hw), map_map. f_equal.
  apply map_ext. intros w. apply fix_rupee_idem.
Qed.

(** The normalizer of [news_scraper.py] is the one of [scrapper.py]
    followed by the fix of the quotation mark. *)
Lemma news_clean_text_screener (s : str) :
  NewsScraper.clean_text s = replace [8217%N] [39%N] (Screener.clean_text s).
Proof.
  rewrite news_clean_text_words, screener_clean_text_words.
  rewrite replace_join by (discriminate || (simpl; intros [H|[]]; discriminate)).
  now rewrite map_map.
Qed.

Lemma screener_clean_text_detail (s : str) :
  contains [226; 8218; 185]%N s = false ->
  Screener.clean_text s = Detail.clean_text s.
Proof.
  intros H. rewrite detail_clean_text_words.
  unfold Screener.clean_text. destruct s as [|c s]; [reflexivity|].
  cbn [truthy negb]. f_equal. unfold replace at 2.
  rewrite (replace_from_absent _ _ _ H).
  rewrite replace_chr, (split_map _ _ subst_nbsp_space).
  rewrite <- (map_id (split (c :: s))) at 2. apply map_ext_Forall.
  eapply Forall_impl; [|apply split_words]. intros w. apply subst_nbsp_word.
Qed.

(** The characters of a normalized text. *)
Lemma join_incl (ws : list str) (c : N) :
  In c (join [32%N] ws) -> c = 32%N \/ exists w, In w ws /\ In c w.
Proof.
  induction ws as [|w r IH]; [intros []|].
  cbn [join]. destruct r as [|w' r].
  - intros H. right. exists w. split; [now left | exact H].
  - intros H. apply in_app_or in H as [H|[H|H]].
    + right. exists w. split; [now left | exact H].
    + now left.
    + apply IH in H as [H|[x [Hx Hc]]]; [now left|].
      right. exists x. split; [now right | exact Hc].
Qed.

Lemma push_incl (c : N) (ws : list str) (w : str) (x : N) :
  In w (push c ws) -> In x w -> x = c \/ exists w', In w' ws /\ In x w'.
Proof.
  destruct ws as [|w0 r]; cbn [push].
  - intros [<-|[]] [<-|[]]. now left.
  - intros [<-|H] Hx.
    + destruct Hx as [<-|Hx]; [now left|]. right. exists w0. split; [now left | exact Hx].
    + right. exists w. split; [now right | exact Hx].
Qed.

Lemma split_incl (s w : str) (x : N) : In w (split s) -> In x w -> In x s.
Proof.
  revert w. induction s as [|c t IH]; intros w; [intros []|].
  cbn [split]. destruct (isspace c).
  - intros Hw Hx. right. now apply (IH w).
  - destruct (head_nonspace t).
    + intros Hw Hx. destruct (@push_incl _ _ _ _ Hw Hx) as [->|[w' [Hw' Hx']]];
        [now left | right; now apply (IH w')].
    + intros [<-|Hw] Hx; [destruct Hx as [<-|[]]; now left|].
      right. now apply (IH w).
Qed.

Lemma detail_clean_text_news (s : str) :
  contains [226; 8218; 185]%N s = false -> ~ In 8217%N s ->
  NewsScraper.clean_text s = Detail.clean_text s.
Proof.
  intros Hp Hq. rewrite news_clean_text_screener, (@screener_clean_text_detail s Hp).
  rewrite replace_chr. apply map_subst_absent.
  rewrite detail_clean_text_words. intros H.
  apply join_incl in H as [H|[w [Hw Hc]]]; [discriminate|].
  apply Hq. now apply (@split_incl s w).
Qed.

(** ** The shape of a normalized text *)

Lemma join_words_no_double_space (ws : list str) :
  Forall word ws -> contains [32; 32]%N (join [32%N] ws) = false.
Proof.
  assert (Hw : forall w, nospace w -> forall tl,
                 contains [32; 32]%N tl = false ->
                 contains [32; 32]%N (w ++ tl) = false).
  { induction w as [|c w IH]; intros Hn tl Ht; [exact Ht|].
    apply nospace_cons in Hn as [Hc Hn]. cbn [app contains startswith].
    destruct (N.eqb_spec 32 c) as [<-|_]; [discriminate|].
    cbn [andb orb]. now apply IH. }
  induction 1 as [|w r [Hne Hn] Hr IH]; [reflexivity|].
  cbn [join]. destruct r as [|w' r].
  - rewrite <- (app_nil_r w). now apply Hw.
  - apply Hw; [exact Hn|].
    inversion Hr as [|? ? [Hne' Hn'] _]; subst.
    destruct w' as [|c' w']; [contradiction|].
    apply nospace_cons in Hn' as [Hc' _].
    match type of IH with
    | contains _ ?t = false =>
        assert (Ej : exists j, t = c' :: j)
          by (cbn [join]; destruct r; eexists; reflexivity);
        destruct Ej as [j Ej];
        change (contains [32; 32]%N ([32%N] ++ t) = false)
    end.
    rewrite Ej in IH |- *.
    cbn [contains] in IH. apply orb_false_iff in IH as [_ IH].
    cbn [app contains startswith]. rewrite IH.
    destruct (N.eqb_spec 32 c') as [<-|_]; [discriminate | reflexivity].
Qed.

Lemma join_words_spaces (ws : list str) :
  Forall word ws ->
  Forall (fun c => isspace c = true -> c = 32%N) (join [32%N] ws).
Proof.
  intros H. apply Forall_forall. intros c Hc Hs.
  apply join_incl in Hc as [Hc|[w [Hw Hc]]]; [exact Hc|].
  rewrite Forall_forall in H. destruct (H w Hw) as [_ Hn].
  exfalso. exact (nospace_not_In c Hs Hn Hc).
Qed.

Lemma join_split_length (s : str) :
  length (join [32%N] (split s)) <= length s
  /\ (head_nonspace s = false -> split s <> [] ->
      S (length (join [32%N] (split s))) <= length s).
Proof.
  induction s as [|c t [IH1 IH2]]; [split; [reflexivity | intros _ H; now contradiction H]|].
  cbn [split head_nonspace]. destruct (isspace c) eqn:Hc.
  - cbn [length negb]. split; [lia | intros _ _; lia].
  - cbn [negb]. split; [|discriminate].
    destruct (head_nonspace t) eqn:Hh.
    + destruct (split t) as [|w r] eqn:Es.
      * cbn. lia.
      * cbn [push]. assert (E : join [32%N] ((c :: w) :: r) = c :: join [32%N] (w :: r))
          by (cbn [join]; now destruct r).
        rewrite E. cbn [length]. lia.
    + destruct (split t) as [|w r] eqn:Es; [cbn; lia|].
      assert (E : join [32%N] ([c] :: w :: r) = c :: 32%N :: join [32%N] (w :: r))
        by reflexivity.
      rewrite E. cbn [length].
      assert (S (length (join [32%N] (w :: r))) <= length t)
        by (apply IH2; [reflexivity | discriminate]).
      lia.
Qed.

Lemma join_map_length (f : str -> str) (ws : list str) :
  (forall w, length (f w) <= length w) ->
  length (join [32%N] (map f ws)) <= length (join [32%N] ws).
Proof.
  intros Hf. induction ws as [|w r IH]; [reflexivity|].
  destruct r as [|w' r]; [cbn; apply Hf|].
  change (length (f w ++ [32%N] ++ join [32%N] (map f (w' :: r)))
          <= length (w ++ [32%N] ++ join [32%N] (w' :: r))).
  rewrite !length_app. pose proof (Hf w). lia.
Qed.

Lemma replace_from_length (old new : str) (k : nat) (s : str) :
  length new <= length old -> old <> [] ->
  length (replace_from old new k s) + min k (length s) <= length s.
Proof.
  intros Hn Ho. revert k. induction s as [|c t IH]; intros k; [cbn; lia|].
  destruct k as [|k]; cbn [replace_from].
  - destruct (startswith old (c :: t)) eqn:E.
    + apply startswith_length in E. cbn [length] in *.
      specialize (IH (length old - 1)). rewrite length_app.
      destruct old; [contradiction|]. cbn [length] in *. lia.
    + specialize (IH 0). cbn [length] in *. lia.
  - specialize (IH k). cbn [length]. lia.
Qed.

Lemma fix_word_length (w : str) : length (fix_word w) <= length w.
Proof.
  unfold fix_word, replace.
  pose proof (@replace_from_length [8217%N] [39%N] 0
                (replace_from [226; 8218; 185]%N [8377%N] 0 w)
                ltac:(cbn; lia) ltac:(discriminate)).
  pose proof (@replace_from_length [226; 8218; 185]%N [8377%N] 0 w
                ltac:(cbn; lia) ltac:(discriminate)).
  lia.
Qed.

Lemma fix_rupee_length (w : str) : length (fix_rupee w) <= length w.
Proof.
  unfold fix_rupee, replace.
  pose proof (@replace_from_length [226; 8218; 185]%N [8377%N] 0 w
                ltac:(cbn; lia) ltac:(discriminate)).
  lia.
Qed.

End Normalizers.

(** ** The page record of [detail.py] *)
Section PageFacts.
Import Py Dom Detail Siblings DetailPage.
Local Open Scope list_scope.
Local Open Scope nat_scope.

Lemma node_induction (P : node -> Prop) :
  (forall s, P (Text s)) ->
  (forall t a cs, Forall P cs -> P (Elem t a cs)) ->
  forall n, P n.
Proof.
  intros HT HE. fix IH 1. intros [s|t a cs]; [apply HT|].
  apply HE. induction cs as [|c r IHr]; constructor; [apply IH | exact IHr].
Qed.

(** The two traversals list the same elements in the same order. *)
Lemma place_elements (n : node) :
  forall anc after, map element (place after n) = map snd (entries anc n).
Proof.
  induction n as [s|t a cs IH] using node_induction; intros anc after;
    [reflexivity|].
  cbn [place entries].
  generalize (Elem t a cs :: anc) as anc'. intros anc'.
  induction IH as [|c r Hc _ IHr]; [reflexivity|].
  destruct c as [s|t' a' cs'].
  - cbn [flat_map app]. exact IHr.
  - cbn [flat_map]. cbn [app map snd element].
    rewrite !map_app. f_equal. f_equal; [apply Hc | exact IHr].
Qed.

Lemma placed_in_elements (soup : node) :
  map element (placed_in soup) = descendants soup.
Proof. apply place_elements. Qed.

Lemma label_elements_found (soup : node) :
  map element (label_elements soup) = find_all label_tags soup.
Proof.
  unfold label_elements, find_all. rewrite <- placed_in_elements.
  induction (placed_in soup) as [|p l IH]; [reflexivity|].
  cbn [filter map]. destruct (named label_tags (element p)); cbn [map];
    now rewrite IH.
Qed.

Lemma dict_set_In (k v : str) (d : dict) (x : str * str) :
  In x (dict_set k v d) -> x = (k, v) \/ In x d.
Proof.
  induction d as [|[k' v'] r IH]; cbn [dict_set].
  - intros [<-|[]]. now left.
  - destruct (eqb k k') eqn:E.
    + apply str_eqb_eq in E as ->. intros [<-|H]; [now left | right; now right].
    + intros [<-|H]; [right; now left|].
      destruct (IH H) as [->|H']; [now left | right; now right].
Qed.

Lemma dict_set_NoDup (k v : str) (d : dict) :
  NoDup (map fst d) -> NoDup (map fst (dict_set k v d)).
Proof.
  intros H. rewrite dict_keys_set. destruct (mem k (map fst d)) eqn:E; [exact H|].
  apply mem_not_In in E. apply NoDup_app; [exact H | repeat constructor; intros [] |].
  intros x Hx [<-|[]]. contradiction.
Qed.

(** A cleaned text is a fixed point of the normalizer. *)
Lemma detail_clean_text_fixed (s : str) : clean_text (clean_text s) = clean_text s.
Proof. apply detail_clean_text_idem. Qed.

Lemma associated_value_clean (dt : placed) (v : str) :
  associated_value dt = Some v -> clean_text v = v.
Proof.
  unfold associated_value.
  destruct (find_next_sibling [lit "dd"] dt) as [dd|];
    destruct (find_next_sibling_tag dt) as [e|];
    destruct (parent_find_next_sibling dt) as [q|];
    repeat (cbn [truthy_value negb];
            match goal with
            | |- context [truthy ?x] => destruct (truthy x)
            | |- context [mem ?x ?y] => destruct (mem x y)
            end);
    cbn [truthy_value negb]; try discriminate;
    intros [= <-]; apply detail_clean_text_fixed.
Qed.

Lemma key_value_step_In (soup : node) (d : dict) (dt : placed) (x : str * str) :
  In dt (label_elements soup) ->
  In x (key_value_step d dt) ->
  In x d \/ stored_pair soup x.
Proof.
  intros Hdt. unfold key_value_step.
  destruct (negb (truthy (clean_text (get_text (element dt))))
            || (100 <? length (clean_text (get_text (element dt))))) eqn:G;
    [now left|].
  destruct (associated_value dt) as [v|] eqn:V; [|now left].
  destruct (truthy v && (length v <? 500)) eqn:W; [|now left].
  intros H. apply dict_set_In in H as [->|H]; [right | now left].
  apply orb_false_iff in G as [G1 G2]. apply negb_false_iff in G1.
  apply Nat.ltb_ge in G2. apply andb_true_iff in W as [W1 W2].
  apply Nat.ltb_lt in W2.
  split; [|split; [|split]]; cbn [fst snd].
  - exists (element dt). split; [|reflexivity].
    rewrite <- label_elements_found. now apply in_map.
  - split; [|exact G2].
    destruct (clean_text (get_text (element dt))); [discriminate | cbn; lia].
  - split; [|exact W2]. destruct v; [discriminate | cbn; lia].
  - exact (associated_value_clean dt V).
Qed.

Lemma key_value_step_NoDup (d : dict) (dt : placed) :
  NoDup (map fst d) -> NoDup (map fst (key_value_step d dt)).
Proof.
  intros H. unfold key_value_step.
  destruct (negb _ || _); [exact H|].
  destruct (associated_value dt) as [v|]; [|exact H].
  destruct (truthy v && _); [now apply dict_set_NoDup | exact H].
Qed.

Lemma key_value_fold (soup : node) (l : list placed) :
  forall d,
    incl l (label_elements soup) ->
    NoDup (map fst d) -> Forall (stored_pair soup) d ->
    NoDup (map fst (fold_left key_value_step l d))
    /\ Forall (stored_pair soup) (fold_left key_value_step l d).
Proof.
  induction l as [|dt l IH]; intros d Hl Hn Hf; [now split|].
  cbn [fold_left]. apply IH.
  - intros x Hx. apply Hl. now right.
  - now apply key_value_step_NoDup.
  - apply Forall_forall. intros x Hx.
    apply (@key_value_step_In soup d dt x) in Hx; [|apply Hl; now left].
    destruct Hx as [Hx|Hx]; [|exact Hx].
    rewrite Forall_forall in Hf. now apply Hf.
Qed.

(** A key that is stored again keeps its place and takes the new value. *)
Lemma dict_get_set_same (k v : str) (d : dict) : dict_get k (dict_set k v d) = Some v.
Proof. rewrite dict_get_set. now rewrite str_eqb_refl. Qed.

(** *** Headings *)

Lemma headings_of_spec (soup : node) (tag h : str) :
  In h (headings_of soup tag) <->
  h <> [] /\ exists e, In e (find_all [tag] soup) /\ h = clean_text (get_text e).
Proof.
  unfold headings_of. rewrite filter_In, in_map_iff. split.
  - intros [[e [<- He]] Ht]. split; [|now exists e].
    intros E. now rewrite E in Ht.
  - intros [Hh [e [He ->]]]. split; [now exists e|].
    destruct (clean_text (get_text e)); [contradiction | reflexivity].
Qed.

Lemma page_headings_In (soup : node) (tag : str) (hs : list str) :
  In (tag, hs) (page_headings soup) <->
  In tag heading_tags /\ hs = headings_of soup tag /\ hs <> [].
Proof.
  unfold page_headings. rewrite in_flat_map. split.
  - intros [t [Ht H]]. destruct (headings_of soup t) eqn:E; [destruct H|].
    destruct H as [[= <- <-]|[]]. split; [exact Ht|]. split; [now rewrite E|].
    discriminate.
  - intros [Ht [-> Hn]]. exists tag. split; [exact Ht|].
    destruct (headings_of soup tag); [contradiction | now left].
Qed.

Lemma page_headings_keys (soup : node) : NoDup (map fst (page_headings soup)).
Proof.
  unfold page_headings.
  assert (H : NoDup heading_tags).
  { unfold heading_tags.
    repeat (constructor; [vm_compute; intuition discriminate|]). constructor. }
  revert H. induction heading_tags as [|t l IH]; intros H; [constructor|].
  inversion H as [|? ? Hn Hl]; subst. cbn [flat_map]. rewrite map_app.
  apply NoDup_app; [| now apply IH |].
  - destruct (headings_of soup t); cbn; repeat constructor. intros [].
  - intros x Hx Hx'. apply Hn.
    destruct (headings_of soup t); [destruct Hx|].
    destruct Hx as [<-|[]]. cbn [fst].
    apply in_map_iff in Hx' as [[t' hs] [E Hin]]. cbn [fst] in E. subst t'.
    apply in_flat_map in Hin as [t' [Ht' Hin]].
    destruct (headings_of soup t'); [destruct Hin|].
    destruct Hin as [[= -> _]|[]]. exact Ht'.
Qed.

Lemma heading_named (e : node) :
  named heading_tags e = true -> In (name e) heading_tags.
Proof. unfold named. apply mem_In. Qed.

Lemma find_all_app_l (names more : list str) (soup e : node) :
  In e (find_all (names ++ more) soup) -> named names e = true ->
  In e (find_all [name e] soup).
Proof.
  unfold find_all. rewrite !filter_In. intros [H _] _. split; [exact H|].
  unfold named, mem. cbn [existsb]. now rewrite str_eqb_refl.
Qed.

(** A section with a heading text has that text under its level in
    [headings]. *)
Lemma section_heading_listed (soup : node) (s : section) :
  In s (extract_content_sections soup) -> heading s <> [] ->
  exists tag hs,
    In (tag, hs) (page_headings soup) /\ In (heading s) hs
    /\ heading_level tag = level s.
Proof.
  intros Hs Hh. unfold extract_content_sections in Hs.
  pose proof (build_sections_from (find_all (heading_tags ++ block_tags) soup)) as F.
  rewrite Forall_forall in F. destruct (F s Hs) as [[e [He [Hn [Eh El]]]] _].
  exists (name e), (headings_of soup (name e)).
  assert (Hin : In (heading s) (headings_of soup (name e))).
  { apply headings_of_spec. split; [exact Hh|]. exists e. split; [|exact Eh].
    now apply (find_all_app_l heading_tags block_tags). }
  split; [|split; [exact Hin | now rewrite El]].
  apply page_headings_In. split; [now apply heading_named|]. split; [reflexivity|].
  intros E. now rewrite E in Hin.
Qed.

End PageFacts.

(** ** The tabs of [scrape_all_tabs] *)
Section TabFacts.
Import Py Dom Detail Siblings DetailPage.
Local Open Scope list_scope.
Local Open Scope nat_scope.

Lemma compare_eq (a b : str) : compare a b = Eq <-> a = b.
Proof.
  revert b. induction a as [|x a IH]; intros [|y b]; cbn [compare];
    try (split; [discriminate | discriminate]); [tauto|].
  destruct (N.compare_spec x y) as [->|H|H].
  - rewrite IH. split; [now intros -> | now intros [= ->]].
  - split; [discriminate | intros [= -> _]; lia].
  - split; [discriminate | intros [= -> _]; lia].
Qed.

Lemma compare_antisym (a b : str) : compare b a = CompOpp (compare a b).
Proof.
  revert b. induction a as [|x a IH]; intros [|y b]; cbn [compare]; try reflexivity.
  rewrite (N.compare_antisym x y).
  destruct (x ?= y)%N; cbn [CompOpp]; [apply IH | reflexivity | reflexivity].
Qed.

Lemma item_ltb_asym (x y : str * str) : item_ltb y x = true -> item_ltb x y = false.
Proof.
  unfold item_ltb. rewrite (compare_antisym (fst y) (fst x)).
  rewrite (compare_antisym (snd y) (snd x)).
  destruct (compare (fst y) (fst x)); cbn [CompOpp]; try discriminate; try reflexivity.
  destruct (compare (snd y) (snd x)); cbn [CompOpp]; try discriminate; reflexivity.
Qed.

Lemma insert_In (x y : str * str) (l : list (str * str)) :
  In y (insert x l) <-> y = x \/ In y l.
Proof.
  induction l as [|z r IH]; cbn [insert].
  - cbn. intuition.
  - destruct (item_ltb z x); cbn [In]; [rewrite IH|]; intuition.
Qed.

Lemma sorted_In (y : str * str) (l : list (str * str)) :
  In y (sorted l) <-> In y l.
Proof.
  unfold sorted. induction l as [|x r IH]; [tauto|].
  cbn [fold_right In]. rewrite insert_In, IH. intuition.
Qed.

Lemma insert_NoDup (A : Type) (f : str * str -> A) (x : str * str)
    (l : list (str * str)) :
  NoDup (map f (x :: l)) -> NoDup (map f (insert x l)).
Proof.
  induction l as [|z r IH]; intros H; [exact H|].
  cbn [insert]. destruct (item_ltb z x); [|exact H].
  cbn [map] in *. inversion H as [|? ? Hx Hr]; subst.
  inversion Hr as [|? ? Hz Hr']; subst. constructor.
  - intros Hin. apply in_map_iff in Hin as [w [Ew Hw]].
    apply insert_In in Hw as [->|Hw].
    + apply Hx. left. now symmetry.
    + apply Hz. rewrite <- Ew. now apply in_map.
  - apply IH. constructor; [|exact Hr']. intros Hin. apply Hx. now right.
Qed.

Lemma sorted_NoDup (A : Type) (f : str * str -> A) (l : list (str * str)) :
  NoDup (map f l) -> NoDup (map f (sorted l)).
Proof.
  unfold sorted. induction l as [|x r IH]; intros H; [constructor|].
  cbn [fold_right]. apply insert_NoDup. cbn [map] in *.
  inversion H as [|? ? Hx Hr]; subst. constructor; [|apply IH; exact Hr].
  intros Hin. apply Hx. apply in_map_iff in Hin as [w [Ew Hw]].
  apply (sorted_In w r) in Hw. rewrite <- Ew. now apply in_map.
Qed.

Lemma chain_cons (A : Type) (R : A -> A -> Prop) (a : A) (l : list A) :
  chain R (a :: l) <-> match l with [] => True | b :: _ => R a b end /\ chain R l.
Proof. destruct l; cbn [chain]; tauto. Qed.

Lemma insert_chain (x : str * str) (l : list (str * str)) :
  chain (fun a b => item_ltb b a = false) l ->
  chain (fun a b => item_ltb b a = false) (insert x l).
Proof.
  induction l as [|z r IH]; intros H; [exact I|].
  cbn [insert]. destruct (item_ltb z x) eqn:E.
  - apply chain_cons in H as [Hz Hr]. apply chain_cons. split; [|now apply IH].
    destruct r as [|w r]; cbn [insert]; [now apply item_ltb_asym|].
    destruct (item_ltb w x); [exact Hz | now apply item_ltb_asym].
  - apply chain_cons. split; [exact E | exact H].
Qed.

Lemma sorted_chain (l : list (str * str)) :
  chain (fun a b => item_ltb b a = false) (sorted l).
Proof.
  unfold sorted. induction l as [|x r IH]; [exact I|].
  cbn [fold_right]. now apply insert_chain.
Qed.

(** With distinct names the order of the pairs is the order of the names. *)
Lemma chain_names (l : list (str * str)) :
  NoDup (map fst l) ->
  chain (fun a b => item_ltb b a = false) l -> ascending (map fst l).
Proof.
  unfold ascending. induction l as [|x r IH]; intros Hn H; [exact I|].
  cbn [map]. apply chain_cons in H as [Hx Hr]. apply chain_cons.
  inversion Hn as [|? ? Hx' Hn']; subst. split; [|now apply IH].
  destruct r as [|y r]; [exact I|]. cbn [map].
  unfold item_ltb in Hx. rewrite (compare_antisym (fst x) (fst y)) in Hx.
  destruct (compare (fst x) (fst y)) eqn:E; cbn [CompOpp] in Hx.
  - exfalso. apply Hx'. left. symmetry. now apply compare_eq.
  - reflexivity.
  - discriminate.
Qed.

Lemma dict_set_fresh (k v : str) (d : dict) :
  ~ In k (map fst d) -> dict_set k v d = d ++ [(k, v)].
Proof.
  induction d as [|[k' v'] r IH]; intros H; [reflexivity|].
  cbn [dict_set]. destruct (eqb k k') eqn:E.
  - exfalso. apply H. left. apply str_eqb_eq in E. now symmetry.
  - cbn [app]. f_equal. apply IH. intros Hin. apply H. now right.
Qed.

Lemma dict_set_has (k v : str) (d : dict) : In (k, v) (dict_set k v d).
Proof.
  induction d as [|[k' v'] r IH]; cbn [dict_set]; [now left|].
  destruct (eqb k k') eqn:E; [|now right].
  apply str_eqb_eq in E as ->. now left.
Qed.

Lemma dict_of_fold_NoDup (l d : list (str * str)) :
  NoDup (map fst (d ++ l)) ->
  fold_left (fun d kv => dict_set (fst kv) (snd kv) d) l d = d ++ l.
Proof.
  revert d. induction l as [|[k v] l IH]; intros d H; [now rewrite app_nil_r|].
  cbn [fold_left fst snd]. rewrite dict_set_fresh.
  - rewrite IH; rewrite <- app_assoc; [reflexivity | exact H].
  - rewrite map_app in H. cbn [map fst] in H.
    apply NoDup_remove_2 in H. intros Hin. apply H. apply in_or_app. now left.
Qed.

Lemma dict_of_NoDup (l : list (str * str)) :
  NoDup (map fst l) -> dict_of l = l.
Proof. intros H. unfold dict_of. now rewrite dict_of_fold_NoDup. Qed.

Lemma set_item_fresh (V : Type) (k : str) (v : V) (d : list (str * V)) :
  ~ In k (map fst d) -> set_item k v d = d ++ [(k, v)].
Proof.
  induction d as [|[k' v'] r IH]; intros H; [reflexivity|].
  cbn [set_item]. destruct (eqb k k') eqn:E.
  - exfalso. apply H. left. apply str_eqb_eq in E. now symmetry.
  - cbn [app]. f_equal. apply IH. intros Hin. apply H. now right.
Qed.

Lemma set_item_fold (V : Type) (f : str -> V) (l : list (str * str)) :
  forall d : list (str * V),
    NoDup (map fst d ++ map fst l) ->
    fold_left (fun tabs item => set_item (fst item) (f (snd item)) tabs) l d
    = d ++ map (fun item => (fst item, f (snd item))) l.
Proof.
  induction l as [|[k u] l IH]; intros d H; [now rewrite app_nil_r|].
  cbn [fold_left map fst snd] in *. rewrite set_item_fresh.
  - rewrite IH.
    + now rewrite <- app_assoc.
    + rewrite map_app. cbn [map fst]. rewrite <- app_assoc. exact H.
  - apply NoDup_remove_2 in H. intros Hin. apply H. apply in_or_app. now left.
Qed.

(** *** The loop that drops the repeated URLs *)
Lemma unique_fold (items : list (str * str)) :
  forall seen uniq,
    NoDup (map fst (uniq ++ items)) ->
    (forall u, In u seen <-> In u (map snd uniq)) ->
    NoDup (map snd uniq) ->
    let result := snd (fold_left unique_step items (seen, uniq)) in
    incl result (uniq ++ items)
    /\ NoDup (map snd result)
    /\ NoDup (map fst result)
    /\ (forall u, In u (map snd (uniq ++ items)) -> In u (map snd result)).
Proof.
  induction items as [|[n u] items IH]; intros seen uniq Hn Hs Hu.
  - cbn [fold_left snd]. rewrite app_nil_r in *. split; [apply incl_refl|].
    split; [exact Hu|]. split; [exact Hn | auto].
  - cbn [fold_left unique_step]. destruct (mem u seen) eqn:E.
    + assert (Hn' : NoDup (map fst (uniq ++ items))).
      { rewrite map_app in *. cbn [map fst] in Hn. now apply NoDup_remove_1 in Hn. }
      destruct (IH seen uniq Hn' Hs Hu) as [H1 [H2 [H3 H4]]].
      split; [|split; [exact H2|split; [exact H3|]]].
      * intros x Hx. apply H1 in Hx. apply in_app_or in Hx as [Hx|Hx];
          apply in_or_app; [now left | right; now right].
      * intros w Hw. rewrite map_app in Hw. cbn [map snd] in Hw.
        apply in_app_or in Hw as [Hw|[<-|Hw]]; apply H4; rewrite map_app;
          apply in_or_app; [now left | left | now right].
        apply Hs. now apply mem_In.
    + apply mem_not_In in E.
      assert (Hfresh : ~ In n (map fst uniq)).
      { rewrite map_app in Hn. cbn [map fst] in Hn. apply NoDup_remove_2 in Hn.
        intros Hin. apply Hn. apply in_or_app. now left. }
      rewrite (@dict_set_fresh n u uniq Hfresh).
      assert (Hn' : NoDup (map fst ((uniq ++ [(n, u)]) ++ items)))
        by now rewrite <- app_assoc.
      assert (Hs' : forall w, In w (u :: seen) <-> In w (map snd (uniq ++ [(n, u)]))).
      { intros w. rewrite map_app, in_app_iff. cbn [map snd In]. rewrite Hs. tauto. }
      assert (Hu' : NoDup (map snd (uniq ++ [(n, u)]))).
      { rewrite map_app. cbn [map snd]. apply NoDup_app; [exact Hu | | ].
        - repeat constructor. intros [].
        - intros w Hw [<-|[]]. apply E. now apply Hs. }
      destruct (IH (u :: seen) (uniq ++ [(n, u)]) Hn' Hs' Hu') as [H1 [H2 [H3 H4]]].
      rewrite <- app_assoc in H1, H4. cbn [app] in H1, H4. auto.
Qed.

Section Tabs.
Variable urljoin : str -> str -> option str.
Variable url_path : str -> option str.
Variable scrape_page : str -> option page_result.

(** Once [urljoin] has raised, the loop is over. *)
Lemma tab_step_raised (base_url : str) (l : list node) :
  fold_left (tab_step urljoin base_url) l None = None.
Proof. induction l as [|a l IH]; [reflexivity | exact IH]. Qed.

Lemma tab_step_some (base_url : str) (d d' : dict) (a : node) :
  tab_step urljoin base_url (Some d) a = Some d' ->
  (clean_text (get_text a) = [] /\ d' = d)
  \/ (clean_text (get_text a) <> []
      /\ exists tab_url,
           urljoin base_url (get (lit "href") a) = Some tab_url
           /\ d' = dict_set (clean_text (get_text a)) tab_url d).
Proof.
  unfold tab_step. destruct (clean_text (get_text a)) as [|c r] eqn:E.
  - cbn. intros [= <-]. now left.
  - cbn [truthy negb]. destruct (urljoin base_url (get (lit "href") a)) as [u|];
      [|discriminate].
    intros [= <-]. right. split; [discriminate|]. now exists u.
Qed.

Lemma tab_step_none (base_url : str) (d : dict) (a : node) :
  tab_step urljoin base_url (Some d) a = None <->
  clean_text (get_text a) <> [] /\ urljoin base_url (get (lit "href") a) = None.
Proof.
  unfold tab_step. destruct (clean_text (get_text a)) as [|c r] eqn:E.
  - cbn. split; [discriminate | intros [H _]; now contradiction H].
  - cbn [truthy negb]. destruct (urljoin base_url (get (lit "href") a)) as [u|].
    + split; [discriminate | intros [_ H]; discriminate H].
    + split; [intros _; split; [discriminate | reflexivity] | reflexivity].
Qed.

Lemma tab_step_fold (soup : node) (base_url : str) (l : list node) :
  forall d d',
    incl l (nav_tabs soup) ->
    NoDup (map fst d) -> Forall (tab_of urljoin soup base_url) d ->
    fold_left (tab_step urljoin base_url) l (Some d) = Some d' ->
    NoDup (map fst d') /\ Forall (tab_of urljoin soup base_url) d'.
Proof.
  induction l as [|a l IH]; intros d d' Hl Hn Hf E.
  - injection E as <-. now split.
  - cbn [fold_left] in E.
    destruct (tab_step urljoin base_url (Some d) a) as [d1|] eqn:S;
      [|now rewrite tab_step_raised in E].
    apply (IH d1 d'); [intros x Hx; apply Hl; now right | | | exact E];
      apply tab_step_some in S as [[_ ->]|[Hne [u [Hu ->]]]]; try assumption.
    + now apply dict_set_NoDup.
    + apply Forall_forall. intros x Hx. apply dict_set_In in Hx as [->|Hx].
      * right. exists a. split; [apply Hl; now left|]. split; [reflexivity|].
        split; [exact Hne | exact Hu].
      * rewrite Forall_forall in Hf. now apply Hf.
Qed.

(** The loop ends by an exception exactly when one of the anchors has a
    name and a destination that cannot be resolved. *)
Lemma tab_step_fold_none (base_url : str) (l : list node) :
  forall d,
    fold_left (tab_step urljoin base_url) l (Some d) = None <->
    exists a, In a l /\ clean_text (get_text a) <> []
              /\ urljoin base_url (get (lit "href") a) = None.
Proof.
  induction l as [|a l IH]; intros d; cbn [fold_left].
  - split; [discriminate | intros [a [[] _]]].
  - destruct (tab_step urljoin base_url (Some d) a) as [d1|] eqn:S.
    + rewrite IH. split.
      * intros [x [Hx H]]. exists x. split; [now right | exact H].
      * intros [x [[<-|Hx] H]]; [|exists x; now split].
        apply (tab_step_none base_url d a) in H. rewrite H in S. discriminate.
    + rewrite tab_step_raised. split; [|reflexivity].
      intros _. exists a. split; [now left|].
      exact (proj1 (tab_step_none base_url d a) S).
Qed.

Lemma tab_links_none (soup : node) (base_url : str) :
  tab_links urljoin soup base_url = None <->
  exists a, unresolved_tab urljoin soup base_url a.
Proof.
  unfold unresolved_tab.
  rewrite <- (tab_step_fold_none base_url (nav_tabs soup) []).
  assert (G : forall (A B : Type) (f : A -> B) (o : option A),
             match o with Some x => Some (f x) | None => None end = None
             <-> o = None)
    by (intros A B f [x|]; split; intros H; try discriminate H; reflexivity).
  apply G.
Qed.

(** The tabs before the repeated URLs are dropped. *)
Lemma named_tabs (soup : node) (base_url : str) (found : dict) :
  fold_left (tab_step urljoin base_url) (nav_tabs soup) (Some []) = Some found ->
  let named_tabs := dict_set (lit "IPO Detail") base_url found in
  NoDup (map fst named_tabs)
  /\ Forall (tab_of urljoin soup base_url) named_tabs
  /\ In base_url (map snd named_tabs).
Proof.
  intros E named_tabs.
  destruct (@tab_step_fold soup base_url (nav_tabs soup) [] found (incl_refl _)
              (NoDup_nil _) (Forall_nil _) E) as [H1 H2].
  split; [now apply dict_set_NoDup|]. split.
  - apply Forall_forall. intros x Hx. apply dict_set_In in Hx as [->|Hx];
      [now left|]. rewrite Forall_forall in H2. now apply H2.
  - apply in_map_iff. exists (lit "IPO Detail", base_url). split; [reflexivity|].
    apply dict_set_has.
Qed.

Lemma tab_links_sorted (soup : node) (base_url : str) (links : dict) :
  tab_links urljoin soup base_url = Some links ->
  exists unique_tabs,
    links = sorted unique_tabs
    /\ NoDup (map fst unique_tabs)
    /\ NoDup (map snd unique_tabs)
    /\ Forall (tab_of urljoin soup base_url) unique_tabs
    /\ In base_url (map snd unique_tabs).
Proof.
  unfold tab_links.
  destruct (fold_left (tab_step urljoin base_url) (nav_tabs soup) (Some []))
    as [found|] eqn:E; [|discriminate].
  intros [= <-].
  destruct (@named_tabs soup base_url found E) as [H1 [H2 H3]].
  set (named := dict_set (lit "IPO Detail") base_url found) in H1, H2, H3 |- *.
  destruct (@unique_fold named [] []) as [U1 [U2 [U3 U4]]];
    [exact H1 | intros w; cbn; split; intros [] | constructor |].
  cbn [app] in U1, U4.
  exists (snd (fold_left unique_step named ([], []))).
  split; [|split; [exact U3 | split; [exact U2 | split]]].
  - apply dict_of_NoDup. now apply sorted_NoDup.
  - apply Forall_forall. intros x Hx. rewrite Forall_forall in H2.
    apply H2. now apply U1.
  - now apply U4.
Qed.

Lemma tab_links_facts (soup : node) (base_url : str) (links : dict) :
  tab_links urljoin soup base_url = Some links ->
  ascending (map fst links)
  /\ NoDup (map fst links)
  /\ NoDup (map snd links)
  /\ Forall (tab_of urljoin soup base_url) links
  /\ In base_url (map snd links).
Proof.
  intros E.
  destruct (@tab_links_sorted soup base_url links E) as [u [-> [H1 [H2 [H3 H4]]]]].
  assert (Hn : NoDup (map fst (sorted u))) by now apply sorted_NoDup.
  split; [apply chain_names; [exact Hn | apply sorted_chain]|].
  split; [exact Hn|]. split; [now apply sorted_NoDup|]. split.
  - apply Forall_forall. intros x Hx. apply (proj1 (sorted_In x u)) in Hx.
    rewrite Forall_forall in H3. now apply H3.
  - apply in_map_iff in H4 as [x [Ex Hx]]. apply in_map_iff. exists x.
    split; [exact Ex | exact (proj2 (sorted_In x u) Hx)].
Qed.

Lemma scrape_all_tabs_all (soup : node) (base_url path : str) (links : dict) :
  url_path base_url = Some path ->
  tab_links urljoin soup base_url = Some links ->
  scrape_all_tabs urljoin url_path scrape_page (Some soup) base_url
  = All (AllData base_url (slug_of_path path)
           (map (fun item => (fst item, tab_data scrape_page (snd item))) links)).
Proof.
  intros Hp Hl. unfold scrape_all_tabs. rewrite Hp, Hl. f_equal. f_equal.
  rewrite set_item_fold; [reflexivity|]. cbn [map app].
  apply (@tab_links_facts soup base_url links Hl).
Qed.

Lemma scrape_all_tabs_raises (soup : node) (base_url : str) :
  scrape_all_tabs urljoin url_path scrape_page (Some soup) base_url = AllRaises <->
  url_path base_url = None \/ tab_links urljoin soup base_url = None.
Proof.
  unfold scrape_all_tabs. destruct (url_path base_url) as [path|].
  - destruct (tab_links urljoin soup base_url) as [links|].
    + split; [discriminate | intros [H|H]; discriminate H].
    + split; [now right | reflexivity].
  - split; [now left | reflexivity].
Qed.

End Tabs.

(** *** The company slug *)
Lemma push_no_sep (sep c : N) (ws : list str) :
  c <> sep -> Forall (fun w => ~ In sep w) ws -> Forall (fun w => ~ In sep w) (push c ws).
Proof.
  intros Hc H. destruct ws as [|w r]; cbn [push].
  - constructor; [|constructor]. intros [E|[]]. now apply Hc.
  - inversion H; subst. constructor; [|assumption].
    intros [E|Hin]; [now apply Hc | contradiction].
Qed.

Lemma split_chr_no_sep (sep : N) (s : str) :
  Forall (fun w => ~ In sep w) (split_chr sep s).
Proof.
  induction s as [|c t IH]; cbn [split_chr].
  - constructor; [intros [] | constructor].
  - destruct (N.eqb_spec c sep) as [->|Hc].
    + constructor; [intros [] | exact IH].
    + now apply push_no_sep.
Qed.

Lemma slug_of_path_no_slash (path : str) : ~ In 47%N (slug_of_path path).
Proof.
  unfold slug_of_path.
  destruct (nth_error (split_chr 47 path) 2) as [seg|] eqn:E.
  - apply nth_error_In in E. pose proof (split_chr_no_sep 47 path) as F.
    rewrite Forall_forall in F. now apply F.
  - intros H. unfold strip_chr, strip_by in H.
    apply rstrip_incl, lstrip_incl in H.
    change (lit "/") with [47%N] in H. change (lit "_") with [95%N] in H.
    rewrite replace_chr in H. apply in_map_iff in H as [c [Hc _]].
    unfold subst_chr in Hc. destruct (N.eqb_spec 47 c); [discriminate | congruence].
Qed.

Lemma company_slug_no_slash (url_path : str -> str) (base_url : str) :
  ~ In 47%N (company_slug url_path base_url).
Proof. apply slug_of_path_no_slash. Qed.

End TabFacts.

(** ** The dates of [news_scraper.py] *)
Section DateFacts.
Import Py Dom NewsScraper Siblings NewsDates.
Local Open Scope list_scope.
Local Open Scope nat_scope.

Lemma contains_app_l (x u v : str) :
  contains x u = true -> contains x (u ++ v) = true.
Proof.
  induction u as [|c u IH]; cbn [contains app].
  - rewrite orb_false_r. intros H. destruct x; [|discriminate].
    now destruct v.
  - intros H. apply orb_true_iff in H as [H|H]; apply orb_true_iff.
    + left. exact (@startswith_app_l x (c :: u) v H).
    + right. now apply IH.
Qed.

Lemma contains_app_stop (c : N) (x u : str) :
  ~ In c x -> x <> [] -> contains x (u ++ [c]) = contains x u.
Proof.
  intros Hc Hx. induction u as [|d u IH].
  - cbn [app contains]. destruct x as [|a x]; [contradiction|].
    cbn [startswith]. destruct (N.eqb_spec a c) as [->|_]; [|reflexivity].
    exfalso. apply Hc. now left.
  - cbn [app contains]. rewrite IH. f_equal.
    exact (@startswith_app_stop c x (d :: u) [] Hc).
Qed.

(** *** The year and the ends of a string *)

Lemma year_here_app_l (w r : str) :
  year_here w = true -> year_here (w ++ r) = true /\ firstn 4 (w ++ r) = firstn 4 w.
Proof.
  destruct w as [|a [|b [|c [|d w]]]]; try discriminate. intros H. now split.
Qed.

Lemma year_here_app_nondigit (w r : str) :
  w <> [] -> match r with [] => True | c :: _ => isdigit c = false end ->
  year_here (w ++ r) = year_here w.
Proof.
  intros Hw Hr.
  destruct w as [|a [|b [|c [|d w]]]]; [contradiction| | | |reflexivity];
    destruct r as [|x [|y [|z r]]]; try reflexivity; cbn [app year_here];
    unfold isdigit in Hr;
    repeat match goal with
           | |- context [(?p =? ?q)%N] => destruct (N.eqb_spec p q); subst
           end;
    cbn [andb orb]; try reflexivity; try discriminate;
    repeat match goal with
           | |- context [(?p <=? ?q)%N] => destruct (N.leb_spec p q)
           end;
    cbn [andb orb]; try reflexivity; try discriminate;
    exfalso; revert Hr;
    repeat match goal with
           | |- context [(?p <=? ?q)%N] => destruct (N.leb_spec p q)
           end; cbn [andb]; try discriminate; intros; lia.
Qed.

Lemma search_year_app_l (p r : str) :
  match r with [] => True | c :: _ => isdigit c = false end ->
  search_year r = None ->
  search_year (p ++ r) = search_year p.
Proof.
  intros Hh Hr. induction p as [|c p IH]; [exact Hr|].
  cbn [app search_year].
  change (c :: p ++ r) with ((c :: p) ++ r).
  rewrite (@year_here_app_nondigit (c :: p) r) by (discriminate || exact Hh).
  destruct (year_here (c :: p)) eqn:E; [|exact IH].
  now rewrite (proj2 (@year_here_app_l (c :: p) r E)).
Qed.

(** What is cut off the end of a date string takes no year with it when
    it holds none and does not start with a digit. *)
Lemma validate_date_prefix (p r : str) :
  match r with [] => True | c :: _ => isdigit c = false end ->
  search_year r = None ->
  validate_date (p ++ r) = true -> validate_date p = true.
Proof.
  intros Hh Hr H. apply validate_date_iff in H as [H1 [H2 [y [Hy Hrange]]]].
  rewrite (@search_year_app_l p r Hh Hr) in Hy.
  apply validate_date_iff. split; [|split].
  - destruct (contains (lit "00-00") p) eqn:E; [|reflexivity].
    now rewrite (@contains_app_l _ p r E) in H1.
  - destruct (contains (lit "00/00") p) eqn:E; [|reflexivity].
    now rewrite (@contains_app_l _ p r E) in H2.
  - now exists y.
Qed.

Lemma validate_date_line_feed (p : str) :
  validate_date p = true -> validate_date (p ++ [10%N]) = true.
Proof.
  intros H. apply validate_date_iff in H as [H1 [H2 [y [Hy Hrange]]]].
  apply validate_date_iff. split; [|split].
  - rewrite contains_app_stop; [exact H1 | | discriminate].
    vm_compute. intuition discriminate.
  - rewrite contains_app_stop; [exact H2 | | discriminate].
    vm_compute. intuition discriminate.
  - exists y. split; [|exact Hrange].
    rewrite search_year_app_l; [exact Hy | reflexivity | reflexivity].
Qed.

Lemma validate_date_space (c : N) (s : str) :
  isspace c = true -> validate_date (c :: s) = true -> validate_date s = true.
Proof.
  intros Hc H. apply validate_date_iff in H as [H1 [H2 [y [Hy Hrange]]]].
  apply validate_date_iff. cbn [contains] in H1, H2.
  apply orb_false_iff in H1 as [_ H1]. apply orb_false_iff in H2 as [_ H2].
  split; [exact H1|]. split; [exact H2|]. exists y. split; [|exact Hrange].
  cbn [search_year] in Hy.
  assert (E : year_here (c :: s) = false).
  { destruct s as [|b [|d [|e s]]]; try reflexivity. cbn [year_here].
    destruct (N.eqb_spec c 50) as [->|_]; [discriminate Hc | reflexivity]. }
  now rewrite E in Hy.
Qed.

Lemma validate_date_lstrip (s : str) :
  validate_date s = true -> validate_date (lstrip_by isspace s) = true.
Proof.
  induction s as [|c s IH]; [trivial|]. cbn [lstrip_by].
  destruct (isspace c) eqn:Hc; [|trivial].
  intros H. apply IH. exact (@validate_date_space c s Hc H).
Qed.

Lemma rstrip_spaces (s : str) :
  exists ws, s = rstrip_by isspace s ++ ws /\ forallb isspace ws = true.
Proof.
  induction s as [|c s [ws [E Hw]]]; [now exists []|].
  cbn [rstrip_by]. destruct (rstrip_by isspace s) as [|d r] eqn:R.
  - destruct (isspace c) eqn:Hc.
    + exists (c :: s). split; [reflexivity|]. cbn [app] in E. subst ws.
      cbn [forallb]. now rewrite Hc, Hw.
    + exists s. split; [reflexivity|]. cbn [app] in E. now subst ws.
  - exists ws. split; [|exact Hw]. cbn [app]. f_equal. exact E.
Qed.

Lemma search_year_spaces (ws : str) :
  forallb isspace ws = true -> search_year ws = None.
Proof.
  induction ws as [|c ws IH]; [reflexivity|]. cbn [forallb search_year].
  intros H. apply andb_true_iff in H as [Hc Hw].
  assert (E : year_here (c :: ws) = false).
  { destruct ws as [|b [|d [|e ws]]]; try reflexivity. cbn [year_here].
    destruct (N.eqb_spec c 50) as [->|_]; [discriminate Hc | reflexivity]. }
  rewrite E. now apply IH.
Qed.

Lemma validate_date_rstrip (s : str) :
  validate_date s = true -> validate_date (rstrip_by isspace s) = true.
Proof.
  destruct (rstrip_spaces s) as [ws [E Hw]]. intros H. rewrite E in H.
  apply (@validate_date_prefix _ ws); [| now apply search_year_spaces | exact H].
  destruct ws as [|c ws]; [exact I|]. cbn [forallb] in Hw.
  apply andb_true_iff in Hw as [Hc _]. unfold isdigit.
  destruct (N.leb_spec 48 c); [|reflexivity].
  destruct (N.leb_spec c 57); [|reflexivity].
  exfalso. revert Hc. unfold isspace.
  repeat match goal with
         | |- context [(?p <=? ?q)%N] => destruct (N.leb_spec p q); try lia
         | |- context [(?p =? ?q)%N] => destruct (N.eqb_spec p q); try lia
         end; cbn; discriminate.
Qed.

Lemma validate_date_strip (s : str) :
  validate_date s = true -> validate_date (strip s) = true.
Proof.
  intros H. unfold strip, strip_by. now apply validate_date_rstrip, validate_date_lstrip.
Qed.

Lemma lstrip_fixed (s : str) : head_space s = false -> lstrip_by isspace s = s.
Proof. destruct s as [|c s]; [reflexivity|]. cbn. now intros ->. Qed.

Lemma strip_strip (s : str) : strip (strip s) = strip s.
Proof.
  unfold strip, strip_by.
  rewrite (lstrip_fixed (rstrip_by isspace (lstrip_by isspace s))).
  - apply rstrip_idem.
  - apply rstrip_head_space, lstrip_head.
Qed.

Section Dates.
Variable decimal : N -> bool.
Variable search : date_pattern -> str -> option str.

(** *** The two substitutions *)

Lemma sub_at_end_valid (width : nat) (p : str -> bool) (s : str) :
  (forall m, p m = true ->
             match m with [] => True | c :: _ => isdigit c = false end
             /\ search_year m = None /\ search_year (m ++ [10%N]) = None) ->
  validate_date s = true -> validate_date (sub_at_end width p s) = true.
Proof.
  intros Hp H. unfold sub_at_end.
  destruct ((width + 1 <=? length s) && eqb (skipn (length s - 1) s) [10%N]
            && p (firstn width (skipn (length s - (width + 1)) s))) eqn:C1.
  - apply andb_true_iff in C1 as [C1 Cp]. apply andb_true_iff in C1 as [Cl Ce].
    apply Nat.leb_le in Cl. apply str_eqb_eq in Ce.
    destruct (Hp _ Cp) as [Hh [_ Hy]].
    set (a := length s - (width + 1)) in *.
    set (m := firstn width (skipn a s)) in *.
    assert (E : s = firstn a s ++ m ++ [10%N]).
    { rewrite <- Ce. unfold m.
      replace (length s - 1) with (width + a) by (unfold a; lia).
      rewrite <- skipn_skipn, firstn_skipn. now rewrite firstn_skipn. }
    apply validate_date_line_feed.
    apply (@validate_date_prefix _ (m ++ [10%N])); [| exact Hy | now rewrite <- E].
    destruct m as [|c m']; [|exact Hh].
    cbn. reflexivity.
  - destruct ((width <=? length s) && p (skipn (length s - width) s)) eqn:C2;
      [|exact H].
    apply andb_true_iff in C2 as [_ Cp]. destruct (Hp _ Cp) as [Hh [Hy _]].
    apply (@validate_date_prefix _ (skipn (length s - width) s));
      [exact Hh | exact Hy | now rewrite firstn_skipn].
Qed.

Lemma utc_offset_no_year (m : str) :
  utc_offset decimal m = true ->
  match m with [] => True | c :: _ => isdigit c = false end
  /\ search_year m = None /\ search_year (m ++ [10%N]) = None.
Proof.
  destruct m as [|a [|b [|c [|d [|e [|f [|g m]]]]]]]; try discriminate.
  unfold utc_offset. intros H.
  repeat (apply andb_true_iff in H; destruct H as [H ?]).
  apply orb_true_iff in H.
  assert (Hd : d = 58%N) by now apply N.eqb_eq.
  subst d.
  assert (Ha : a = 43%N \/ a = 45%N)
    by (destruct H as [H|H]; apply N.eqb_eq in H; auto).
  split; [destruct Ha as [-> | ->]; reflexivity|].
  split; destruct Ha as [-> | ->]; cbn [app search_year year_here];
    repeat match goal with
           | |- context [(?p =? ?q)%N] =>
               lazymatch p with
               | N.pos _ => fail
               | _ => destruct (p =? q)%N
               end
           end; cbn; reflexivity.
Qed.

Lemma zulu_no_year (m : str) :
  eqb m [90%N] = true ->
  match m with [] => True | c :: _ => isdigit c = false end
  /\ search_year m = None /\ search_year (m ++ [10%N]) = None.
Proof. intros H. apply str_eqb_eq in H as ->. repeat split. Qed.

(** Cleaning leaves a valid date valid. *)
Lemma clean_date_valid (d : str) :
  validate_date d = true -> validate_date (clean_date decimal d) = true.
Proof.
  intros H. unfold clean_date. destruct d as [|c d]; [discriminate|].
  cbn [truthy negb]. apply validate_date_strip.
  apply sub_at_end_valid; [exact zulu_no_year|].
  apply sub_at_end_valid; [exact utc_offset_no_year | exact H].
Qed.

Lemma clean_date_stripped (d : str) :
  strip (clean_date decimal d) = clean_date decimal d.
Proof.
  unfold clean_date. destruct (negb (truthy d)); [reflexivity | apply strip_strip].
Qed.

(** *** [extract_date] *)

Lemma attribute_dates_valid (e : node) (attrs : list str) (k : str) :
  (k = [] \/ validate_date k = true) ->
  attribute_dates decimal e attrs k = []
  \/ validate_date (attribute_dates decimal e attrs k) = true.
Proof.
  intros Hk. induction attrs as [|a attrs IH]; [exact Hk|].
  cbn [attribute_dates].
  destruct (truthy (get a e) && validate_date (get a e)) eqn:E; [|exact IH].
  apply andb_true_iff in E as [_ E]. right. now apply clean_date_valid.
Qed.

Lemma text_dates_valid (text : str) (patterns : list date_pattern) (k : str) :
  (k = [] \/ validate_date k = true) ->
  text_dates decimal search text patterns k = []
  \/ validate_date (text_dates decimal search text patterns k) = true.
Proof.
  intros Hk. induction patterns as [|p patterns IH]; [exact Hk|].
  cbn [text_dates]. destruct (search p text) as [d|]; [|exact IH].
  destruct (validate_date d) eqn:E; [|exact IH].
  right. now apply clean_date_valid.
Qed.

Lemma meta_date_valid (soup : node) :
  meta_date decimal soup = [] \/ validate_date (meta_date decimal soup) = true.
Proof.
  unfold meta_date.
  destruct (or_else _ _) as [m|]; [|now left].
  destruct (truthy (get (lit "content") m) && validate_date (get (lit "content") m))
    eqn:E; [|now left].
  apply andb_true_iff in E as [_ E]. right. now apply clean_date_valid.
Qed.

Lemma extract_date_valid (soup : node) (article_elem : option node) :
  extract_date decimal search soup article_elem = []
  \/ validate_date (extract_date decimal search soup article_elem) = true.
Proof.
  unfold extract_date. destruct article_elem as [e|]; [|apply meta_date_valid].
  assert (H : attribute_dates decimal e date_attributes
                (text_dates decimal search (get_text e) date_patterns
                            (meta_date decimal soup)) = []
              \/ validate_date
                   (attribute_dates decimal e date_attributes
                      (text_dates decimal search (get_text e) date_patterns
                                  (meta_date decimal soup))) = true)
    by apply attribute_dates_valid, text_dates_valid, meta_date_valid.
  destruct (find [lit "time"] e) as [t|]; [|exact H].
  match goal with
  | |- context [truthy ?d && validate_date ?d] =>
      destruct (truthy d && validate_date d) eqn:E; [|exact H];
      apply andb_true_iff in E as [_ E]; right; now apply clean_date_valid
  end.
Qed.

Lemma extract_date_stripped (soup : node) (article_elem : option node) :
  strip (extract_date decimal search soup article_elem)
  = extract_date decimal search soup article_elem.
Proof.
  assert (Hm : strip (meta_date decimal soup) = meta_date decimal soup).
  { unfold meta_date. destruct (or_else _ _) as [m|]; [|reflexivity].
    destruct (truthy _ && _); [apply clean_date_stripped | reflexivity]. }
  assert (Ht : forall text ps k, strip k = k ->
                 strip (text_dates decimal search text ps k)
                 = text_dates decimal search text ps k).
  { intros text ps k Hk. induction ps as [|p ps IH]; [exact Hk|].
    cbn [text_dates]. destruct (search p text) as [d|]; [|exact IH].
    destruct (validate_date d); [apply clean_date_stripped | exact IH]. }
  assert (Ha : forall e attrs k, strip k = k ->
                 strip (attribute_dates decimal e attrs k)
                 = attribute_dates decimal e attrs k).
  { intros e attrs k Hk. induction attrs as [|a attrs IH]; [exact Hk|].
    cbn [attribute_dates].
    destruct (truthy _ && _); [apply clean_date_stripped | exact IH]. }
  unfold extract_date. destruct article_elem as [e|]; [|exact Hm].
  destruct (find [lit "time"] e) as [t|]; [|now apply Ha, Ht].
  destruct (truthy _ && _); [apply clean_date_stripped | now apply Ha, Ht].
Qed.

End Dates.
End DateFacts.

(** ** The feeds of [scrapers-file/news_scraper.py] *)
Section FeedFacts.
Import Py Dom Detail Siblings Rss.
Local Open Scope list_scope.
Local Open Scope nat_scope.

Lemma firstn_incl (A : Type) (n : nat) (l : list A) : incl (firstn n l) l.
Proof.
  revert l. induction n as [|n IH]; intros [|x l]; cbn [firstn];
    try (intros z []; fail).
  intros y [<-|Hy]; [now left | right; now apply IH].
Qed.

Lemma slice_to_incl (A : Type) (l : list A) (m : BinNums.Z) : incl (slice_to l m) l.
Proof.
  unfold slice_to. destruct (BinInt.Z.leb BinNums.Z0 m); apply firstn_incl.
Qed.

Lemma slice_to_length (A : Type) (l : list A) (m : BinNums.Z) :
  length (slice_to l m) <= length l
  /\ (BinInt.Z.le BinNums.Z0 m -> length (slice_to l m) <= BinInt.Z.to_nat m).
Proof.
  unfold slice_to. split.
  - destruct (BinInt.Z.leb BinNums.Z0 m); rewrite length_firstn; lia.
  - intros H. apply BinInt.Z.leb_le in H. rewrite H. rewrite length_firstn. lia.
Qed.

Variable fetch : str -> option node.

Lemma item_articles_count (source_name country : str) (item : node) :
  length (item_articles fetch source_name country item)
  = length (option_list (item_link item)).
Proof.
  unfold item_articles, item_link.
  destruct (find [lit "link"] item) as [e|]; [|reflexivity].
  destruct (truthy (strip (get_text e))); cbn [negb]; [|reflexivity].
  now destruct (scrape_article fetch _ _ _).
Qed.

(** What the article of an item holds. *)
Lemma item_articles_In (source_name country : str) (item : node) (d : dict) :
  In d (item_articles fetch source_name country item) ->
  exists link,
    item_link item = Some link
    /\ dict_get (lit "link") d = Some link
    /\ dict_get (lit "source") d = Some source_name
    /\ dict_get (lit "source_country") d = Some country
    /\ dict_get (lit "description") d
       = Some (text_or [] (find [lit "description"] item))
    /\ dict_get (lit "published_date") d
       = Some (text_or [] (find [lit "pubDate"] item))
    /\ (exists title content,
           dict_get (lit "title") d = Some title
           /\ dict_get (lit "content") d = Some content
           /\ (fetch link = None ->
               title = text_or (lit "No title") (find [lit "title"] item)
               /\ content = []))
    /\ length d = 7.
Proof.
  unfold item_articles, item_link.
  destruct (find [lit "link"] item) as [e|]; [|intros []].
  destruct (truthy (strip (get_text e))); cbn [negb]; [|intros []].
  unfold scrape_article.
  destruct (fetch (strip (get_text e))) as [soup|] eqn:F.
  - intros [<-|[]]. exists (strip (get_text e)).
    repeat (split; [reflexivity|]). split; [|reflexivity].
    eexists. eexists. split; [reflexivity|]. split; [reflexivity|].
    rewrite F. discriminate.
  - intros [<-|[]]. exists (strip (get_text e)).
    repeat (split; [reflexivity|]). split; [|reflexivity].
    eexists. eexists. split; [reflexivity|]. split; [reflexivity|].
    intros _. split; reflexivity.
Qed.

Lemma flat_map_length_le (A B : Type) (f : A -> list B) (l : list A) :
  (forall x, length (f x) <= 1) -> length (flat_map f l) <= length l.
Proof.
  intros H. induction l as [|x l IH]; [reflexivity|].
  cbn [flat_map length]. rewrite length_app. pose proof (H x). lia.
Qed.

Lemma flat_map_length_eq (A B C : Type) (f : A -> list B) (g : A -> list C)
    (l : list A) :
  (forall x, length (f x) = length (g x)) ->
  length (flat_map f l) = length (flat_map g l).
Proof.
  intros H. induction l as [|x l IH]; [reflexivity|].
  cbn [flat_map]. rewrite !length_app. now rewrite H, IH.
Qed.

Lemma scrape_rss_feed_items (source_name rss_url country : str)
    (max_articles : BinNums.Z) :
  scrape_rss_feed fetch source_name rss_url country max_articles
  = match fetch rss_url with
    | Some soup =>
        flat_map (item_articles fetch source_name country)
                 (slice_to (find_all [lit "item"] soup) max_articles)
    | None => []
    end.
Proof.
  unfold scrape_rss_feed. destruct (fetch rss_url) as [soup|]; [|reflexivity].
  destruct (find_all [lit "item"] soup) eqn:E; [|reflexivity].
  unfold slice_to. destruct (BinInt.Z.leb _ _); now rewrite firstn_nil.
Qed.

Lemma scrape_rss_feed_length (source_name rss_url country : str)
    (max_articles : BinNums.Z) :
  BinInt.Z.le BinNums.Z0 max_articles ->
  length (scrape_rss_feed fetch source_name rss_url country max_articles)
  <= BinInt.Z.to_nat max_articles.
Proof.
  intros H. rewrite scrape_rss_feed_items.
  destruct (fetch rss_url) as [soup|]; [|cbn; lia].
  eapply Nat.le_trans; [apply flat_map_length_le|].
  - intros x. rewrite item_articles_count. destruct (item_link x); cbn; lia.
  - now apply slice_to_length.
Qed.

Lemma sources_count : length SOURCES = 22.
Proof. reflexivity. Qed.

Lemma scrape_all_news_length : length (scrape_all_news fetch) <= 220.
Proof.
  unfold scrape_all_news. change 220 with (length SOURCES * 10).
  induction SOURCES as [|s l IH]; [reflexivity|].
  cbn [flat_map length]. rewrite length_app.
  pose proof (@scrape_rss_feed_length (fst s) (fst (snd s)) (snd (snd s))
                (BinNums.Zpos 10%positive) ltac:(discriminate)) as H.
  change (BinInt.Z.to_nat (BinNums.Zpos 10%positive)) with 10 in H. lia.
Qed.

End FeedFacts.

(** ** The whole merge, and the dates of the records *)
Section MergeWhole.
Import Py NewsScraper.

Lemma merge_inv_start : merge_inv ([], []).
Proof.
  unfold merge_inv. cbn. split; [tauto|]. split; constructor.
Qed.

Lemma run_super_scraper_inv (sel : bool) (sites : list site_result) :
  NoDup (map title_key (run_super_scraper sel sites))
  /\ Forall (fun a => title_key a <> []) (run_super_scraper sel sites)
  /\ incl (run_super_scraper sel sites) (flat_map (site_articles sel) sites).
Proof.
  rewrite run_super_scraper_merge.
  destruct (@merge_keeps_inv (flat_map (site_articles sel) sites) ([], [])
              merge_inv_start) as [_ [H2 H3]].
  split; [exact H2|]. split; [exact H3|].
  exact (merge_incl (flat_map (site_articles sel) sites) ([], [])).
Qed.

Lemma run_super_scraper_distinct (sel : bool) (sites : list site_result) :
  NoDup (map title_key (flat_map (site_articles sel) sites)) ->
  Forall (fun a => title_key a <> []) (flat_map (site_articles sel) sites) ->
  run_super_scraper sel sites = flat_map (site_articles sel) sites.
Proof.
  intros Hn Hk. rewrite run_super_scraper_merge.
  rewrite (@merge_fresh _ Hn Hk [] []); [reflexivity|]. intros a _ [].
Qed.

Lemma run_super_scraper_again (sel : bool) (sites : list site_result) :
  run_super_scraper sel [SiteResult (run_super_scraper sel sites) [] [] []]
  = run_super_scraper sel sites.
Proof.
  destruct (run_super_scraper_inv sel sites) as [H1 [H2 _]].
  assert (E : flat_map (site_articles sel)
                [SiteResult (run_super_scraper sel sites) [] [] []]
              = run_super_scraper sel sites).
  { cbn [flat_map]. unfold site_articles. cbn [from_static from_headlines from_pages from_js].
    destruct sel; now rewrite !app_nil_r. }
  rewrite run_super_scraper_distinct; rewrite E; auto.
Qed.

End MergeWhole.

Section RecordDates.
Import Py Dom NewsScraper.
Variable urljoin : str -> str -> str.
Variable url_path : str -> str.
Variable extract_date : node -> option node -> str.
Variable Q : str -> Prop.
Hypothesis extract_date_Q : forall soup elem, Q (extract_date soup elem).

Lemma assemble_date (soup : node) (url : str) (elem : option node)
    (t l s : str) (a : extracted_article) :
  assemble url_path extract_date soup url elem t l s = Some (Some a) ->
  Q (date a).
Proof.
  unfold assemble. destruct (is_valid_article t s l) as [[|]|]; try discriminate.
  intros [= <-]. cbn [date]. apply extract_date_Q.
Qed.

Lemma scrape_static_article_dates (soup : node) (url : str) :
  Forall (fun a => Q (date a))
         (scrape_static_article urljoin url_path extract_date soup url).
Proof.
  rewrite scrape_static_article_scan. apply scan_sound; [|constructor].
  intros c t a _. apply assemble_date.
Qed.

Lemma scrape_js_dates (soup : node) (url : str) :
  Forall (fun a => Q (date a)) (scrape_js urljoin url_path extract_date soup url).
Proof.
  rewrite scrape_js_scan. apply scan_sound; [|constructor].
  intros c t a _. apply assemble_date.
Qed.

Lemma scrape_headlines_dates (soup : node) (url : str) :
  Forall (fun a => Q (date a))
         (scrape_headlines urljoin url_path extract_date soup url).
Proof.
  rewrite scrape_headlines_scan. apply scan_sound; [|constructor].
  intros c t a _. apply assemble_date.
Qed.

Lemma crawl_loop_dates (url : str) (fetched : list (option node)) :
  forall p seen news,
    Forall (fun a => Q (date a)) news ->
    Forall (fun a => Q (date a))
      (crawl_loop urljoin url_path extract_date url p fetched seen news).
Proof.
  induction fetched as [|[soup|] rest IH]; intros p seen news H; [exact H| |].
  - cbn [crawl_loop]. apply IH. apply scan_sound; [|exact H].
    intros c t a _. apply assemble_date.
  - cbn [crawl_loop]. now apply IH.
Qed.

End RecordDates.

Section FeedLinks.
Import Py Dom Detail Siblings Rss.
Variable fetch : str -> option node.

Lemma item_articles_links (source_name country : str) (item : node) :
  map (dict_get (lit "link")) (item_articles fetch source_name country item)
  = map Some (option_list (item_link item)).
Proof.
  unfold item_articles, item_link.
  destruct (find [lit "link"] item) as [e|]; [|reflexivity].
  destruct (truthy (strip (get_text e))); cbn [negb]; [|reflexivity].
  unfold scrape_article. now destruct (fetch (strip (get_text e))).
Qed.

Lemma scrape_rss_feed_links (source_name rss_url country : str)
    (max_articles : BinNums.Z) (soup : node) :
  fetch rss_url = Some soup ->
  map (dict_get (lit "link"))
      (scrape_rss_feed fetch source_name rss_url country max_articles)
  = map Some
        (flat_map (fun item => option_list (item_link item))
                  (slice_to (find_all [lit "item"] soup) max_articles)).
Proof.
  intros F. rewrite scrape_rss_feed_items, F.
  induction (slice_to (find_all [lit "item"] soup) max_articles) as [|i l IH];
    [reflexivity|].
  cbn [flat_map]. rewrite !map_app. now rewrite item_articles_links, IH.
Qed.

Lemma scrape_rss_feed_In (source_name rss_url country : str)
    (max_articles : BinNums.Z) (d : dict) :
  In d (scrape_rss_feed fetch source_name rss_url country max_articles) ->
  exists soup item,
    fetch rss_url = Some soup
    /\ In item (slice_to (find_all [lit "item"] soup) max_articles)
    /\ In d (item_articles fetch source_name country item).
Proof.
  rewrite scrape_rss_feed_items. destruct (fetch rss_url) as [soup|]; [|intros []].
  intros H. apply in_flat_map in H as [item [Hi Hd]]. now exists soup, item.
Qed.

End FeedLinks.

(** ** A descendant of a descendant *)
Section Descendants.
Import Py Dom Detail Siblings.
Local Open Scope list_scope.

Lemma filter_filter_sub (A : Type) (p q : A -> bool) (l : list A) :
  (forall x, p x = true -> q x = true) ->
  filter p (filter q l) = filter p l.
Proof.
  intros H. induction l as [|x l IH]; [reflexivity|].
  cbn [filter]. destruct (q x) eqn:Q.
  - cbn [filter]. now rewrite IH.
  - rewrite IH. destruct (p x) eqn:P; [|reflexivity].
    rewrite (H x P) in Q. discriminate.
Qed.

Lemma entries_elements (n : node) (anc anc' : list node) :
  map snd (entries anc n) = map snd (entries anc' n).
Proof.
  now rewrite <- (place_elements n anc []), <- (place_elements n anc' []).
Qed.

Lemma descendants_cons (t : str) (a : list (str * str)) (cs : list node) (e : node) :
  In e (descendants (Elem t a cs)) <->
  exists c, In c cs /\ is_tag c = true /\ (e = c \/ In e (descendants c)).
Proof.
  unfold descendants. cbn [entries]. rewrite flat_map_concat_map, concat_map, map_map.
  rewrite <- flat_map_concat_map, in_flat_map. split.
  - intros [c [Hc He]]. exists c. split; [exact Hc|].
    destruct c as [s|t' a' cs']; [destruct He|]. split; [reflexivity|].
    cbn [map snd] in He. destruct He as [<-|He]; [now left | right].
    now rewrite (entries_elements _ [] [Elem t a cs]).
  - intros [c [Hc [Ht He]]]. exists c. split; [exact Hc|].
    destruct c as [s|t' a' cs']; [discriminate|]. cbn [map snd].
    destruct He as [->|He]; [now left | right].
    now rewrite (entries_elements _ [Elem t a cs] []).
Qed.

Lemma descendants_trans (n d e : node) :
  In d (descendants n) -> In e (descendants d) -> In e (descendants n).
Proof.
  induction n as [s|t a cs IH] using node_induction; [intros []|].
  intros Hd He. apply descendants_cons in Hd as [c [Hc [Ht Hd]]].
  apply descendants_cons. exists c. split; [exact Hc|]. split; [exact Ht|].
  right. destruct Hd as [->|Hd]; [exact He|].
  rewrite Forall_forall in IH. now apply (IH c Hc).
Qed.

Lemma find_descendant (names : list str) (n e : node) :
  find names n = Some e -> In e (descendants n) /\ named names e = true.
Proof. unfold find, find_where. apply find_some. Qed.

(** A table with a [thead] and no [tbody]: the rows read are all the rows
    of the table, the header row among them. *)
Lemma header_row_read (table thead header_row : node) :
  find [lit "thead"] table = Some thead ->
  find [lit "tr"] thead = Some header_row ->
  find [lit "tbody"] table = None ->
  table_headers table = cell_texts (find_all [lit "th"; lit "td"] header_row)
  /\ body_rows table (table_headers table) = find_all [lit "tr"] table
  /\ In header_row (body_rows table (table_headers table)).
Proof.
  intros Hh Hr Hb.
  assert (E : body_rows table (table_headers table) = find_all [lit "tr"] table).
  { unfold body_rows. rewrite Hb, Hh. reflexivity. }
  split; [unfold table_headers; now rewrite Hh, Hr|]. split; [exact E|].
  rewrite E. apply find_descendant in Hh as [Hh _].
  apply find_descendant in Hr as [Hr Hn].
  unfold find_all. apply filter_In. split; [|exact Hn].
  exact (descendants_trans table thead header_row Hh Hr).
Qed.

End Descendants.

Section MoreNews.
Import Py Dom NewsScraper Samples MoreSamples.
Local Open Scope string_scope.
Local Open Scope list_scope.
Local Open Scope nat_scope.

(** X1.  [is_valid_article] raises, by [title_lower[0]] on an empty
    string, exactly when the title has fifteen or more characters, all of
    them white space, and the lower-cased summary holds no noise keyword.
    On every other input it returns a boolean. *)
Theorem is_valid_article_raises_on_blank_titles (title summary link : str) :
  is_valid_article title summary link = None <->
  15 <= length title /\ forallb isspace title = true
  /\ contains_any NOISE_KEYWORDS (lower summary) = false.
Proof. apply is_valid_article_raises_iff. Qed.

(** X2.  A noise keyword anywhere in the lower-cased, stripped title or in
    the lower-cased summary makes [is_valid_article] return false,
    whatever the title, the summary and the link are otherwise. *)
Theorem noise_keyword_rejects (title summary link : str) :
  contains_any NOISE_KEYWORDS (strip (lower title)) = true
  \/ contains_any NOISE_KEYWORDS (lower summary) = true ->
  is_valid_article title summary link = Some false.
Proof. apply is_valid_article_noise. Qed.

Lemma noise_keyword_rejects_witness :
  contains_any NOISE_KEYWORDS (lower (lit "Read more about the rally in banks")) = true
  /\ is_valid_article (lit headline) (lit "Read more about the rally in banks")
                      (lit "https://x.test/a") = Some false.
Proof.
  assert (H : contains_any NOISE_KEYWORDS
                (lower (lit "Read more about the rally in banks")) = true)
    by (vm_compute; reflexivity).
  split; [exact H|].
  exact (@noise_keyword_rejects (lit headline)
           (lit "Read more about the rally in banks") (lit "https://x.test/a")
           (or_intror H)).
Defined.

(** X3.  What [is_valid_article] accepts: the title has at least fifteen
    characters and is no navigation title; neither title nor summary
    holds a noise keyword; there is a link, or a summary of at least
    twenty characters; a summary that is not empty holds no generic
    phrase; a title in upper case or of at most two words has one of
    [:], [-], [?], [!], [,]; and the title holds no section indicator. *)
Theorem accepted_article_shape (title summary link : str) :
  is_valid_article title summary link = Some true ->
  15 <= length title
  /\ mem (strip (lower title)) NAVIGATION_TITLES = false
  /\ contains_any NOISE_KEYWORDS (strip (lower title)) = false
  /\ contains_any NOISE_KEYWORDS (lower summary) = false
  /\ (link <> [] \/ 20 <= length summary)
  /\ (summary = [] \/ contains_any GENERIC_SUMMARIES (lower summary) = false)
  /\ (isupper title = true \/ length (split title) <= 2 ->
      contains_any headline_punctuation title = true)
  /\ contains_any section_indicators (strip (lower title)) = false.
Proof. apply is_valid_article_accepted. Qed.

Lemma accepted_article_shape_witness :
  is_valid_article (lit headline) [] (lit "https://x.test/first") = Some true
  /\ 15 <= length (lit headline)
  /\ (lit "https://x.test/first" <> [] \/ 20 <= length (@nil N)).
Proof.
  assert (H : is_valid_article (lit headline) [] (lit "https://x.test/first")
              = Some true) by (vm_compute; reflexivity).
  split; [exact H|].
  pose proof (@accepted_article_shape (lit headline) []
                (lit "https://x.test/first") H) as [H1 [_ [_ [_ [H5 _]]]]].
  split; [exact H1 | exact H5].
Defined.

(** X4.  Every record of the four strategies has a title of at least
    fifteen characters that the normalizer leaves as it is, and a link or
    a summary of at least twenty characters; the records of
    [scrape_static_article], [scrape_headlines] and [scrape_js] carry the
    URL they were called with as their source. *)
Theorem strategy_records_sound (urljoin : str -> str -> str)
    (url_path : str -> str) (extract_date : node -> option node -> str)
    (soup : node) (fetched : list (option node)) (url : str) :
  Forall (fun a => sound_record a /\ source a = url)
         (scrape_static_article urljoin url_path extract_date soup url)
  /\ Forall (fun a => sound_record a /\ source a = url)
            (scrape_headlines urljoin url_path extract_date soup url)
  /\ Forall (fun a => sound_record a /\ source a = url)
            (scrape_js urljoin url_path extract_date soup url)
  /\ Forall sound_record (crawl_pages urljoin url_path extract_date fetched url).
Proof.
  split; [apply scrape_static_article_sound|].
  split; [apply scrape_headlines_sound|].
  split; [apply scrape_js_sound|].
  apply crawl_loop_sound. constructor.
Qed.

(** X5.  The classifier raises on a title that is blank once it is
    stripped; no strategy calls it on such a title.  The title with
    which a candidate reaches [is_valid_article], in any of the four
    strategies, is a cleaned text that is not empty, and on it the
    classifier returns a verdict, whatever the summary and the link: the
    [IndexError] of the classifier never takes a strategy to its [except]
    branch.  (What else is called inside the [try], as [urlparse] on the
    link, is not part of this statement.) *)
Theorem classifier_returns_on_strategy_titles (article : node) (elem : located)
    (title summary link : str) :
  static_title article = Some title \/ js_title article = Some title
  \/ headline_title elem = Some title \/ page_title elem = Some title ->
  title <> []
  /\ (exists text, title = NewsScraper.clean_text text)
  /\ strip (lower title) <> []
  /\ exists verdict, is_valid_article title summary link = Some verdict.
Proof.
  intros H.
  assert (Hc : cleaned_title title).
  { destruct H as [H|[H|[H|H]]].
    - exact (static_title_cleaned _ H).
    - exact (js_title_cleaned _ H).
    - exact (headline_title_cleaned _ H).
    - exact (page_title_cleaned _ H). }
  pose proof (@cleaned_title_valid title summary link Hc) as Hv.
  destruct Hc as [Hne [x Hx]].
  split; [exact Hne|]. split; [now exists x|]. split.
  - rewrite Hx in Hne |- *. now apply clean_text_title_lower.
  - destruct (is_valid_article title summary link) as [v|]; [now exists v | contradiction].
Qed.

Lemma classifier_returns_on_strategy_titles_witness :
  static_title story = Some (lit headline)
  /\ lit headline <> []
  /\ (exists text, lit headline = NewsScraper.clean_text text)
  /\ strip (lower (lit headline)) <> []
  /\ exists verdict, is_valid_article (lit headline) [] [] = Some verdict.
Proof.
  assert (H : static_title story = Some (lit headline)) by (vm_compute; reflexivity).
  split; [exact H|].
  exact (@classifier_returns_on_strategy_titles story (Located [] story []) (lit headline)
           [] [] (or_introl H)).
Defined.

(** X6.  [crawl_pages] carries its set of seen titles from page to page:
    over all the pages together no two of its records have the same
    lower-cased title.  The same holds within the one page of
    [scrape_js]. *)
Theorem crawl_and_js_titles_unique (urljoin : str -> str -> str)
    (url_path : str -> str) (extract_date : node -> option node -> str)
    (soup : node) (fetched : list (option node)) (url : str) :
  NoDup (map key (crawl_pages urljoin url_path extract_date fetched url))
  /\ NoDup (map key (scrape_js urljoin url_path extract_date soup url)).
Proof.
  split.
  - apply crawl_loop_NoDup; [constructor | apply incl_nil_l].
  - rewrite scrape_js_scan.
    apply scan_NoDup; [apply js_build_title | constructor | apply incl_nil_l].
Qed.

(** X7.  The summary chosen for an [article] element is empty, or it is a
    cleaned text of more than 40 and fewer than 500 characters that holds
    no generic phrase. *)
Theorem chosen_summary_qualifies (article : node) :
  select_summary article = []
  \/ (good_summary (select_summary article) = true
      /\ 40 < length (select_summary article) < 500
      /\ contains_any GENERIC_SUMMARIES (lower (select_summary article)) = false).
Proof.
  destruct (select_summary_good article) as [H|H]; [now left | right].
  split; [exact H|]. split; [now apply good_summary_length|].
  unfold good_summary in H. apply andb_true_iff in H as [_ H].
  now apply negb_true_iff in H.
Qed.

(** X8.  The merged list of [run_super_scraper] has no two records
    whose titles are equal once lower-cased and stripped, so none that
    differ only in letter case or in white space around the title; it has
    no record whose title is empty once stripped, and no record that the
    strategies did not find. *)
Theorem merged_records_distinct (selenium_available : bool)
    (sites : list site_result) :
  NoDup (map normalized_title (run_super_scraper selenium_available sites))
  /\ Forall (fun a => normalized_title a <> [])
            (run_super_scraper selenium_available sites)
  /\ incl (run_super_scraper selenium_available sites)
          (flat_map (site_articles selenium_available) sites).
Proof. exact (run_super_scraper_inv selenium_available sites). Qed.

(** X9.  When the records found have keys that are not empty and differ
    from one another, the merge step drops nothing and keeps the order in
    which they were found. *)
Theorem merge_keeps_distinct_records (selenium_available : bool)
    (sites : list site_result) :
  NoDup (map title_key (flat_map (site_articles selenium_available) sites)) ->
  Forall (fun a => title_key a <> [])
         (flat_map (site_articles selenium_available) sites) ->
  run_super_scraper selenium_available sites
  = flat_map (site_articles selenium_available) sites.
Proof. apply run_super_scraper_distinct. Qed.

Lemma merge_keeps_distinct_records_witness :
  NoDup (map title_key (flat_map (site_articles true) two_records))
  /\ Forall (fun a => title_key a <> []) (flat_map (site_articles true) two_records)
  /\ run_super_scraper true two_records = [story_record; rupee_record].
Proof.
  assert (H1 : NoDup (map title_key (flat_map (site_articles true) two_records))).
  { vm_compute. constructor; [intros [E|[]]; discriminate E|].
    constructor; [intros [] | constructor]. }
  assert (H2 : Forall (fun a => title_key a <> [])
                      (flat_map (site_articles true) two_records)).
  { vm_compute. constructor; [discriminate|]. constructor; [discriminate | constructor]. }
  split; [exact H1|]. split; [exact H2|].
  rewrite (@merge_keeps_distinct_records true two_records H1 H2). reflexivity.
Defined.

(** X10.  The merge step is idempotent: merging the merged list once more
    returns it unchanged. *)
Theorem merge_is_idempotent (selenium_available : bool) (sites : list site_result) :
  run_super_scraper selenium_available
    [SiteResult (run_super_scraper selenium_available sites) [] [] []]
  = run_super_scraper selenium_available sites.
Proof. apply run_super_scraper_again. Qed.

End MoreNews.

Section MoreDetail.
Import Py Dom Detail Samples MoreSamples.
Local Open Scope string_scope.
Local Open Scope list_scope.
Local Open Scope nat_scope.

(** X11.  The links [extract_meaningful_links] returns have pairwise
    different URLs; the text of each has at least two characters and is
    none of the symbol texts; and the type of each is ["internal"] or
    ["external"]. *)
Theorem links_distinct_and_labelled (urljoin : str -> str -> str)
    (netloc : str -> str) (soup : node) (base_url : str) :
  NoDup (map url (extract_meaningful_links urljoin netloc soup base_url))
  /\ Forall (fun r => 2 <= length (text r)
                      /\ mem (text r) symbol_texts = false
                      /\ (type r = lit "internal" \/ type r = lit "external"))
            (extract_meaningful_links urljoin netloc soup base_url).
Proof.
  split.
  - apply link_loop_NoDup; [constructor | apply incl_nil_l].
  - apply Forall_forall. intros r H. unfold extract_meaningful_links in H.
    apply link_loop_In in H as [[]|[a [_ [Hk ->]]]].
    destruct (link_kept_text a Hk) as [_ [H2 H3]].
    cbn [link_of_anchor text type]. split; [exact H2|]. split; [exact H3|].
    unfold link_type. destruct (negb _); [now right | now left].
Qed.

(** X12.  Every section [extract_content_sections] returns stems from a
    heading element of the page: its heading is the cleaned text of that
    element and its level, between 1 and 6, the digit of the tag name.
    Every text in its content has more than twenty characters and holds
    none of the boilerplate words.  There are at most as many sections as
    the page has heading elements. *)
Theorem sections_come_from_headings (soup : node) :
  Forall (fun s =>
            (exists e, In e (find_all heading_tags soup)
                       /\ heading s = clean_text (get_text e)
                       /\ level s = heading_level (name e))
            /\ (1 <= level s <= 6)%N
            /\ Forall (fun text => 20 < length text
                                   /\ contains_any boilerplate (lower text) = false)
                      (content s))
         (extract_content_sections soup)
  /\ length (extract_content_sections soup) <= length (find_all heading_tags soup).
Proof.
  split.
  - pose proof (build_sections_from (find_all (heading_tags ++ block_tags) soup)) as F.
    apply Forall_forall. intros s Hs. rewrite Forall_forall in F.
    destruct (F s Hs) as [[e [He [Hn [Eh El]]]] Hc]. split; [|split].
    + exists e. split; [|now split]. unfold find_all in *.
      apply filter_In in He as [He _]. apply filter_In. now split.
    + rewrite El. now apply heading_level_bounds.
    + apply Forall_forall. intros text Ht. rewrite Forall_forall in Hc.
      now apply meaningful_length, Hc.
  - unfold extract_content_sections.
    eapply Nat.le_trans; [apply build_sections_count|].
    unfold find_all. rewrite filter_filter_sub; [apply Nat.le_refl|].
    intros e. unfold named, mem. rewrite existsb_app. now intros ->.
Qed.

(** X13.  No row of a table is empty.  A row given as a mapping has the
    distinct header texts as its keys, in the order of their first
    occurrence, and there are headers; a row given as a plain sequence
    never has as many cells as there are headers. *)
Theorem table_rows_never_empty (table : node) :
  Forall (fun x =>
            match x with
            | RowDict d =>
                headers (table_data table) <> [] /\ d <> []
                /\ map fst d = first_occurrences (headers (table_data table))
            | RowList cells =>
                cells <> [] /\ length cells <> length (headers (table_data table))
            end)
         (rows (table_data table)).
Proof.
  apply Forall_forall. intros x Hx. cbn [table_data rows headers] in *.
  apply in_flat_map in Hx as [r [_ Hx]].
  pose proof (table_row_shape _ _ _ Hx) as H.
  destruct x as [d|cells]; [|exact H].
  destruct H as [H1 [H2 [H3 _]]]. now split.
Qed.

(** X14.  In a table that has a [thead] with a row and no [tbody], the
    rows read are all the rows of the table, the header row among them:
    when it has cells, the header row comes back as a data row that maps
    each header to itself. *)
Theorem header_row_read_as_data (table thead header_row : node) :
  find [lit "thead"] table = Some thead ->
  find [lit "tr"] thead = Some header_row ->
  find [lit "tbody"] table = None ->
  headers (table_data table) <> [] ->
  In header_row (body_rows table (headers (table_data table)))
  /\ In (RowDict (dict_of (combine (headers (table_data table))
                                   (headers (table_data table)))))
        (rows (table_data table)).
Proof.
  intros Hh Hr Hb Hn. cbn [table_data headers rows] in *.
  destruct (header_row_read table Hh Hr Hb) as [E1 [_ E3]].
  split; [exact E3|]. apply in_flat_map. exists header_row. split; [exact E3|].
  assert (Ec : find_all [lit "td"; lit "th"] header_row
               = find_all [lit "th"; lit "td"] header_row).
  { unfold find_all. apply filter_ext. intros e. unfold named, mem.
    cbn [existsb]. rewrite !orb_false_r. apply orb_comm. }
  unfold table_row. rewrite Ec, <- E1.
  unfold cell_texts in E1.
  destruct (find_all [lit "th"; lit "td"] header_row) as [|c cs] eqn:C.
  - cbn in E1. now rewrite E1 in Hn.
  - destruct (table_headers table) as [|h hs]; [contradiction|].
    cbn [andb]. rewrite Nat.eqb_refl. now left.
Qed.

Lemma header_row_read_as_data_witness :
  find [lit "thead"] headed_table = Some (el "thead" [header_row])
  /\ find [lit "tbody"] headed_table = None
  /\ rows (table_data headed_table)
     = [ RowDict [(lit "A", lit "A"); (lit "B", lit "B")];
         RowDict [(lit "A", lit "1"); (lit "B", lit "2")] ]
  /\ In (RowDict (dict_of (combine (headers (table_data headed_table))
                                   (headers (table_data headed_table)))))
        (rows (table_data headed_table)).
Proof.
  assert (H1 : find [lit "thead"] headed_table = Some (el "thead" [header_row]))
    by (vm_compute; reflexivity).
  assert (H2 : find [lit "tr"] (el "thead" [header_row]) = Some header_row)
    by (vm_compute; reflexivity).
  assert (H3 : find [lit "tbody"] headed_table = None) by (vm_compute; reflexivity).
  assert (H4 : headers (table_data headed_table) <> [])
    by (vm_compute; discriminate).
  split; [exact H1|]. split; [exact H3|]. split; [vm_compute; reflexivity|].
  exact (proj2 (@header_row_read_as_data headed_table (el "thead" [header_row])
                  header_row H1 H2 H3 H4)).
Defined.

End MoreDetail.

Section MoreText.
Import Py Dom Samples MoreSamples.
Local Open Scope string_scope.
Local Open Scope list_scope.
Local Open Scope nat_scope.

Lemma words_normal_form (ws : list str) :
  Forall word ws ->
  strip (join [32%N] ws) = join [32%N] ws
  /\ contains [32; 32]%N (join [32%N] ws) = false
  /\ Forall (fun c => isspace c = true -> c = 32%N) (join [32%N] ws).
Proof.
  intros H. split; [now apply strip_join|].
  split; [now apply join_words_no_double_space | now apply join_words_spaces].
Qed.

Lemma fix_words (s : str) : Forall word (map fix_word (split s)).
Proof.
  apply Forall_map. eapply Forall_impl; [|apply split_words].
  intros w. apply fix_word_word.
Qed.

Lemma fix_rupee_words (s : str) : Forall word (map fix_rupee (split s)).
Proof.
  apply Forall_map. eapply Forall_impl; [|apply split_words].
  intros w. apply fix_rupee_word.
Qed.

(** X15.  The text each of the three normalizers returns has no white
    space at its ends, no two spaces in a row, and no white-space
    character other than the space: for [clean_text] of
    [news_scraper.py], of [detail.py] and of [scrapper.py]. *)
Theorem cleaned_text_normal_form (s : str) :
  (strip (NewsScraper.clean_text s) = NewsScraper.clean_text s
   /\ contains [32; 32]%N (NewsScraper.clean_text s) = false
   /\ Forall (fun c => isspace c = true -> c = 32%N) (NewsScraper.clean_text s))
  /\ (strip (Detail.clean_text s) = Detail.clean_text s
      /\ contains [32; 32]%N (Detail.clean_text s) = false
      /\ Forall (fun c => isspace c = true -> c = 32%N) (Detail.clean_text s))
  /\ (strip (Screener.clean_text s) = Screener.clean_text s
      /\ contains [32; 32]%N (Screener.clean_text s) = false
      /\ Forall (fun c => isspace c = true -> c = 32%N) (Screener.clean_text s)).
Proof.
  rewrite news_clean_text_words, detail_clean_text_words, screener_clean_text_words.
  split; [apply words_normal_form, fix_words|].
  split; [apply words_normal_form, split_words | apply words_normal_form, fix_rupee_words].
Qed.

(** X16.  None of the three normalizers returns a text longer than the
    one it was given. *)
Theorem cleaned_text_never_longer (s : str) :
  length (NewsScraper.clean_text s) <= length s
  /\ length (Detail.clean_text s) <= length s
  /\ length (Screener.clean_text s) <= length s.
Proof.
  rewrite news_clean_text_words, detail_clean_text_words, screener_clean_text_words.
  pose proof (proj1 (join_split_length s)) as H.
  pose proof (join_map_length fix_word (split s) fix_word_length).
  pose proof (join_map_length fix_rupee (split s) fix_rupee_length).
  lia.
Qed.

(** X17.  [clean_text] of [scrapper.py] is idempotent. *)
Theorem screener_clean_text_idempotent (s : str) :
  Screener.clean_text (Screener.clean_text s) = Screener.clean_text s.
Proof. apply screener_clean_text_idem. Qed.

(** X18.  The normalizer of [news_scraper.py] is the one of [scrapper.py]
    followed by the replacement of the right single quotation mark,
    although the two apply their steps in different orders.  On a text
    that holds neither the mis-encoded rupee sign nor that quotation mark
    the three normalizers return the same. *)
Theorem normalizers_agree (s : str) :
  NewsScraper.clean_text s = replace [8217%N] [39%N] (Screener.clean_text s)
  /\ (contains [226; 8218; 185]%N s = false -> ~ In 8217%N s ->
      NewsScraper.clean_text s = Detail.clean_text s
      /\ Screener.clean_text s = Detail.clean_text s).
Proof.
  split; [apply news_clean_text_screener|]. intros H1 H2.
  split; [now apply detail_clean_text_news | now apply screener_clean_text_detail].
Qed.

Lemma normalizers_agree_witness :
  contains [226; 8218; 185]%N (lit "  Issue   price  ") = false
  /\ ~ In 8217%N (lit "  Issue   price  ")
  /\ NewsScraper.clean_text (lit "  Issue   price  ") = lit "Issue price"
  /\ Screener.clean_text (lit "  Issue   price  ") = lit "Issue price".
Proof.
  assert (H1 : contains [226; 8218; 185]%N (lit "  Issue   price  ") = false)
    by (vm_compute; reflexivity).
  assert (H2 : ~ In 8217%N (lit "  Issue   price  "))
    by (vm_compute; intuition discriminate).
  split; [exact H1|]. split; [exact H2|].
  destruct (proj2 (normalizers_agree (lit "  Issue   price  ")) H1 H2) as [E1 E2].
  rewrite E1, E2. split; reflexivity.
Defined.

End MoreText.

Section MorePage.
Import Py Dom Detail Siblings DetailPage Samples MoreSamples.
Local Open Scope string_scope.
Local Open Scope list_scope.
Local Open Scope nat_scope.

(** X19.  The mapping [extract_key_value_pairs] returns has no key twice.
    Each key is the cleaned text of a [dt], [label], [strong] or [b]
    element of the page and has 1 to 100 characters; each value has 1 to
    499 characters and is a cleaned text. *)
Theorem key_value_pairs_well_formed (soup : node) :
  NoDup (map fst (extract_key_value_pairs soup))
  /\ Forall (stored_pair soup) (extract_key_value_pairs soup).
Proof.
  apply key_value_fold; [apply incl_refl | constructor | constructor].
Qed.

(** X20.  In the record of a page the [headings] entry has the tags of
    the levels that have a heading with text, each once, each with the
    cleaned texts of its elements that are not empty; no list and no
    heading in it is empty.  Every content section whose heading text is
    not empty has that text in [headings], under the tag of its level. *)
Theorem page_headings_cover_sections (urljoin : str -> str -> str)
    (netloc : str -> str) (soup : node) (url : str) :
  NoDup (map fst (headings (page_of urljoin netloc soup url)))
  /\ Forall (fun th =>
               In (fst th) heading_tags /\ snd th <> []
               /\ Forall (fun h =>
                            h <> []
                            /\ exists e, In e (find_all [fst th] soup)
                                         /\ h = clean_text (get_text e))
                         (snd th))
            (headings (page_of urljoin netloc soup url))
  /\ (forall s,
         In s (content_sections (page_of urljoin netloc soup url)) ->
         heading s <> [] ->
         exists tag hs,
           In (tag, hs) (headings (page_of urljoin netloc soup url))
           /\ In (heading s) hs
           /\ heading_level tag = level s).
Proof.
  cbn [page_of headings content_sections].
  split; [apply page_headings_keys|]. split.
  - apply Forall_forall. intros [tag hs] H. cbn [fst snd].
    apply page_headings_In in H as [Ht [-> Hn]].
    split; [exact Ht|]. split; [exact Hn|].
    apply Forall_forall. intros h Hh. now apply headings_of_spec.
  - intros s. apply section_heading_listed.
Qed.

Lemma page_headings_cover_sections_witness :
  In issue_section
     (content_sections (page_of urljoin_absolute Url.netloc section_page
                                (lit "https://x.test/ipo")))
  /\ heading issue_section <> []
  /\ headings (page_of urljoin_absolute Url.netloc section_page
                       (lit "https://x.test/ipo"))
     = [(lit "h2", [lit "Issue details"])]
  /\ exists tag hs,
       In (tag, hs) (headings (page_of urljoin_absolute Url.netloc section_page
                                       (lit "https://x.test/ipo")))
       /\ In (heading issue_section) hs
       /\ heading_level tag = level issue_section.
Proof.
  assert (H1 : In issue_section
                  (content_sections (page_of urljoin_absolute Url.netloc section_page
                                             (lit "https://x.test/ipo"))))
    by (vm_compute; left; reflexivity).
  assert (H2 : heading issue_section <> []) by (vm_compute; discriminate).
  split; [exact H1|]. split; [exact H2|]. split; [vm_compute; reflexivity|].
  exact (proj2 (proj2 (@page_headings_cover_sections urljoin_absolute Url.netloc
                         section_page (lit "https://x.test/ipo")))
           issue_section H1 H2).
Defined.

(** X21.  With the base page fetched, [scrape_all_tabs] never returns
    the record of a failed request, and it ends by an exception exactly
    when the path of the base URL cannot be read or some tab anchor with
    a name has a destination that [urljoin] rejects: the anchors are
    resolved outside any [try].  When the path is read and every such
    destination resolves, it returns the record of the tabs, and these
    are listed by name in strictly ascending order, so no name occurs
    twice, and no URL occurs twice.  Each is a tab anchor with a name
    that is not empty, with the URL its destination resolves to, or the
    base page under the name [IPO Detail].  The base URL is always among
    the URLs, also when that name is dropped because a tab has the same
    URL.  The result holds one record for each tab, in that order: the
    record of [scrape_single_page], or the error record when that call
    raises. *)
Theorem tabs_sorted_and_scraped_once (urljoin : str -> str -> option str)
    (url_path : str -> option str) (scrape_page : str -> option page_result)
    (soup : node) (base_url : str) :
  scrape_all_tabs urljoin url_path scrape_page (Some soup) base_url <> AllError
  /\ (scrape_all_tabs urljoin url_path scrape_page (Some soup) base_url = AllRaises
      <-> url_path base_url = None
          \/ exists a, unresolved_tab urljoin soup base_url a)
  /\ forall path,
       url_path base_url = Some path ->
       (forall a, ~ unresolved_tab urljoin soup base_url a) ->
       exists links,
         tab_links urljoin soup base_url = Some links
         /\ ascending (map fst links)
         /\ NoDup (map fst links)
         /\ NoDup (map snd links)
         /\ Forall (tab_of urljoin soup base_url) links
         /\ In base_url (map snd links)
         /\ scrape_all_tabs urljoin url_path scrape_page (Some soup) base_url
            = All (AllData base_url (slug_of_path path)
                     (map (fun item => (fst item, tab_data scrape_page (snd item)))
                          links)).
Proof.
  split; [|split].
  - unfold scrape_all_tabs. destruct (url_path base_url); [|discriminate].
    destruct (tab_links urljoin soup base_url); discriminate.
  - rewrite <- (tab_links_none urljoin soup base_url).
    apply scrape_all_tabs_raises.
  - intros path Hp Hr.
    destruct (tab_links urljoin soup base_url) as [links|] eqn:E.
    + exists links. split; [reflexivity|].
      destruct (@tab_links_facts urljoin soup base_url links E)
        as [H1 [H2 [H3 [H4 H5]]]].
      repeat (split; [assumption|]).
      exact (@scrape_all_tabs_all urljoin url_path scrape_page soup base_url path
               links Hp E).
    + apply (tab_links_none urljoin soup base_url) in E as [a Ha].
      now contradiction (Hr a).
Qed.

Lemma tabs_sorted_and_scraped_once_witness :
  let base_url := lit "https://x.test/ipo/acme/" in
  path_of base_url = Some (lit "/ipo/acme/")
  /\ (forall a, ~ unresolved_tab urljoin_checked tabs_page base_url a)
  /\ tab_links urljoin_checked tabs_page base_url
     = Some [ (lit "Allotment", base_url);
              (lit "Reviews", lit "https://x.test/ipo/acme/reviews") ]
  /\ scrape_all_tabs urljoin_checked path_of scrape_unfetched (Some tabs_page) base_url
     = All (AllData base_url (lit "acme")
              [ (lit "Allotment", PageError); (lit "Reviews", PageError) ])
  /\ scrape_all_tabs urljoin_checked path_of scrape_unfetched
                     (Some broken_tabs_page) base_url
     = AllRaises
  /\ exists links,
       tab_links urljoin_checked tabs_page base_url = Some links
       /\ ascending (map fst links)
       /\ NoDup (map fst links)
       /\ NoDup (map snd links)
       /\ Forall (tab_of urljoin_checked tabs_page base_url) links
       /\ In base_url (map snd links)
       /\ scrape_all_tabs urljoin_checked path_of scrape_unfetched (Some tabs_page)
                          base_url
          = All (AllData base_url (slug_of_path (lit "/ipo/acme/"))
                   (map (fun item => (fst item, tab_data scrape_unfetched (snd item)))
                        links)).
Proof.
  intros base_url.
  assert (H1 : path_of base_url = Some (lit "/ipo/acme/")) by (vm_compute; reflexivity).
  assert (H2 : forall a, ~ unresolved_tab urljoin_checked tabs_page base_url a).
  { intros a [Ha [_ H]].
    assert (F : Forall (fun a => urljoin_checked base_url (get (lit "href") a) <> None)
                       (nav_tabs tabs_page)).
    { let l := eval vm_compute in (nav_tabs tabs_page) in
      change (nav_tabs tabs_page) with l.
      repeat (constructor; [vm_compute; discriminate|]). constructor. }
    rewrite Forall_forall in F. exact (F a Ha H). }
  split; [exact H1|]. split; [exact H2|].
  split; [vm_compute; reflexivity|]. split; [vm_compute; reflexivity|].
  split; [vm_compute; reflexivity|].
  exact (proj2 (proj2 (@tabs_sorted_and_scraped_once urljoin_checked path_of
                         scrape_unfetched tabs_page base_url))
           (lit "/ipo/acme/") H1 H2).
Defined.

(** X22.  The company slug of [scrape_all_tabs] never holds a slash,
    whether it is the third segment of the path or, when the path has no
    third segment, the path with its slashes replaced. *)
Theorem company_slug_has_no_slash (url_path : str -> str) (base_url : str) :
  ~ In 47%N (company_slug url_path base_url).
Proof. apply company_slug_no_slash. Qed.

End MorePage.

Section MoreDates.
Import Py Dom NewsScraper NewsDates Samples MoreSamples.
Local Open Scope string_scope.
Local Open Scope list_scope.
Local Open Scope nat_scope.

(** X23.  [clean_date] keeps a valid date valid: what it cuts off, a UTC
    offset, a [Z], white space, takes no year with it.  Its result has no
    white space at its ends. *)
Theorem clean_date_keeps_valid (decimal : N -> bool) (date_str : str) :
  validate_date date_str = true ->
  validate_date (clean_date decimal date_str) = true
  /\ strip (clean_date decimal date_str) = clean_date decimal date_str.
Proof.
  intros H. split; [now apply clean_date_valid | apply clean_date_stripped].
Qed.

Lemma clean_date_keeps_valid_witness :
  validate_date (lit "2024-03-10T10:00:00+05:30") = true
  /\ clean_date isdigit (lit "2024-03-10T10:00:00+05:30") = lit "2024-03-10T10:00:00"
  /\ validate_date (clean_date isdigit (lit "2024-03-10T10:00:00+05:30")) = true.
Proof.
  assert (H : validate_date (lit "2024-03-10T10:00:00+05:30") = true)
    by (vm_compute; reflexivity).
  split; [exact H|]. split; [vm_compute; reflexivity|].
  exact (proj1 (@clean_date_keeps_valid isdigit (lit "2024-03-10T10:00:00+05:30") H)).
Defined.

(** X24.  [extract_date] returns the empty string or a date that
    [validate_date] accepts, without white space at its ends, whatever
    the page, the element and the matches of the date patterns are. *)
Theorem extract_date_empty_or_valid (decimal : N -> bool)
    (search : date_pattern -> str -> option str) (soup : node)
    (article_elem : option node) :
  (extract_date decimal search soup article_elem = []
   \/ validate_date (extract_date decimal search soup article_elem) = true)
  /\ strip (extract_date decimal search soup article_elem)
     = extract_date decimal search soup article_elem.
Proof. split; [apply extract_date_valid | apply extract_date_stripped]. Qed.

(** X25.  With [extract_date] as the date extractor, every record of the
    four strategies has an empty date or a date that [validate_date]
    accepts. *)
Theorem record_dates_empty_or_valid (urljoin : str -> str -> str)
    (url_path : str -> str) (decimal : N -> bool)
    (search : date_pattern -> str -> option str)
    (soup : node) (fetched : list (option node)) (url : str) :
  let dated := fun a => date a = [] \/ validate_date (date a) = true in
  Forall dated (scrape_static_article urljoin url_path
                  (extract_date decimal search) soup url)
  /\ Forall dated (scrape_headlines urljoin url_path
                     (extract_date decimal search) soup url)
  /\ Forall dated (scrape_js urljoin url_path (extract_date decimal search) soup url)
  /\ Forall dated (crawl_pages urljoin url_path
                     (extract_date decimal search) fetched url).
Proof.
  intros dated.
  pose proof (extract_date_valid decimal search) as H.
  pose (Q := fun d : str => d = [] \/ validate_date d = true).
  split; [exact (@scrape_static_article_dates urljoin url_path _ Q H soup url)|].
  split; [exact (@scrape_headlines_dates urljoin url_path _ Q H soup url)|].
  split; [exact (@scrape_js_dates urljoin url_path _ Q H soup url)|].
  exact (@crawl_loop_dates urljoin url_path _ Q H url fetched 1 [] []
           (Forall_nil _)).
Qed.

End MoreDates.

Section MoreFeeds.
Import Py Dom Detail Siblings Rss Samples MoreSamples.
Local Open Scope string_scope.
Local Open Scope list_scope.
Local Open Scope nat_scope.

(** X26.  When the feed can be fetched, [scrape_rss_feed] returns one
    article for each of the items read that has a link, in the order of
    the feed and with that link, whether the page behind the link can be
    fetched or not; an item without a link, or with one that is empty
    once stripped, gives no article. *)
Theorem feed_one_article_per_linked_item (fetch : str -> option node)
    (source_name rss_url country : str) (max_articles : BinNums.Z) (soup : node) :
  fetch rss_url = Some soup ->
  map (dict_get (lit "link"))
      (scrape_rss_feed fetch source_name rss_url country max_articles)
  = map Some
        (flat_map (fun item => option_list (item_link item))
                  (slice_to (find_all [lit "item"] soup) max_articles)).
Proof. apply scrape_rss_feed_links. Qed.

Lemma feed_one_article_per_linked_item_witness :
  fetch_feed (lit "https://n.test/rss") = Some feed
  /\ map item_link (find_all [lit "item"] feed) = [Some (lit "https://n.test/a"); None]
  /\ map (dict_get (lit "link"))
         (scrape_rss_feed fetch_feed (lit "N") (lit "https://n.test/rss")
                          (lit "India") (BinNums.Zpos 10%positive))
     = [Some (lit "https://n.test/a")].
Proof.
  assert (H : fetch_feed (lit "https://n.test/rss") = Some feed)
    by (vm_compute; reflexivity).
  split; [exact H|]. split; [vm_compute; reflexivity|].
  rewrite (@feed_one_article_per_linked_item fetch_feed (lit "N")
             (lit "https://n.test/rss") (lit "India") (BinNums.Zpos 10%positive)
             feed H).
  vm_compute. reflexivity.
Defined.

(** X27.  For a limit that is not negative [scrape_rss_feed] returns at
    most that many articles, and [scrape_all_news], which reads 22 feeds
    with the limit 10, at most 220. *)
Theorem feed_length_bounded (fetch : str -> option node)
    (source_name rss_url country : str) (max_articles : BinNums.Z) :
  BinInt.Z.le BinNums.Z0 max_articles ->
  length (scrape_rss_feed fetch source_name rss_url country max_articles)
  <= BinInt.Z.to_nat max_articles
  /\ length (scrape_all_news fetch) <= 220.
Proof.
  intros H. split; [now apply scrape_rss_feed_length | apply scrape_all_news_length].
Qed.

Lemma feed_length_bounded_witness :
  BinInt.Z.le BinNums.Z0 (BinNums.Zpos 1%positive)
  /\ length (scrape_rss_feed fetch_feed (lit "N") (lit "https://n.test/rss")
                             (lit "India") (BinNums.Zpos 1%positive)) <= 1.
Proof.
  assert (H : BinInt.Z.le BinNums.Z0 (BinNums.Zpos 1%positive)) by discriminate.
  split; [exact H|].
  exact (proj1 (@feed_length_bounded fetch_feed (lit "N") (lit "https://n.test/rss")
                  (lit "India") (BinNums.Zpos 1%positive) H)).
Defined.

(** X28.  Every article of [scrape_rss_feed] has seven entries.  It
    stems from an item of the feed that has a link: the link, the
    description and the publication date are those of the item, the
    source and the country those of the call.  When the page behind the
    link cannot be fetched, the title is the one of the item and the
    content is empty. *)
Theorem feed_article_metadata (fetch : str -> option node)
    (source_name rss_url country : str) (max_articles : BinNums.Z) (d : dict) :
  In d (scrape_rss_feed fetch source_name rss_url country max_articles) ->
  exists soup item link,
    fetch rss_url = Some soup
    /\ In item (find_all [lit "item"] soup)
    /\ item_link item = Some link
    /\ length d = 7
    /\ dict_get (lit "link") d = Some link
    /\ dict_get (lit "source") d = Some source_name
    /\ dict_get (lit "source_country") d = Some country
    /\ dict_get (lit "description") d
       = Some (text_or [] (find [lit "description"] item))
    /\ dict_get (lit "published_date") d
       = Some (text_or [] (find [lit "pubDate"] item))
    /\ exists title content,
         dict_get (lit "title") d = Some title
         /\ dict_get (lit "content") d = Some content
         /\ (fetch link = None ->
             title = text_or (lit "No title") (find [lit "title"] item)
             /\ content = []).
Proof.
  intros H. apply scrape_rss_feed_In in H as [soup [item [F [Hi Hd]]]].
  apply item_articles_In in Hd as [link [L [H1 [H2 [H3 [H4 [H5 [H6 H7]]]]]]]].
  exists soup, item, link. split; [exact F|].
  split; [exact (slice_to_incl _ _ item Hi)|].
  repeat (split; [assumption|]). exact H6.
Qed.

Lemma feed_article_metadata_witness :
  In first_article
     (scrape_rss_feed fetch_feed (lit "N") (lit "https://n.test/rss") (lit "India")
                      (BinNums.Zpos 10%positive))
  /\ exists soup item link,
       fetch_feed (lit "https://n.test/rss") = Some soup
       /\ In item (find_all [lit "item"] soup)
       /\ item_link item = Some link
       /\ length first_article = 7
       /\ dict_get (lit "link") first_article = Some link.
Proof.
  assert (H : In first_article
                 (scrape_rss_feed fetch_feed (lit "N") (lit "https://n.test/rss")
                                  (lit "India") (BinNums.Zpos 10%positive)))
    by (vm_compute; left; reflexivity).
  split; [exact H|].
  destruct (@feed_article_metadata fetch_feed (lit "N") (lit "https://n.test/rss")
              (lit "India") (BinNums.Zpos 10%positive) first_article H)
    as [soup [item [link [F [Hi [L [H7 [Hl _]]]]]]]].
  exists soup, item, link. repeat (split; [assumption|]). exact Hl.
Defined.

End MoreFeeds.
